(** * FCFC (2pt_box): verification of the configuration loader

    A shallow embedding of [src/fcfc/2pt_box/load_conf.c]: the functions
    [check_input], [check_output], [conf_verify], [conf_print] and
    [load_conf], followed by the properties of the configuration they
    accept or reject.

    Conventions of the embedding.
    - A C [int] that holds a size or an index is a [nat]; an [int] that holds
      a user supplied value (OVERWRITE, a multipole order, ...) is a [Z].  No
      arithmetic on those values is performed apart from comparisons and
      [force - 1] on a macro constant.
    - A [char] is an [ascii]; a C string is a [string] read up to its first
      NUL, and reading the position just after its last character yields the
      terminator.
    - A [double] is a [spec_float] (IEEE 754 value: zero, infinity, NaN or
      finite).
    - A function returning an error code runs in the monad [M]: it consumes
      characters of the standard input (the interactive overwrite prompt) and
      either fails with a nonzero code or returns a value.
    - Memory allocation is assumed to succeed in [conf_verify], also for a
      request of zero bytes (as with glibc, where [malloc (0)] is not NULL);
      its [FCFC_ERR_MEMORY] exits are those of [conf_verify_mem], which is
      [conf_verify] with the outcome of each allocation as a parameter.
    - [conf_verify] updates the structure in place.  Its model computes the
      final value of each field block by block and builds the verified
      structure at the end; on an error the structure is destroyed by
      [load_conf], so its intermediate state is not modelled. *)

From Stdlib Require Import ZArith QArith Qpower Ascii String Floats.SpecFloat.
From stdpp Require Import base tactics option list sorting strings.

Local Open Scope nat_scope.

(** ** Constants of [define.h]

    The header is not part of the verified file; its macros are taken as
    parameters.  Only their names are used by [load_conf.c]. *)

Class define_h := {
  FCFC_MAX_ELL : Z;
  FCFC_OVERWRITE_NONE : Z;
  FCFC_OVERWRITE_CFONLY : Z;
  FCFC_OVERWRITE_ALL : Z;
  DEFAULT_OVERWRITE : Z;
  FCFC_STRUCT_KDTREE : Z;
  FCFC_STRUCT_BALLTREE : Z;
  DEFAULT_STRUCT : Z;
  FCFC_BIN_ISO : Z;
  FCFC_BIN_SMU : Z;
  FCFC_BIN_SPI : Z;
  DEFAULT_BINNING : Z;
  FCFC_OFMT_BIN : Z;
  FCFC_OFMT_ASCII : Z;
  DEFAULT_OUTPUT_FORMAT : Z;
  DEFAULT_PROJECTED_CF : bool;
  DEFAULT_VERBOSE : bool;
  FCFC_PATH_SEP : ascii
}.

(** The nonzero return codes.  [0] (success) is the absence of a code. *)
Inductive errcode :=
  | FCFC_ERR_MEMORY
  | FCFC_ERR_FILE
  | FCFC_ERR_CFG
  | FCFC_ERR_SAVE.

#[global] Instance errcode_eq_dec : EqDecision errcode.
Proof. solve_decision. Defined.

(** ** The monad of [conf_verify]: standard input and error codes *)

Definition stdin := string.

Definition M (A : Type) : Type := stdin -> errcode + A * stdin.

Definition ret {A} (a : A) : M A := fun s => inr (a, s).
Definition raise {A} (e : errcode) : M A := fun _ => inl e.
Definition bind {A B} (m : M A) (k : A -> M B) : M B :=
  fun s => match m s with
           | inl e => inl e
           | inr (a, s') => k a s'
           end.

Notation "'let*' x ':=' m 'in' k" := (bind m (fun x => k))
  (at level 10, x name, m at level 100, k at level 200).
Notation "'let*' ' pat ':=' m 'in' k" := (bind m (fun pat => k))
  (at level 10, pat pattern, m at level 100, k at level 200).

(** [for (i = lo; i < hi; i++) body]: the loop body receives the index and
    the variables the loop updates. *)
Fixpoint for_iter {A} (n : nat) (i : nat) (body : nat -> A -> M A) (a : A) : M A :=
  match n with
  | O => ret a
  | S n' => let* a' := body i a in for_iter n' (S i) body a'
  end.

Definition for_ {A} (lo hi : nat) (body : nat -> A -> M A) (a : A) : M A :=
  for_iter (hi - lo) lo body a.

(** ** Characters, strings, doubles *)

Definition NUL : ascii := Ascii.zero.

Definition char_code (c : ascii) : N := N_of_ascii c.
Definition char_lt (a b : ascii) : bool := (char_code a <? char_code b)%N.
Definition char_eq (a b : ascii) : bool := Ascii.eqb a b.

(** [s[i]] for a C string: past the last character sits the terminator. *)
Definition char_at (s : string) (i : nat) : ascii :=
  match String.get i s with
  | Some c => c
  | None => NUL
  end.

#[global] Instance ascii_inhabited : Inhabited ascii := populate NUL.
#[global] Instance spec_float_inhabited : Inhabited spec_float := populate S754_nan.

Definition isfinite (x : spec_float) : bool :=
  match x with
  | S754_zero _ | S754_finite _ _ _ => true
  | S754_infinity _ | S754_nan => false
  end.

(** [x <= 0] on doubles. *)
Definition le_zero (x : spec_float) : bool := SFleb x (S754_zero false).

(** ** The configuration structure and the libcfg handle *)

Record CONF := {
  fconf : string;
  label : list ascii;
  ninput : nat;
  has_wt : list bool;
  bsize : list spec_float;
  ovwrite : Z;
  dstruct : Z;
  bintype : Z;
  pc : list string;
  npc : nat;
  comp_pc : list bool;
  pcout : list string;
  cf : list string;
  ncf : nat;
  cfout : list string;
  poles : list Z;
  npole : nat;
  mpout : list string;
  wp : bool;
  wpout : list string;
  ofmt : Z;
  verbose : bool
}.

(** The parameters registered in [conf_read]. *)
Inductive param :=
  | CONFIG_FILE | CATALOG_LABEL | WEIGHT | BOX_SIZE | DATA_STRUCT
  | BINNING_SCHEME | PAIR_COUNT | PAIR_COUNT_FILE | CF_ESTIMATOR
  | CF_OUTPUT_FILE | MULTIPOLE | MULTIPOLE_FILE | PROJECTED_CF
  | PROJECTED_FILE | OUTPUT_FORMAT | OVERWRITE | VERBOSE.

(** libcfg stores the value of a parameter in the field of [CONF] whose
    address was registered for it, and remembers which parameters were set.
    [cfg_get_size] is the number of elements of an array parameter that was
    set, and [0] for one that was not. *)
Definition cfg_t := param -> bool.

Definition cfg_is_set (cfg : cfg_t) (p : param) : bool := cfg p.

Definition param_size (conf : CONF) (p : param) : nat :=
  match p with
  | CATALOG_LABEL => length (label conf)
  | BOX_SIZE => length (bsize conf)
  | PAIR_COUNT => length (pc conf)
  | PAIR_COUNT_FILE => length (pcout conf)
  | CF_ESTIMATOR => length (cf conf)
  | CF_OUTPUT_FILE => length (cfout conf)
  | MULTIPOLE => length (poles conf)
  | MULTIPOLE_FILE => length (mpout conf)
  | PROJECTED_FILE => length (wpout conf)
  | _ => 1
  end.

Definition cfg_get_size (cfg : cfg_t) (conf : CONF) (p : param) : nat :=
  if cfg p then param_size conf p else 0.

(** ** Macros for error handling *)

(** [CHECK_EXIST_ARRAY]: the size must be nonzero. *)
Definition CHECK_EXIST_ARRAY (num : nat) : M unit :=
  if num =? 0 then raise FCFC_ERR_CFG else ret tt.

(** [CHECK_ARRAY_LENGTH] and [CHECK_STR_ARRAY_LENGTH]: too few elements is
    an error, too many only prints a warning. *)
Definition CHECK_ARRAY_LENGTH (num nexp : nat) : M unit :=
  if num <? nexp then raise FCFC_ERR_CFG else ret tt.

(** A loop whose body cannot fail: [for (i = lo; i < hi; i++) a = body i a]. *)
Fixpoint loop_iter {A} (n : nat) (i : nat) (body : nat -> A -> A) (a : A) : A :=
  match n with
  | O => a
  | S n' => loop_iter n' (S i) body (body i a)
  end.

Definition loop {A} (lo hi : nat) (body : nat -> A -> A) (a : A) : A :=
  loop_iter (hi - lo) lo body a.

(** A call that reads the standard input and returns a plain value. *)
Definition call {A} (f : stdin -> A * stdin) : M A := fun s => inr (f s).

(** [if ((e = f(...))) return e;] *)
Definition check (e : option errcode) : M unit :=
  match e with
  | None => ret tt
  | Some e => raise e
  end.

(** ** The file system and the interactive prompt *)

(** The modes of [access (2)]. *)
Inductive amode := F_OK | R_OK | W_OK | X_OK.

Definition newline : ascii := "010"%char.

Definition is_yes (c : ascii) : bool := char_eq c "y" || char_eq c "Y".
Definition is_no (c : ascii) : bool := char_eq c "n" || char_eq c "N".

(** [while ((c = getchar()) != '\n' && c != EOF) continue;] *)
Fixpoint skip_line (inp : stdin) : stdin :=
  match inp with
  | EmptyString => EmptyString
  | String c rest => if char_eq c newline then rest else skip_line rest
  end.

(** The prompt loop of [check_output], [for (i = 0; i != ovwrite; i--)]:
    [trials] iterations remain.  A failed [scanf] goes to the next trial, an
    answer y/Y/n/N fixes [ovwrite] and leaves the loop. *)
Fixpoint ask_overwrite (trials : nat) (confirm : ascii) (ovwrite force : Z)
    (inp : stdin) : ascii * Z * stdin :=
  match trials with
  | O => (confirm, ovwrite, inp)
  | S k =>
      match inp with
      | EmptyString => ask_overwrite k confirm ovwrite force inp
      | String c rest =>
          let inp' := skip_line rest in
          if is_no c then (c, (force - 1)%Z, inp')
          else if is_yes c then (c, force, inp')
          else ask_overwrite k c ovwrite force inp'
      end
  end.

(** [strrchr]: the index of the last occurrence of [c] in [s]. *)
Fixpoint strrchr (s : string) (c : ascii) : option nat :=
  match s with
  | EmptyString => None
  | String a s' =>
      match strrchr s' c with
      | Some k => Some (S k)
      | None => if char_eq a c then Some 0 else None
      end
  end.

Section load_conf.

Context {D : define_h}.

(** [access (2)]: [0] when the access is permitted. *)
Variable access : string -> amode -> Z.

(** *** [check_output] *)

Definition check_output (fname : string) (ovwrite force : Z) (inp : stdin)
    : option errcode * stdin :=
  if char_eq (char_at fname 0) NUL then (Some FCFC_ERR_CFG, inp)
  else if (access fname F_OK =? 0)%Z then
    let '(confirm, ovwrite', inp') :=
      if (ovwrite <? 0)%Z
      then ask_overwrite (Z.to_nat (- ovwrite)) NUL ovwrite force inp
      else (NUL, ovwrite, inp) in
    if (ovwrite <? 0)%Z && negb (is_yes confirm) && negb (is_no confirm)
    then (Some FCFC_ERR_FILE, inp')
    else if (ovwrite' <=? FCFC_OVERWRITE_NONE)%Z then (Some FCFC_ERR_FILE, inp')
    else if (ovwrite' >=? force)%Z then
      if (access fname W_OK =? 0)%Z then (None, inp')
      else (Some FCFC_ERR_FILE, inp')
    else
      if (access fname R_OK =? 0)%Z then (Some FCFC_ERR_SAVE, inp')
      else (Some FCFC_ERR_FILE, inp')
  else
    match strrchr fname FCFC_PATH_SEP with
    | Some k =>
        if (access (substring 0 k fname) X_OK =? 0)%Z then (None, inp)
        else (Some FCFC_ERR_FILE, inp)
    | None => (None, inp)
    end.

(** [for (i = 0; i < n; i++) if ((e = check_output(files[i], ...))) return e;] *)
Definition check_outputs (files : list string) (n : nat) (ovwrite force : Z)
    : M unit :=
  for_ 0 n (fun i _ =>
    let* e := call (check_output (files !!! i) ovwrite force) in
    check e) tt.

(** *** [conf_verify], block by block *)

Definition not_upper (c : ascii) : bool := char_lt c "A" || char_lt "Z" c.

(** CATALOG_LABEL *)
Definition verify_CATALOG_LABEL (cfg : cfg_t) (conf : CONF)
    : M (nat * list ascii) :=
  let num := cfg_get_size cfg conf CATALOG_LABEL in
  let ninput := cfg_get_size cfg conf CATALOG_LABEL in
  if num =? 0 then
    let tmp := resize ninput NUL (label conf) in
    ret (ninput,
         loop 0 ninput
           (fun i lab => <[i := ascii_of_nat (nat_of_ascii "A" + i)]> lab) tmp)
  else
    let* _ := CHECK_ARRAY_LENGTH num ninput in
    let* _ := for_ 0 ninput (fun i _ =>
      if not_upper (label conf !!! i) then raise FCFC_ERR_CFG else ret tt) tt in
    let* _ := for_ 0 (ninput - 1) (fun i _ =>
      for_ (i + 1) ninput (fun j _ =>
        if char_eq (label conf !!! i) (label conf !!! j)
        then raise FCFC_ERR_CFG else ret tt) tt) tt in
    ret (ninput, label conf).

(** WEIGHT *)
Definition verify_WEIGHT (ninput : nat) : list bool :=
  loop 0 ninput (fun i w => <[i := true]> w) (replicate ninput false).

(** BOX_SIZE *)
Definition verify_BOX_SIZE (cfg : cfg_t) (conf : CONF) : M (list spec_float) :=
  let num := cfg_get_size cfg conf BOX_SIZE in
  let* _ := CHECK_EXIST_ARRAY num in
  let* bs := (if num =? 1 then
           let tmp := resize 3 S754_nan (bsize conf) in
           let b0 := tmp !!! 0 in
           ret (<[1 := b0]> (<[2 := b0]> tmp))
         else
           let* _ := CHECK_ARRAY_LENGTH num 3 in
           ret (bsize conf)) in
  let* _ := for_ 0 3 (fun i _ =>
    if negb (isfinite (bs !!! i)) || le_zero (bs !!! i)
    then raise FCFC_ERR_CFG else ret tt) tt in
  ret bs.

(** OVERWRITE *)
Definition verify_OVERWRITE (cfg : cfg_t) (conf : CONF) : Z :=
  if negb (cfg_is_set cfg OVERWRITE) then DEFAULT_OVERWRITE else ovwrite conf.

(** DATA_STRUCT *)
Definition verify_DATA_STRUCT (cfg : cfg_t) (conf : CONF) : M Z :=
  let dstruct :=
    if negb (cfg_is_set cfg DATA_STRUCT) then DEFAULT_STRUCT else dstruct conf in
  if (dstruct =? FCFC_STRUCT_KDTREE)%Z || (dstruct =? FCFC_STRUCT_BALLTREE)%Z
  then ret dstruct
  else raise FCFC_ERR_CFG.

(** BINNING_SCHEME *)
Definition verify_BINNING_SCHEME (cfg : cfg_t) (conf : CONF) : M Z :=
  let bintype :=
    if negb (cfg_is_set cfg BINNING_SCHEME) then DEFAULT_BINNING
    else bintype conf in
  if (bintype =? FCFC_BIN_ISO)%Z || (bintype =? FCFC_BIN_SMU)%Z
     || (bintype =? FCFC_BIN_SPI)%Z
  then ret bintype
  else raise FCFC_ERR_CFG.

(** PAIR_COUNT: shape of an identifier, [s[0]], [s[1]] in 'A'..'Z', [s[2]]
    the terminator. *)
Definition bad_pair (s : string) : bool :=
  not_upper (char_at s 0) || not_upper (char_at s 1)
  || negb (char_eq (char_at s 2) NUL).

Definition verify_PAIR_COUNT (cfg : cfg_t) (conf : CONF) : M nat :=
  let npc := cfg_get_size cfg conf PAIR_COUNT in
  let* _ := CHECK_EXIST_ARRAY npc in
  let* _ := for_ 0 npc (fun i _ =>
    if bad_pair (pc conf !!! i) then raise FCFC_ERR_CFG else ret tt) tt in
  let* _ := for_ 0 (npc - 1) (fun i _ =>
    for_ (i + 1) npc (fun j _ =>
      if char_eq (char_at (pc conf !!! i) 0) (char_at (pc conf !!! j) 0)
         && char_eq (char_at (pc conf !!! i) 1) (char_at (pc conf !!! j) 1)
      then raise FCFC_ERR_CFG else ret tt) tt) tt in
  ret npc.

(** The label check of a pair that is going to be counted. *)
Definition label_found (ninput : nat) (label : list ascii) (s : string) : nat :=
  loop 0 ninput (fun j found =>
    let found :=
      if char_eq (char_at s 0) (label !!! j) then found + 1 else found in
    if char_eq (char_at s 1) (label !!! j) then found + 1 else found) 0.

Definition check_labels (ninput : nat) (label : list ascii) (s : string)
    : M unit :=
  if negb (label_found ninput label s =? 2) then raise FCFC_ERR_CFG
  else ret tt.

(** PAIR_COUNT_FILE: the body of the loop over the pair identifiers when
    output files are configured. *)
Definition pair_file_step (conf : CONF) (ninput : nat) (label : list ascii)
    (ovwrite : Z) (i : nat) (comp_pc : list bool) : M (list bool) :=
  let* e := call (check_output (pcout conf !!! i) ovwrite FCFC_OVERWRITE_ALL) in
  let* comp_pc := match e with
                  | None => ret (<[i := true]> comp_pc)
                  | Some FCFC_ERR_SAVE => ret (<[i := false]> comp_pc)
                  | Some e => raise e
                  end in
  let* _ := (if ((comp_pc : list bool) !!! i : bool)
             then check_labels ninput label (pc conf !!! i)
             else ret tt) in
  ret comp_pc.

(** The body of the loop when no output file is configured. *)
Definition pair_nofile_step (conf : CONF) (ninput : nat) (label : list ascii)
    (i : nat) (comp_pc : list bool) : M (list bool) :=
  let comp_pc := <[i := true]> comp_pc in
  let* _ := (if (comp_pc !!! i : bool)
             then check_labels ninput label (pc conf !!! i)
             else ret tt) in
  ret comp_pc.

Definition verify_PAIR_COUNT_FILE (cfg : cfg_t) (conf : CONF) (ninput : nat)
    (label : list ascii) (ovwrite : Z) (npc : nat)
    : M (list bool * list string) :=
  let comp_pc := replicate npc false in
  if cfg_is_set cfg PAIR_COUNT_FILE then
    let num := cfg_get_size cfg conf PAIR_COUNT_FILE in
    let* _ := CHECK_EXIST_ARRAY num in
    let* _ := CHECK_ARRAY_LENGTH num npc in
    let* comp_pc := for_ 0 npc (pair_file_step conf ninput label ovwrite) comp_pc in
    ret (comp_pc, pcout conf)
  else
    let* comp_pc := for_ 0 npc (pair_nofile_step conf ninput label) comp_pc in
    ret (comp_pc, []).

(** An optional list of output files, one per estimator. *)
Definition verify_output_files (cfg : cfg_t) (conf : CONF) (p : param)
    (files : list string) (ncf : nat) (ovwrite : Z) : M (list string) :=
  if cfg_is_set cfg p then
    let num := cfg_get_size cfg conf p in
    let* _ := CHECK_EXIST_ARRAY num in
    let* _ := CHECK_ARRAY_LENGTH num ncf in
    let* _ := check_outputs files ncf ovwrite FCFC_OVERWRITE_CFONLY in
    ret files
  else ret [].

(** MULTIPOLE: the insertion sort.  [shift_right] is the inner loop
    [for (num = i; num > 0 && poles[num - 1] > tmp; num--)]. *)
Fixpoint shift_right (tmp : Z) (num : nat) (poles : list Z) : list Z * nat :=
  match num with
  | O => (poles, O)
  | S k =>
      if (poles !!! k >? tmp)%Z
      then shift_right tmp k (<[S k := poles !!! k]> poles)
      else (poles, S k)
  end.

Definition sort_step (i : nat) (poles : list Z) : list Z :=
  let tmp := poles !!! i in
  let '(poles, num) := shift_right tmp i poles in
  <[num := tmp]> poles.

Definition sort_poles (npole : nat) (poles : list Z) : list Z :=
  loop 1 npole sort_step poles.

(** MULTIPOLE: removal of the duplicates of the sorted array. *)
Definition dedup_step (i : nat) (st : list Z * nat) : list Z * nat :=
  let '(poles, num) := st in
  if negb (poles !!! i =? poles !!! num)%Z
  then (<[S num := poles !!! i]> poles, S num)
  else (poles, num).

Definition dedup_poles (npole : nat) (poles : list Z) : list Z * nat :=
  loop 1 npole dedup_step (poles, 0).

Definition verify_MULTIPOLE (cfg : cfg_t) (conf : CONF) (ncf : nat)
    (ovwrite : Z) : M (nat * list Z * list string) :=
  let npole := cfg_get_size cfg conf MULTIPOLE in
  if negb (npole =? 0) then
    let '(poles, npole) :=
      if 1 <? npole then
        let '(poles, num) := dedup_poles npole (sort_poles npole (poles conf)) in
        (poles, num + 1)
      else (poles conf, npole) in
    let* _ := (if (poles !!! 0%nat <? 0)%Z
                  || (poles !!! (npole - 1)%nat >? FCFC_MAX_ELL)%Z
               then raise FCFC_ERR_CFG else ret tt) in
    let* mpout := verify_output_files cfg conf MULTIPOLE_FILE (mpout conf) ncf
               ovwrite in
    ret (npole, poles, mpout)
  else ret (npole, poles conf, mpout conf).

(** PROJECTED_CF *)
Definition verify_PROJECTED_CF (cfg : cfg_t) (conf : CONF) (ncf : nat)
    (ovwrite : Z) : M (bool * list string) :=
  let wp :=
    if negb (cfg_is_set cfg PROJECTED_CF) then DEFAULT_PROJECTED_CF
    else wp conf in
  if wp then
    let* wpout := verify_output_files cfg conf PROJECTED_FILE (wpout conf) ncf
               ovwrite in
    ret (wp, wpout)
  else ret (wp, wpout conf).

(** OUTPUT_FORMAT *)
Definition verify_OUTPUT_FORMAT (cfg : cfg_t) (conf : CONF) : M Z :=
  let ofmt :=
    if negb (cfg_is_set cfg OUTPUT_FORMAT) then DEFAULT_OUTPUT_FORMAT
    else ofmt conf in
  if (ofmt =? FCFC_OFMT_BIN)%Z || (ofmt =? FCFC_OFMT_ASCII)%Z
  then ret ofmt
  else raise FCFC_ERR_CFG.

(** VERBOSE *)
Definition verify_VERBOSE (cfg : cfg_t) (conf : CONF) : bool :=
  if negb (cfg_is_set cfg VERBOSE) then DEFAULT_VERBOSE else verbose conf.

(** CF_ESTIMATOR and the blocks nested in it.  The fields the block leaves
    alone keep the value they had. *)
Record cf_fields := {
  f_cfout : list string;
  f_npole : nat;
  f_poles : list Z;
  f_mpout : list string;
  f_wp : bool;
  f_wpout : list string
}.

Definition verify_CF_ESTIMATOR (cfg : cfg_t) (conf : CONF) (bintype : Z)
    (ovwrite : Z) : M (nat * cf_fields) :=
  let ncf := cfg_get_size cfg conf CF_ESTIMATOR in
  if negb (ncf =? 0) then
    let* _ := for_ 0 ncf (fun i _ =>
      if char_eq (char_at (cf conf !!! i) 0) NUL then raise FCFC_ERR_CFG
      else ret tt) tt in
    let* cfout := verify_output_files cfg conf CF_OUTPUT_FILE (cfout conf) ncf
               ovwrite in
    if (bintype =? FCFC_BIN_SMU)%Z then
      let* '(npole, poles, mpout) := verify_MULTIPOLE cfg conf ncf ovwrite in
      ret (ncf, {| f_cfout := cfout; f_npole := npole; f_poles := poles;
                   f_mpout := mpout; f_wp := wp conf;
                   f_wpout := wpout conf |})
    else if (bintype =? FCFC_BIN_SPI)%Z then
      let* '(wp, wpout) := verify_PROJECTED_CF cfg conf ncf ovwrite in
      ret (ncf, {| f_cfout := cfout; f_npole := npole conf;
                   f_poles := poles conf; f_mpout := mpout conf;
                   f_wp := wp; f_wpout := wpout |})
    else
      ret (ncf, {| f_cfout := cfout; f_npole := npole conf;
                   f_poles := poles conf; f_mpout := mpout conf;
                   f_wp := wp conf; f_wpout := wpout conf |})
  else
    ret (ncf, {| f_cfout := cfout conf; f_npole := npole conf;
                 f_poles := poles conf; f_mpout := mpout conf;
                 f_wp := wp conf; f_wpout := wpout conf |}).

(** *** [conf_verify] *)

Definition conf_verify (cfg : cfg_t) (conf : CONF) : M CONF :=
  let* '(ninput, label) := verify_CATALOG_LABEL cfg conf in
  let has_wt := verify_WEIGHT ninput in
  let* bsize := verify_BOX_SIZE cfg conf in
  let ovwrite := verify_OVERWRITE cfg conf in
  let* dstruct := verify_DATA_STRUCT cfg conf in
  let* bintype := verify_BINNING_SCHEME cfg conf in
  let* npc := verify_PAIR_COUNT cfg conf in
  let* '(comp_pc, pcout) :=
    verify_PAIR_COUNT_FILE cfg conf ninput label ovwrite npc in
  let* '(ncf, f) := verify_CF_ESTIMATOR cfg conf bintype ovwrite in
  let* ofmt := verify_OUTPUT_FORMAT cfg conf in
  let verbose := verify_VERBOSE cfg conf in
  ret {| fconf := fconf conf; label := label; ninput := ninput;
         has_wt := has_wt; bsize := bsize; ovwrite := ovwrite;
         dstruct := dstruct; bintype := bintype; pc := pc conf; npc := npc;
         comp_pc := comp_pc; pcout := pcout; cf := cf conf; ncf := ncf;
         cfout := f_cfout f; poles := f_poles f; npole := f_npole f;
         mpout := f_mpout f; wp := f_wp f; wpout := f_wpout f;
         ofmt := ofmt; verbose := verbose |}.

(** *** [load_conf]

    [conf_init] returns the zeroed structure.  [conf_read] is libcfg's
    parsing of the command line and of the configuration file: it fills the
    structure and returns the handle, or fails.  What [load_conf] does
    besides computing its result is recorded as a list of events. *)



Variable conf_read : CONF -> option (cfg_t * CONF).


End load_conf.

(** * The other functions of the file: [check_input] and [conf_print] *)

Section input_and_print.

Context {D : define_h}.

Variable access : string -> amode -> Z.

(** *** [check_input]

    As in [check_output], a NULL name is the empty string. *)
Definition check_input (fname : string) : option errcode :=
  if char_eq (char_at fname 0) NUL then Some FCFC_ERR_CFG
  else if negb (access fname R_OK =? 0)%Z then Some FCFC_ERR_FILE
  else None.

(** *** [conf_print]

    What is printed is recorded as the sequence of the values handed to
    [printf], each line starting with its key; the layout of the text and
    the formats of the numbers are not modelled.  An array element is read
    with [!!]: a read outside of the array has no defined result in C, and
    the model stops there with [None].  A NULL array is the empty list.  The
    build is the one without [WITH_PARA], [MPI] and [OMP]. *)

Inductive printed :=
  | p_key (k : string)
  | p_str (s : string)       (* %s *)
  | p_chr (c : ascii)        (* %c *)
  | p_int (z : Z)            (* %d *)
  | p_dbl (x : spec_float).  (* OFMT_DBL *)

(** [if (a)] for an array: the pointer is not NULL. *)
Definition is_null {A} (a : list A) : bool :=
  match a with
  | [] => true
  | _ :: _ => false
  end.

(** [for (int i = 1; i < n; i++) ... a[i] ...] *)
Definition read_from_1 {A} (a : list A) (n : nat) : option (list A) :=
  mapM (fun i => a !! i) (seq 1 (n - 1)).

(** [v < n ? names[v] : "unknown"], where [n] is the number of names. *)
Definition name_of (names : list string) (v : Z) : option string :=
  if (v <? Z.of_nat (length names))%Z
  then (if (v <? 0)%Z then None else names !! Z.to_nat v)
  else Some "unknown"%string.

Definition tname : list string := ["k-d tree"; "ball tree"]%string.
Definition bname : list string := ["s"; "s & mu"; "s_perp & pi"]%string.
Definition sname : list string := ["binary"; "ASCII"]%string.

(** A list of output files, one per estimator:
    [files[0]], then [files[i]] for [1 <= i < ncf]. *)
Definition print_files (key : string) (files : list string) (ncf : nat)
    : option (list printed) :=
  f0 ← files !! 0;
  fs ← read_from_1 files ncf;
  Some (p_key key :: p_str f0 :: (p_str <$> fs)).

(** The PAIR_COUNT_FILE lines: ['W'] or ['R'] and the file of each pair. *)
Definition mark (c : bool) : ascii := if c then "W"%char else "R"%char.

Definition print_pair_files (conf : CONF) : option (list printed) :=
  c0 ← comp_pc conf !! 0;
  f0 ← pcout conf !! 0;
  rest ← mapM (fun i =>
            c ← comp_pc conf !! i;
            f ← pcout conf !! i;
            Some [p_chr (mark c); p_str f]) (seq 1 (npc conf - 1));
  Some (p_key "PAIR_COUNT_FILE" :: p_chr (mark c0) :: p_str f0
        :: concat rest).

(** The body of [if (conf->ncf)]. *)
Definition print_estimators (conf : CONF) : option (list printed) :=
  c0 ← cf conf !! 0;
  cs ← read_from_1 (cf conf) (ncf conf);
  out_cf ← (if is_null (cfout conf) then Some []
            else print_files "CF_OUTPUT_FILE" (cfout conf) (ncf conf));
  out_mp ← (if (bintype conf =? FCFC_BIN_SMU)%Z && negb (npole conf =? 0)
            then
              m0 ← poles conf !! 0;
              ms ← read_from_1 (poles conf) (npole conf);
              out ← (if is_null (mpout conf) then Some []
                     else print_files "MULTIPOLE_FILE" (mpout conf)
                            (ncf conf));
              Some (p_key "MULTIPOLE" :: p_int m0 :: (p_int <$> ms) ++ out)
            else Some []);
  out_wp ← (if (bintype conf =? FCFC_BIN_SPI)%Z
            then
              out ← (if wp conf
                     then if is_null (wpout conf) then Some []
                          else print_files "PROJECTED_FILE" (wpout conf)
                                 (ncf conf)
                     else Some []);
              Some (p_key "PROJECTED_CF"
                    :: p_chr (if wp conf then "T" else "F")%char :: out)
            else Some []);
  Some (p_key "CF_ESTIMATOR" :: p_str c0 :: (p_str <$> cs)
        ++ out_cf ++ out_mp ++ out_wp).

Definition conf_print (conf : CONF) : option (list printed) :=
  l0 ← label conf !! 0;
  ls ← read_from_1 (label conf) (ninput conf);
  b0 ← bsize conf !! 0;
  b1 ← bsize conf !! 1;
  b2 ← bsize conf !! 2;
  tn ← name_of tname (dstruct conf);
  bn ← name_of bname (bintype conf);
  p0 ← pc conf !! 0;
  ps ← read_from_1 (pc conf) (npc conf);
  out_pc ← (if is_null (pcout conf) then Some []
            else print_pair_files conf);
  out_cf ← (if ncf conf =? 0 then Some [] else print_estimators conf);
  out_fmt ← (if negb (is_null (wpout conf)) || negb (is_null (cfout conf))
                || negb (is_null (pcout conf)) || negb (is_null (mpout conf))
             then
               sn ← name_of sname (ofmt conf);
               Some [p_key "OUTPUT_FORMAT"; p_int (ofmt conf); p_str sn;
                     p_key "OVERWRITE"; p_int (ovwrite conf)]
             else Some []);
  Some ([p_key "CONFIG_FILE"; p_str (fconf conf);
         p_key "CATALOG_LABEL"; p_chr l0] ++ (p_chr <$> ls)
        ++ [p_key "BOX_SIZE"; p_dbl b0; p_dbl b1; p_dbl b2;
            p_key "DATA_STRUCT"; p_int (dstruct conf); p_str tn;
            p_key "BINNING_SCHEME"; p_int (bintype conf); p_str bn;
            p_key "PAIR_COUNT"; p_str p0] ++ (p_str <$> ps)
        ++ out_pc ++ out_cf ++ out_fmt).

End input_and_print.

(** * [conf_verify] with its allocations

    [conf_verify] above takes every allocation to succeed.  Here the four
    allocations of the function are explicit: each of them can fail, and
    the function then returns [FCFC_ERR_MEMORY] at once.  What the function
    does when they succeed is the text above. *)

Inductive allocation :=
  | alloc_label     (* realloc (conf->label, ...), when no label is set *)
  | alloc_has_wt    (* malloc (conf->ninput * sizeof (bool)) *)
  | alloc_bsize     (* realloc (conf->bsize, ...), when one side is given *)
  | alloc_comp_pc.  (* malloc (conf->npc * sizeof (bool)) *)

Section allocations.

Context {D : define_h}.

Variable access : string -> amode -> Z.

(** Whether the allocation made at a place succeeds. *)
Variable allocated : allocation -> bool.

(** [if (!(p = malloc (...))) return FCFC_ERR_MEMORY;] *)
Definition ALLOC (a : allocation) : M unit :=
  if allocated a then ret tt else raise FCFC_ERR_MEMORY.

(** CATALOG_LABEL: without labels the array is reallocated first. *)
Definition verify_CATALOG_LABEL_mem (cfg : cfg_t) (conf : CONF)
    : M (nat * list ascii) :=
  let num := cfg_get_size cfg conf CATALOG_LABEL in
  let* _ := (if num =? 0 then ALLOC alloc_label else ret tt) in
  verify_CATALOG_LABEL cfg conf.

(** BOX_SIZE: after [CHECK_EXIST_ARRAY], an array of one element is
    reallocated. *)
Definition verify_BOX_SIZE_mem (cfg : cfg_t) (conf : CONF)
    : M (list spec_float) :=
  let num := cfg_get_size cfg conf BOX_SIZE in
  let* _ := CHECK_EXIST_ARRAY num in
  let* _ := (if num =? 1 then ALLOC alloc_bsize else ret tt) in
  verify_BOX_SIZE cfg conf.

Definition conf_verify_mem (cfg : cfg_t) (conf : CONF) : M CONF :=
  let* '(ninput, label) := verify_CATALOG_LABEL_mem cfg conf in
  let* _ := ALLOC alloc_has_wt in
  let has_wt := verify_WEIGHT ninput in
  let* bsize := verify_BOX_SIZE_mem cfg conf in
  let ovwrite := verify_OVERWRITE cfg conf in
  let* dstruct := verify_DATA_STRUCT cfg conf in
  let* bintype := verify_BINNING_SCHEME cfg conf in
  let* npc := verify_PAIR_COUNT cfg conf in
  let* _ := ALLOC alloc_comp_pc in
  let* '(comp_pc, pcout) :=
    verify_PAIR_COUNT_FILE access cfg conf ninput label ovwrite npc in
  let* '(ncf, f) := verify_CF_ESTIMATOR access cfg conf bintype ovwrite in
  let* ofmt := verify_OUTPUT_FORMAT cfg conf in
  let verbose := verify_VERBOSE cfg conf in
  ret {| fconf := fconf conf; label := label; ninput := ninput;
         has_wt := has_wt; bsize := bsize; ovwrite := ovwrite;
         dstruct := dstruct; bintype := bintype; pc := pc conf; npc := npc;
         comp_pc := comp_pc; pcout := pcout; cf := cf conf; ncf := ncf;
         cfout := f_cfout f; poles := f_poles f; npole := f_npole f;
         mpout := f_mpout f; wp := f_wp f; wpout := f_wpout f;
         ofmt := ofmt; verbose := verbose |}.

End allocations.

(** * The separation bins

    [conf_verify] has no block for the bins (its SEP_BIN_FILE block is
    empty): the edges are handed to [compute_cf]. *)











(** * The vocabulary of the properties

    The predicates in which the properties of the configuration are stated,
    and the boolean tests the loops of [conf_verify] amount to. *)

(** A test that raises [FCFC_ERR_CFG] and touches nothing else. *)
Definition guard (b : bool) : M unit :=
  if b then raise FCFC_ERR_CFG else ret tt.

(** A computation is [quiet] when it leaves the standard input alone and
    fails with no other code than [FCFC_ERR_CFG]. *)
Definition quiet {A} (m : M A) : Prop :=
  forall s, match m s with
            | inl e => e = FCFC_ERR_CFG
            | inr (_, s') => s' = s
            end.

(** The two nested loops that look for a duplicate:
    [for (i = 0; i < n - 1; i++) for (j = i + 1; j < n; j++)]. *)
Definition dup_scan {A} `{!Inhabited A} (eqb : A -> A -> bool) (l : list A)
    : bool :=
  existsb (fun i =>
    existsb (fun j => eqb (l !!! i) (l !!! j))
      (seq (i + 1) (length l - (i + 1))))
    (seq 0 (length l - 1)).

(** ['A' <= c <= 'Z'] *)
Definition upper (c : ascii) : Prop := (65 <= char_code c <= 90)%N.

(** What the two loops of the CATALOG_LABEL block look for: a label
    outside 'A'..'Z', or a repeated label. *)
Definition labels_bad (l : list ascii) : bool :=
  existsb (fun i => not_upper (l !!! i)) (seq 0 (length l))
  || dup_scan char_eq l.

(** The labels in force: those of CATALOG_LABEL when it is set. *)
Definition configured_labels (cfg : cfg_t) (conf : CONF) : list ascii :=
  if cfg_is_set cfg CATALOG_LABEL then label conf else [].

(** What the loop of the BOX_SIZE block looks for: one of the three side
    lengths is not finite, or is not positive. *)
Definition box_bad (bs : list spec_float) : bool :=
  existsb (fun i => negb (isfinite (bs !!! i)) || le_zero (bs !!! i))
    (seq 0 3).

(** A side length passes the test when it is a positive finite double. *)
Definition positive_finite (x : spec_float) : Prop :=
  exists m e, x = S754_finite false m e.

(** The comparison of two pair identifiers in the duplicate scan. *)
Definition pair_eqb (a b : string) : bool :=
  char_eq (char_at a 0) (char_at b 0) && char_eq (char_at a 1) (char_at b 1).

(** What the two loops of the PAIR_COUNT block look for: an identifier of
    the wrong shape, or two identifiers with the same letters. *)
Definition pairs_bad (l : list string) : bool :=
  existsb (fun i => bad_pair (l !!! i)) (seq 0 (length l))
  || dup_scan pair_eqb l.

(** The number of occurrences of a character among the labels. *)
Fixpoint occ (x : ascii) (l : list ascii) : nat :=
  match l with
  | [] => 0
  | c :: l' => (if char_eq x c then 1 else 0) + occ x l'
  end.

(** The state of [comp_pc] after the rounds [0 .. j-1]. *)
Definition marked (cfg : cfg_t) (conf : CONF) (n : nat) (lab : list ascii)
    (len : nat) (j : nat) (comp : list bool) : Prop :=
  length comp = len /\
  forall k, k < j ->
    (comp !! k = Some true /\ label_found n lab (pc conf !!! k) = 2)
    \/ (comp !! k = Some false /\ cfg_is_set cfg PAIR_COUNT_FILE = true).

(** Sorting and removing the duplicates of a nonempty request, as done in
    the MULTIPOLE block: the first [npole] cells hold the distinct orders
    in increasing order. *)
Definition prepare_poles (l : list Z) : list Z * nat :=
  if (1 <? length l)%nat then
    let '(ps, num) := dedup_poles (length l) (sort_poles (length l) l) in
    (ps, (num + 1)%nat)
  else (l, length l).

(** A multipole order within the bounds. *)
Definition in_range {D : define_h} (x : Z) : Prop := (0 <= x <= FCFC_MAX_ELL)%Z.

(** The length of a C string: the number of characters before the first
    NUL. *)
Fixpoint cstrlen (s : string) : nat :=
  match s with
  | EmptyString => 0
  | String c s' => if char_eq c NUL then 0 else S (cstrlen s')
  end.

(** A pair identifier: exactly two characters, both in 'A'..'Z'. *)
Definition pair_shape (s : string) : Prop :=
  cstrlen s = 2 /\ upper (char_at s 0) /\ upper (char_at s 1).

(** The two letters of a pair identifier. *)
Definition letters (s : string) : ascii * ascii := (char_at s 0, char_at s 1).

(** Both letters of a pair identifier are labels. *)
Definition labels_exist (lab : list ascii) (p : string) : Prop :=
  char_at p 0 ∈ lab /\ char_at p 1 ∈ lab.

(** The file name has a directory part, which cannot be entered. *)
Definition dir_blocked {D : define_h} (access : string -> amode -> Z)
    (fname : string) : Prop :=
  exists k, strrchr fname FCFC_PATH_SEP = Some k
            /\ access (substring 0 k fname) X_OK <> 0%Z.

(** The same configuration with other catalog labels. *)
Definition with_label (lab : list ascii) (conf : CONF) : CONF :=
  {| fconf := fconf conf; label := lab; ninput := ninput conf;
     has_wt := has_wt conf; bsize := bsize conf; ovwrite := ovwrite conf;
     dstruct := dstruct conf; bintype := bintype conf; pc := pc conf;
     npc := npc conf; comp_pc := comp_pc conf; pcout := pcout conf;
     cf := cf conf; ncf := ncf conf; cfout := cfout conf;
     poles := poles conf; npole := npole conf; mpout := mpout conf;
     wp := wp conf; wpout := wpout conf; ofmt := ofmt conf;
     verbose := verbose conf |}.

(** The same configuration with other multipole orders. *)
Definition with_poles (l : list Z) (conf : CONF) : CONF :=
  {| fconf := fconf conf; label := label conf; ninput := ninput conf;
     has_wt := has_wt conf; bsize := bsize conf; ovwrite := ovwrite conf;
     dstruct := dstruct conf; bintype := bintype conf; pc := pc conf;
     npc := npc conf; comp_pc := comp_pc conf; pcout := pcout conf;
     cf := cf conf; ncf := ncf conf; cfout := cfout conf;
     poles := l; npole := npole conf; mpout := mpout conf;
     wp := wp conf; wpout := wpout conf; ofmt := ofmt conf;
     verbose := verbose conf |}.

(** A computation that does not look at the standard input: its outcome is
    the same whatever the input holds, and the input is handed back as it
    was. *)
Definition stdin_free {A} (m : M A) : Prop :=
  exists r : errcode + A,
    forall s, m s = match r with
                    | inl e => inl e
                    | inr a => inr (a, s)
                    end.

(** A computation that fails with no other code than [FCFC_ERR_CFG] and
    [FCFC_ERR_FILE]. *)
Definition cfg_or_file {A} (m : M A) : Prop :=
  forall s e, m s = inl e -> e = FCFC_ERR_CFG \/ e = FCFC_ERR_FILE.

(** A computation that fails with no other code than those of [P]. *)
Definition codes_in (P : errcode -> Prop) {A} (m : M A) : Prop :=
  forall s e, m s = inl e -> P e.

(** The code of a failed allocation. *)
Definition out_of_memory (allocated : allocation -> bool) (e : errcode)
    : Prop :=
  e = FCFC_ERR_MEMORY /\ exists a, allocated a = false.

(** None of the four lists of output files is configured. *)
Definition no_output_files (cfg : cfg_t) : Prop :=
  cfg_is_set cfg PAIR_COUNT_FILE = false
  /\ cfg_is_set cfg CF_OUTPUT_FILE = false
  /\ cfg_is_set cfg MULTIPOLE_FILE = false
  /\ cfg_is_set cfg PROJECTED_FILE = false.

(** A list of output files is absent, or has a file for each of [n]
    results. *)
Definition files_for (n : nat) (files : list string) : Prop :=
  files = [] \/ (1 <= n <= length files).

(** The counters of a configuration agree with its arrays: every index
    below a counter is an index of the arrays read with it. *)
Definition counters_in_bounds {D : define_h} (c : CONF) : Prop :=
  ninput c = length (label c)
  /\ length (has_wt c) = ninput c
  /\ 3 <= length (bsize c)
  /\ npc c = length (pc c) /\ 1 <= npc c
  /\ length (comp_pc c) = npc c
  /\ files_for (npc c) (pcout c)
  /\ (ncf c <> 0 ->
      ncf c = length (cf c)
      /\ files_for (ncf c) (cfout c)
      /\ (bintype c = FCFC_BIN_SMU -> npole c <> 0 ->
          npole c <= length (poles c) /\ files_for (ncf c) (mpout c))
      /\ (bintype c = FCFC_BIN_SPI -> bintype c <> FCFC_BIN_SMU ->
          wp c = true -> files_for (ncf c) (wpout c))).

(** The values of the data structures, binning schemes and output formats
    index the tables of names of [conf_print], and the (s, mu) and
    (s_perp, pi) schemes are different schemes. *)
Definition table_indices {D : define_h} : Prop :=
  (0 <= FCFC_STRUCT_KDTREE)%Z /\ (0 <= FCFC_STRUCT_BALLTREE)%Z
  /\ (0 <= FCFC_BIN_ISO)%Z /\ (0 <= FCFC_BIN_SMU)%Z /\ (0 <= FCFC_BIN_SPI)%Z
  /\ (0 <= FCFC_OFMT_BIN)%Z /\ (0 <= FCFC_OFMT_ASCII)%Z
  /\ FCFC_BIN_SMU <> FCFC_BIN_SPI.

(** What [check_output] decides for an existing file once the level is
    known: abort, overwrite, or read. *)
Definition decide_existing {D : define_h} (access : string -> amode -> Z)
    (fname : string) (level force : Z) : option errcode :=
  if (level <=? FCFC_OVERWRITE_NONE)%Z then Some FCFC_ERR_FILE
  else if (level >=? force)%Z then
    if (access fname W_OK =? 0)%Z then None else Some FCFC_ERR_FILE
  else
    if (access fname R_OK =? 0)%Z then Some FCFC_ERR_SAVE
    else Some FCFC_ERR_FILE.

(** The uppercase letters. *)
Definition alphabet : list ascii := ascii_of_nat <$> seq 65 26.

(** * A concrete choice of the constants

    The numbering of the data structures, binning schemes and output formats
    is the one [conf_print] relies on when it indexes its tables of names;
    the overwrite levels follow the order documented in the template. *)

#[local] Instance fcfc_define : define_h := {|
  FCFC_MAX_ELL := 6;
  FCFC_OVERWRITE_NONE := 0;
  FCFC_OVERWRITE_CFONLY := 1;
  FCFC_OVERWRITE_ALL := 2;
  DEFAULT_OVERWRITE := 0;
  FCFC_STRUCT_KDTREE := 0;
  FCFC_STRUCT_BALLTREE := 1;
  DEFAULT_STRUCT := 0;
  FCFC_BIN_ISO := 0;
  FCFC_BIN_SMU := 1;
  FCFC_BIN_SPI := 2;
  DEFAULT_BINNING := 0;
  FCFC_OFMT_BIN := 0;
  FCFC_OFMT_ASCII := 1;
  DEFAULT_OUTPUT_FORMAT := 0;
  DEFAULT_PROJECTED_CF := false;
  DEFAULT_VERBOSE := true;
  FCFC_PATH_SEP := "/"%char
|}.

(** A file system in which nothing exists and every directory can be
    entered, and one in which every file exists with all permissions. *)
Definition fs_empty (f : string) (m : amode) : Z :=
  match m with
  | X_OK => 0
  | _ => -1
  end.

Definition fs_full (f : string) (m : amode) : Z := 0.

(** The double [1000.0 = 125 * 2^3]. *)
Definition box1000 : spec_float := S754_finite false 125 3.

(** A configuration as [conf_read] leaves it: the labels, the box, the
    overwrite level, the pairs with their files, one estimator and the
    multipoles come from the user, the other fields are zero. *)
Definition parsed (lab : list ascii) (box : list spec_float) (ov : Z)
    (pairs files : list string) (orders : list Z) : CONF :=
  {| fconf := "fcfc.conf"; label := lab; ninput := 0; has_wt := [];
     bsize := box; ovwrite := ov; dstruct := 0; bintype := 1; pc := pairs;
     npc := 0; comp_pc := []; pcout := files;
     cf := ["(DD-2*DR+RR)/RR"]%string; ncf := 0; cfout := [];
     poles := orders; npole := 0; mpout := []; wp := false; wpout := [];
     ofmt := 0; verbose := false |}.

(** A run on two catalogs D and R with the pairs DD, DR and RR. *)
Definition conf_DR : CONF :=
  parsed ["D"; "R"]%char [box1000] 0 ["DD"; "DR"; "RR"]%string []
    [2; 0; 4; 2]%Z.

Definition cfg_DR : cfg_t := fun p =>
  match p with
  | CATALOG_LABEL | BOX_SIZE | BINNING_SCHEME | PAIR_COUNT | CF_ESTIMATOR
  | MULTIPOLE => true
  | _ => false
  end.

(** What [conf_verify] makes of it when no file exists: the box is
    expanded, the orders are sorted without duplicates in the first three
    cells, every pair is to be counted. *)
Definition verified_DR : CONF :=
  {| fconf := "fcfc.conf"; label := ["D"; "R"]%char; ninput := 2;
     has_wt := [true; true]; bsize := [box1000; box1000; box1000];
     ovwrite := 0; dstruct := 0; bintype := 1;
     pc := ["DD"; "DR"; "RR"]%string; npc := 3;
     comp_pc := [true; true; true]; pcout := [];
     cf := ["(DD-2*DR+RR)/RR"]%string; ncf := 1; cfout := [];
     poles := [0; 2; 4; 4]%Z; npole := 3; mpout := []; wp := false;
     wpout := []; ofmt := 0; verbose := true |}.

(** The same parameters without BOX_SIZE, and without CATALOG_LABEL. *)
Definition cfg_nobox : cfg_t := fun p =>
  match p with
  | BOX_SIZE => false
  | _ => cfg_DR p
  end.

Definition cfg_nolabel : cfg_t := fun p =>
  match p with
  | CATALOG_LABEL => false
  | _ => cfg_DR p
  end.

(** A run that names its pair count files, at the overwrite level that
    keeps existing pair counts. *)
Definition conf_files : CONF :=
  parsed ["D"; "R"]%char [box1000] 1 ["DD"; "DR"; "RR"]%string
    ["DD.dat"; "DR.dat"; "RR.dat"]%string [0; 2]%Z.

Definition cfg_files : cfg_t := fun p =>
  match p with
  | PAIR_COUNT_FILE | OVERWRITE => true
  | _ => cfg_DR p
  end.

(** The same run when CATALOG_LABEL is not set. *)
Definition cfg_files_nolabel : cfg_t := fun p =>
  match p with
  | CATALOG_LABEL => false
  | _ => cfg_files p
  end.

(** A file system in which every file exists and can be read, not
    written. *)
Definition fs_readonly (f : string) (m : amode) : Z :=
  match m with
  | W_OK => -1
  | _ => 0
  end.

(** A file system in which nothing exists and no directory can be
    entered. *)
Definition fs_closed (f : string) (m : amode) : Z := -1.

(** The run on D and R without BINNING_SCHEME: the default scheme is the
    isotropic one, and the multipoles are left as they were read. *)
Definition cfg_iso : cfg_t := fun p =>
  match p with
  | BINNING_SCHEME => false
  | _ => cfg_DR p
  end.

Definition verified_iso : CONF :=
  {| fconf := "fcfc.conf"; label := ["D"; "R"]%char; ninput := 2;
     has_wt := [true; true]; bsize := [box1000; box1000; box1000];
     ovwrite := 0; dstruct := 0; bintype := 0;
     pc := ["DD"; "DR"; "RR"]%string; npc := 3;
     comp_pc := [true; true; true]; pcout := [];
     cf := ["(DD-2*DR+RR)/RR"]%string; ncf := 1; cfout := [];
     poles := [2; 0; 4; 2]%Z; npole := 0; mpout := []; wp := false;
     wpout := []; ofmt := 0; verbose := true |}.

(** A run with three pairs and a single pair count file. *)
Definition conf_short : CONF :=
  parsed ["D"; "R"]%char [box1000] 1 ["DD"; "DR"; "RR"]%string
    ["DD.dat"]%string [0; 2]%Z.

(** * Reasoning about the monad and the loops *)

Section monad_facts.

Context {A B : Type}.

Lemma bind_inr (m : M A) (k : A -> M B) s r :
  bind m k s = inr r <-> exists a s1, m s = inr (a, s1) /\ k a s1 = inr r.
Proof.
  unfold bind. destruct (m s) as [e | [a s1]]; split.
  - discriminate.
  - intros (a & s1 & Hm & _). discriminate.
  - intros Hk. exists a, s1. auto.
  - intros (a' & s1' & Hm & Hk). congruence.
Qed.

Lemma bind_inl (m : M A) (k : A -> M B) s e :
  bind m k s = inl e <->
  m s = inl e \/ exists a s1, m s = inr (a, s1) /\ k a s1 = inl e.
Proof.
  unfold bind. destruct (m s) as [e' | [a s1]]; split.
  - intros [= ->]. now left.
  - intros [Hm | (a & s1 & Hm & _)]; congruence.
  - intros Hk. right. exists a, s1. auto.
  - intros [Hm | (a' & s1' & Hm & Hk)]; congruence.
Qed.

End monad_facts.

Lemma guard_inr b s r : guard b s = inr r <-> b = false /\ r = (tt, s).
Proof. destruct b; cbn; split; [easy | easy | intros [= <-]; auto | intros [_ ->]; auto]. Qed.

Lemma guard_inl b s e : guard b s = inl e <-> b = true /\ e = FCFC_ERR_CFG.
Proof. destruct b; cbn; split; [intros [= <-]; auto | intros [_ ->]; auto | easy | easy]. Qed.

Lemma quiet_ret {A} (a : A) : quiet (ret a).
Proof. intros s. reflexivity. Qed.

Lemma quiet_raise {A} : quiet (@raise A FCFC_ERR_CFG).
Proof. intros s. reflexivity. Qed.

Lemma quiet_guard b : quiet (guard b).
Proof. intros s. destruct b; reflexivity. Qed.

Lemma quiet_bind {A B} (m : M A) (k : A -> M B) :
  quiet m -> (forall a, quiet (k a)) -> quiet (bind m k).
Proof.
  intros Hm Hk s. unfold bind. specialize (Hm s).
  destruct (m s) as [e | [a s1]]; [exact Hm |]. subst s1. apply Hk.
Qed.

Lemma quiet_for_iter {A} (body : nat -> A -> M A) n i a :
  (forall j a, quiet (body j a)) -> quiet (for_iter n i body a).
Proof.
  intros Hbody. revert i a. induction n as [| n IH]; intros i a; cbn.
  - apply quiet_ret.
  - apply quiet_bind; auto.
Qed.

Lemma quiet_for {A} (body : nat -> A -> M A) lo hi a :
  (forall j a, quiet (body j a)) -> quiet (for_ lo hi body a).
Proof. apply quiet_for_iter. Qed.

Lemma quiet_inl {A} (m : M A) s e : quiet m -> m s = inl e -> e = FCFC_ERR_CFG.
Proof. intros Hm H. specialize (Hm s). now rewrite H in Hm. Qed.

Lemma quiet_inr {A} (m : M A) s a s' : quiet m -> m s = inr (a, s') -> s' = s.
Proof. intros Hm H. specialize (Hm s). now rewrite H in Hm. Qed.

(** After a quiet computation, a continuation that always fails with
    [FCFC_ERR_CFG] makes the whole fail with it. *)
Lemma quiet_then_fail {A B} (m : M A) (k : A -> M B) s :
  quiet m ->
  (forall a, m s = inr (a, s) -> k a s = inl FCFC_ERR_CFG) ->
  bind m k s = inl FCFC_ERR_CFG.
Proof.
  intros Hm Hk. unfold bind. specialize (Hm s).
  destruct (m s) as [e | [a s1]]; [now subst e |]. subst s1. now apply Hk.
Qed.

Ltac quiet :=
  repeat first
    [ progress intros
    | apply quiet_ret | apply quiet_raise | apply quiet_guard
    | apply quiet_bind | apply quiet_for
    | match goal with
      | |- quiet (if ?b then _ else _) => destruct b
      | |- quiet (match ?x with _ => _ end) => destruct x
      end ].

(** An invariant of a loop that succeeds. *)
Lemma for_iter_inv {A} (I : nat -> A -> Prop) (body : nat -> A -> M A)
    n i a s a' s' :
  I i a ->
  (forall j b t b' t', i <= j < i + n -> I j b ->
     body j b t = inr (b', t') -> I (S j) b') ->
  for_iter n i body a s = inr (a', s') -> I (i + n) a'.
Proof.
  revert i a s. induction n as [| n IH]; intros i a s Hi Hstep; cbn.
  - intros [= <- <-]. now rewrite Nat.add_0_r.
  - intros (b & t & Hb & Hrest)%bind_inr.
    replace (i + S n) with (S i + n) by lia.
    eapply IH; [| | exact Hrest].
    + eapply Hstep; [| exact Hi | exact Hb]. lia.
    + intros j c u c' u' Hj. apply Hstep. lia.
Qed.

(** A loop of tests is the test of their disjunction. *)
Lemma for_iter_guard (b : nat -> bool) (body : nat -> unit -> M unit) n i u s :
  (forall j a s, body j a s = guard (b j) s) ->
  for_iter n i body u s = guard (existsb b (seq i n)) s.
Proof.
  intros Hbody. revert i u. induction n as [| n IH]; intros i [].
  - reflexivity.
  - cbn [for_iter seq existsb]. unfold bind. rewrite Hbody.
    destruct (b i); cbn; [reflexivity |]. apply IH.
Qed.

Lemma for_guard (b : nat -> bool) (body : nat -> unit -> M unit) lo hi u s :
  (forall j a s, body j a s = guard (b j) s) ->
  for_ lo hi body u s = guard (existsb b (seq lo (hi - lo))) s.
Proof. apply for_iter_guard. Qed.

Lemma existsb_seq_false (b : nat -> bool) lo n :
  existsb b (seq lo n) = false <-> forall j, lo <= j < lo + n -> b j = false.
Proof.
  rewrite <- not_true_iff_false, existsb_exists. split.
  - intros Hno j Hj. apply not_true_iff_false. intros Hb. apply Hno.
    exists j. split; [apply in_seq; lia | exact Hb].
  - intros Hall (j & Hj%in_seq & Hb). rewrite Hall in Hb; [discriminate | lia].
Qed.

Lemma existsb_seq_true (b : nat -> bool) lo n :
  existsb b (seq lo n) = true <-> exists j, lo <= j < lo + n /\ b j = true.
Proof.
  rewrite existsb_exists. split.
  - intros (j & Hj%in_seq & Hb). exists j. split; [lia | exact Hb].
  - intros (j & Hj & Hb). exists j. split; [apply in_seq; lia | exact Hb].
Qed.

(** ** Index loops over an array and the list they scan *)

Section index_loops.

Context {A : Type} `{!Inhabited A}.

Lemma existsb_lookup_false (f : A -> bool) (l : list A) :
  existsb (fun i => f (l !!! i)) (seq 0 (length l)) = false <->
  Forall (fun x => f x = false) l.
Proof.
  rewrite existsb_seq_false, Forall_lookup. split.
  - intros Hall i x Hi. specialize (Hall i).
    rewrite (list_lookup_total_correct _ _ _ Hi) in Hall.
    apply Hall. apply lookup_lt_Some in Hi. lia.
  - intros Hall j Hj. destruct (lookup_lt_is_Some_2 l j) as [x Hx]; [lia |].
    rewrite (list_lookup_total_correct _ _ _ Hx). eauto.
Qed.

Lemma existsb_lookup_true (f : A -> bool) (l : list A) :
  existsb (fun i => f (l !!! i)) (seq 0 (length l)) = true <->
  Exists (fun x => f x = true) l.
Proof.
  rewrite existsb_seq_true, Exists_exists. split.
  - intros (j & Hj & Hf). exists (l !!! j). split; [| exact Hf].
    apply list_elem_of_lookup_total_2. lia.
  - intros (x & (j & Hj & Hx)%list_elem_of_lookup_total & Hf).
    exists j. subst x. split; [lia | exact Hf].
Qed.

Lemma dup_scan_false (eqb : A -> A -> bool) (l : list A) :
  dup_scan eqb l = false <->
  forall i j, i < j < length l -> eqb (l !!! i) (l !!! j) = false.
Proof.
  unfold dup_scan. rewrite existsb_seq_false. split.
  - intros Hall i j Hij. specialize (Hall i).
    rewrite existsb_seq_false in Hall. apply Hall; lia.
  - intros Hall i Hi. apply existsb_seq_false. intros j Hj. apply Hall. lia.
Qed.

Lemma dup_scan_true (eqb : A -> A -> bool) (l : list A) :
  dup_scan eqb l = true <->
  exists i j, i < j < length l /\ eqb (l !!! i) (l !!! j) = true.
Proof.
  unfold dup_scan. rewrite existsb_seq_true. split.
  - intros (i & Hi & (j & Hj & Hb)%existsb_seq_true). exists i, j.
    split; [lia | exact Hb].
  - intros (i & j & Hij & Hb). exists i. split; [lia |].
    apply existsb_seq_true. exists j. split; [lia | exact Hb].
Qed.

(** When [eqb] compares a key of the elements, the scan finds nothing
    exactly when the keys are pairwise distinct. *)
Lemma dup_scan_NoDup {K} (key : A -> K) (eqb : A -> A -> bool)
    (l : list A) :
  (forall x y, eqb x y = true <-> key x = key y) ->
  dup_scan eqb l = false <-> NoDup (key <$> l).
Proof.
  intros Heqb. rewrite dup_scan_false, NoDup_alt. split.
  - intros Hall i j k Hi Hj.
    apply list_lookup_fmap_Some in Hi as (x & -> & Hx).
    apply list_lookup_fmap_Some in Hj as (y & Hk & Hy).
    pose proof (lookup_lt_Some _ _ _ Hx) as Hli.
    pose proof (lookup_lt_Some _ _ _ Hy) as Hlj.
    destruct (Nat.lt_trichotomy i j) as [Hlt | [-> | Hgt]]; [| reflexivity |].
    + specialize (Hall i j ltac:(lia)).
      rewrite (list_lookup_total_correct _ _ _ Hx),
        (list_lookup_total_correct _ _ _ Hy) in Hall.
      apply not_true_iff_false in Hall. exfalso. apply Hall, Heqb. congruence.
    + specialize (Hall j i ltac:(lia)).
      rewrite (list_lookup_total_correct _ _ _ Hx),
        (list_lookup_total_correct _ _ _ Hy) in Hall.
      apply not_true_iff_false in Hall. exfalso. apply Hall, Heqb. congruence.
  - intros Hinj i j Hij. apply not_true_iff_false. intros Hb%Heqb.
    destruct (lookup_lt_is_Some_2 l i) as [x Hx]; [lia |].
    destruct (lookup_lt_is_Some_2 l j) as [y Hy]; [lia |].
    rewrite (list_lookup_total_correct _ _ _ Hx),
      (list_lookup_total_correct _ _ _ Hy) in Hb.
    assert (i = j); [| lia].
    apply (Hinj i j (key x)).
    + apply list_lookup_fmap_Some. eauto.
    + apply list_lookup_fmap_Some. eauto.
Qed.

End index_loops.

Lemma char_eq_true a b : char_eq a b = true <-> a = b.
Proof. apply Ascii.eqb_eq. Qed.

Lemma char_eq_refl a : char_eq a a = true.
Proof. now apply char_eq_true. Qed.

Lemma not_upper_false c : not_upper c = false <-> upper c.
Proof.
  unfold not_upper, upper, char_lt. change (char_code "A") with 65%N.
  change (char_code "Z") with 90%N.
  rewrite orb_false_iff, !N.ltb_ge. tauto.
Qed.

Lemma not_upper_true c : not_upper c = true <-> ~ upper c.
Proof. rewrite <- not_upper_false. destruct (not_upper c); split; congruence. Qed.

(** * The blocks of [conf_verify] *)

Section blocks.

Context {D : define_h}.
Variable access : string -> amode -> Z.

Implicit Types (cfg : cfg_t) (conf : CONF) (s : stdin).

(** ** CATALOG_LABEL *)

Lemma labels_bad_false l :
  labels_bad l = false <-> Forall upper l /\ NoDup l.
Proof.
  unfold labels_bad. rewrite orb_false_iff, existsb_lookup_false.
  rewrite (dup_scan_NoDup id char_eq l) by (intros; apply char_eq_true).
  rewrite list_fmap_id. apply and_iff_compat_r.
  apply Forall_iff. intros c. apply not_upper_false.
Qed.

Lemma cfg_get_size_nonzero cfg conf p :
  cfg_get_size cfg conf p <> 0 ->
  cfg p = true /\ cfg_get_size cfg conf p = param_size conf p.
Proof. unfold cfg_get_size. destruct (cfg p); [auto | congruence]. Qed.

Lemma verify_CATALOG_LABEL_eq cfg conf s :
  verify_CATALOG_LABEL cfg conf s =
    if cfg_get_size cfg conf CATALOG_LABEL =? 0 then inr ((0, []), s)
    else if labels_bad (label conf) then inl FCFC_ERR_CFG
    else inr ((length (label conf), label conf), s).
Proof.
  unfold verify_CATALOG_LABEL.
  destruct (Nat.eqb_spec (cfg_get_size cfg conf CATALOG_LABEL) 0) as [-> | Hn].
  - now rewrite resize_0.
  - apply cfg_get_size_nonzero in Hn as [_ ->]. cbn [param_size].
    unfold CHECK_ARRAY_LENGTH. rewrite Nat.ltb_irrefl. unfold bind at 1.
    cbn [ret]. unfold bind at 1.
    rewrite (for_guard (fun i => not_upper (label conf !!! i)))
      by reflexivity.
    unfold labels_bad, dup_scan. rewrite !Nat.sub_0_r.
    destruct (existsb _ (seq 0 _)); [reflexivity |]. cbn [guard ret orb].
    unfold bind at 1.
    rewrite (for_guard (fun i =>
      existsb (fun j => char_eq (label conf !!! i) (label conf !!! j))
        (seq (i + 1) (length (label conf) - (i + 1)))))
      by (intros; now apply for_guard).
    rewrite Nat.sub_0_r. destruct (existsb _ _); reflexivity.
Qed.

Lemma quiet_CATALOG_LABEL cfg conf : quiet (verify_CATALOG_LABEL cfg conf).
Proof.
  intros s. rewrite verify_CATALOG_LABEL_eq.
  destruct (_ =? 0); [reflexivity |]. destruct (labels_bad _); reflexivity.
Qed.

Lemma verify_CATALOG_LABEL_inr cfg conf s n lab s' :
  verify_CATALOG_LABEL cfg conf s = inr ((n, lab), s') ->
  lab = configured_labels cfg conf /\ n = length lab
  /\ NoDup lab /\ Forall upper lab.
Proof.
  rewrite verify_CATALOG_LABEL_eq. unfold configured_labels, cfg_get_size.
  unfold cfg_is_set. destruct (cfg CATALOG_LABEL); cbn [param_size].
  - destruct (Nat.eqb_spec (length (label conf)) 0) as [H0 | H0].
    + intros [= <- <- _]. apply nil_length_inv in H0. rewrite H0.
      repeat split; constructor.
    + destruct (labels_bad (label conf)) eqn:Eb; [discriminate |].
      intros [= <- <- _]. apply labels_bad_false in Eb as [Hup Hnd]. auto.
  - cbn. intros [= <- <- _]. repeat split; constructor.
Qed.

(** ** BOX_SIZE *)

Lemma side_test x :
  negb (isfinite x) || le_zero x = false <-> positive_finite x.
Proof.
  unfold positive_finite. destruct x as [sg | sg | | sg m e]; cbn.
  - split; [discriminate | intros (? & ? & [=])].
  - split; [discriminate | intros (? & ? & [=])].
  - split; [discriminate | intros (? & ? & [=])].
  - destruct sg; cbn; split; eauto; try discriminate. intros (? & ? & [=]).
Qed.

Lemma box_bad_false bs :
  box_bad bs = false <-> forall i, i < 3 -> positive_finite (bs !!! i).
Proof.
  unfold box_bad. rewrite existsb_seq_false. split.
  - intros H i Hi. apply side_test, H. lia.
  - intros H i Hi. apply side_test, H. lia.
Qed.

Lemma verify_BOX_SIZE_eq cfg conf s :
  verify_BOX_SIZE cfg conf s =
    let num := cfg_get_size cfg conf BOX_SIZE in
    if num =? 0 then inl FCFC_ERR_CFG
    else if num =? 1 then
      let b0 := bsize conf !!! 0 in
      if box_bad [b0; b0; b0] then inl FCFC_ERR_CFG
      else inr ([b0; b0; b0], s)
    else if num <? 3 then inl FCFC_ERR_CFG
    else if box_bad (bsize conf) then inl FCFC_ERR_CFG
    else inr (bsize conf, s).
Proof.
  unfold verify_BOX_SIZE, CHECK_EXIST_ARRAY. cbn zeta.
  destruct (Nat.eqb_spec (cfg_get_size cfg conf BOX_SIZE) 0) as [| Hn];
    [reflexivity |].
  unfold bind at 1. cbn [ret].
  destruct (Nat.eqb_spec (cfg_get_size cfg conf BOX_SIZE) 1) as [H1 | H1].
  - apply cfg_get_size_nonzero in Hn as [_ Hsz]. rewrite Hsz in H1.
    cbn in H1. destruct (bsize conf) as [| v [| w l]]; try discriminate.
    unfold bind at 1. cbn [ret resize]. cbn -[for_ box_bad].
    unfold bind at 1.
    rewrite (for_guard (fun i =>
      negb (isfinite ([v; v; v] !!! i)) || le_zero ([v; v; v] !!! i)))
      by reflexivity.
    change (3 - 0) with 3. fold (box_bad [v; v; v]). destruct (box_bad _); reflexivity.
  - unfold bind at 1. unfold CHECK_ARRAY_LENGTH.
    destruct (_ <? 3); [reflexivity |]. unfold bind at 1. cbn [ret].
    unfold bind at 1.
    rewrite (for_guard (fun i =>
      negb (isfinite (bsize conf !!! i)) || le_zero (bsize conf !!! i)))
      by reflexivity.
    change (3 - 0) with 3. fold (box_bad (bsize conf)). destruct (box_bad _); reflexivity.
Qed.

Lemma quiet_BOX_SIZE cfg conf : quiet (verify_BOX_SIZE cfg conf).
Proof.
  intros s. rewrite verify_BOX_SIZE_eq. cbn zeta.
  repeat match goal with |- context [if ?b then _ else _] => destruct b end;
    reflexivity.
Qed.

(** ** DATA_STRUCT, BINNING_SCHEME, OUTPUT_FORMAT *)

Lemma quiet_DATA_STRUCT cfg conf : quiet (verify_DATA_STRUCT cfg conf).
Proof. unfold verify_DATA_STRUCT. quiet. Qed.

Lemma quiet_BINNING_SCHEME cfg conf : quiet (verify_BINNING_SCHEME cfg conf).
Proof. unfold verify_BINNING_SCHEME. quiet. Qed.

Lemma quiet_OUTPUT_FORMAT cfg conf : quiet (verify_OUTPUT_FORMAT cfg conf).
Proof. unfold verify_OUTPUT_FORMAT. quiet. Qed.

Lemma verify_BINNING_SCHEME_inr cfg conf s b s' :
  verify_BINNING_SCHEME cfg conf s = inr (b, s') ->
  b = if negb (cfg_is_set cfg BINNING_SCHEME) then DEFAULT_BINNING
      else bintype conf.
Proof.
  unfold verify_BINNING_SCHEME. cbn zeta.
  destruct (_ || _); [| discriminate]. now intros [= <- _].
Qed.

(** ** PAIR_COUNT *)

Lemma verify_PAIR_COUNT_eq cfg conf s :
  verify_PAIR_COUNT cfg conf s =
    if cfg_get_size cfg conf PAIR_COUNT =? 0 then inl FCFC_ERR_CFG
    else if pairs_bad (pc conf) then inl FCFC_ERR_CFG
    else inr (length (pc conf), s).
Proof.
  unfold verify_PAIR_COUNT, CHECK_EXIST_ARRAY. cbn zeta.
  destruct (Nat.eqb_spec (cfg_get_size cfg conf PAIR_COUNT) 0) as [| Hn];
    [reflexivity |].
  apply cfg_get_size_nonzero in Hn as [_ ->]. cbn [param_size].
  unfold bind at 1. cbn [ret]. unfold bind at 1.
  rewrite (for_guard (fun i => bad_pair (pc conf !!! i))) by reflexivity.
  unfold pairs_bad, dup_scan. rewrite !Nat.sub_0_r.
  destruct (existsb _ (seq 0 _)); [reflexivity |]. cbn [guard ret orb].
  unfold bind at 1.
  rewrite (for_guard (fun i =>
    existsb (fun j => pair_eqb (pc conf !!! i) (pc conf !!! j))
      (seq (i + 1) (length (pc conf) - (i + 1)))))
    by (intros; now apply for_guard).
  rewrite Nat.sub_0_r. destruct (existsb _ _); reflexivity.
Qed.

Lemma quiet_PAIR_COUNT cfg conf : quiet (verify_PAIR_COUNT cfg conf).
Proof.
  intros s. rewrite verify_PAIR_COUNT_eq.
  destruct (_ =? 0); [reflexivity |]. destruct (pairs_bad _); reflexivity.
Qed.

End blocks.

(** * PAIR_COUNT_FILE and the labels of the pairs *)

Lemma occ_notin x l : x ∉ l -> occ x l = 0.
Proof.
  induction l as [| c l IH]; [reflexivity |]. intros Hx. cbn.
  apply not_elem_of_cons in Hx as [Hne Hx]. rewrite (IH Hx).
  destruct (char_eq x c) eqn:E; [| reflexivity].
  apply char_eq_true in E. contradiction.
Qed.

Lemma occ_NoDup x l : NoDup l -> x ∈ l -> occ x l = 1.
Proof.
  induction 1 as [| c l Hc Hnd IH]; [intros []%elem_of_nil |].
  intros [-> | Hx]%elem_of_cons; cbn.
  - rewrite char_eq_refl. now rewrite occ_notin.
  - rewrite (IH Hx). destruct (char_eq x c) eqn:E; [| reflexivity].
    apply char_eq_true in E. subst c. contradiction.
Qed.

Lemma occ_le_1 x l : NoDup l -> occ x l <= 1.
Proof.
  intros Hnd. destruct (decide (x ∈ l)) as [Hx | Hx].
  - now rewrite occ_NoDup.
  - rewrite occ_notin; auto.
Qed.

Lemma occ_pos x l : 0 < occ x l -> x ∈ l.
Proof.
  intros H. destruct (decide (x ∈ l)) as [Hx | Hx]; [exact Hx |].
  rewrite occ_notin in H; [lia | exact Hx].
Qed.

Lemma label_found_loop a b (l1 l2 : list ascii) acc :
  loop_iter (length l2) (length l1)
    (fun j found =>
       let found :=
         if char_eq a ((l1 ++ l2) !!! j) then found + 1 else found in
       if char_eq b ((l1 ++ l2) !!! j) then found + 1 else found) acc
  = acc + occ a l2 + occ b l2.
Proof.
  revert l1 acc. induction l2 as [| c l2 IH]; intros l1 acc; cbn.
  - lia.
  - rewrite list_lookup_total_middle by reflexivity.
    replace (l1 ++ c :: l2) with ((l1 ++ [c]) ++ l2)
      by now rewrite <- app_assoc.
    replace (S (length l1)) with (length (l1 ++ [c]))
      by (rewrite length_app; cbn; lia).
    rewrite IH. destruct (char_eq a c), (char_eq b c); lia.
Qed.

Lemma label_found_occ l p :
  label_found (length l) l p
  = occ (char_at p 0) l + occ (char_at p 1) l.
Proof.
  unfold label_found, loop. rewrite Nat.sub_0_r.
  apply (label_found_loop (char_at p 0) (char_at p 1) [] l 0).
Qed.

(** With distinct labels, the count is two exactly when both letters are
    labels. *)
Lemma label_found_2 l p :
  NoDup l ->
  label_found (length l) l p = 2 <-> char_at p 0 ∈ l /\ char_at p 1 ∈ l.
Proof.
  intros Hnd. rewrite label_found_occ.
  pose proof (occ_le_1 (char_at p 0) l Hnd) as Ha.
  pose proof (occ_le_1 (char_at p 1) l Hnd) as Hb. split.
  - intros H2. split; apply occ_pos; lia.
  - intros [Hin0 Hin1]. now rewrite !occ_NoDup.
Qed.

Lemma check_labels_eq n l p s :
  check_labels n l p s =
    if label_found n l p =? 2 then inr (tt, s) else inl FCFC_ERR_CFG.
Proof. unfold check_labels. now destruct (_ =? 2). Qed.

Lemma quiet_check_labels n l p : quiet (check_labels n l p).
Proof. intros s. rewrite check_labels_eq. now destruct (_ =? 2). Qed.

Section pair_count_file.

Context {D : define_h}.
Variable access : string -> amode -> Z.

Implicit Types (cfg : cfg_t) (conf : CONF) (s : stdin).

(** What one round of the loop over the output files does when it
    succeeds: the file is either to be written, and then the labels of the
    pair exist, or to be read. *)
Lemma pair_file_step_inr conf n lab ov i comp s comp' s' :
  i < length comp ->
  pair_file_step access conf n lab ov i comp s = inr (comp', s') ->
  exists e,
    check_output access (pcout conf !!! i) ov FCFC_OVERWRITE_ALL s = (e, s')
    /\ ((e = None /\ comp' = <[i := true]> comp
         /\ label_found n lab (pc conf !!! i) = 2)
        \/ (e = Some FCFC_ERR_SAVE /\ comp' = <[i := false]> comp)).
Proof.
  intros Hi. unfold pair_file_step, call. unfold bind at 1.
  destruct (check_output _ _ _ _ s) as [e t] eqn:Eco.
  destruct e as [[] |]; cbn; try discriminate.
  - unfold bind. cbn. rewrite list_lookup_total_insert_eq by exact Hi.
    cbn. intros [= <- <-]. exists (Some FCFC_ERR_SAVE). auto.
  - unfold bind. cbn. rewrite list_lookup_total_insert_eq by exact Hi.
    rewrite check_labels_eq.
    destruct (Nat.eqb_spec (label_found n lab (pc conf !!! i)) 2);
      [| discriminate].
    intros [= <- <-]. exists None. auto.
Qed.

Lemma pair_nofile_step_inr conf n lab i comp s comp' s' :
  i < length comp ->
  pair_nofile_step conf n lab i comp s = inr (comp', s') ->
  s' = s /\ comp' = <[i := true]> comp
  /\ label_found n lab (pc conf !!! i) = 2.
Proof.
  intros Hi. unfold pair_nofile_step. cbn zeta. unfold bind.
  rewrite list_lookup_total_insert_eq by exact Hi.
  rewrite check_labels_eq.
  destruct (Nat.eqb_spec (label_found n lab (pc conf !!! i)) 2);
    [| discriminate].
  intros [= <- <-]. auto.
Qed.

Lemma quiet_pair_nofile_step conf n lab i comp :
  quiet (pair_nofile_step conf n lab i comp).
Proof.
  unfold pair_nofile_step. cbn zeta. apply quiet_bind.
  - destruct (_ !!! _); [apply quiet_check_labels | apply quiet_ret].
  - intros _. apply quiet_ret.
Qed.

Lemma marked_step cfg conf n lab len j comp v :
  j < len ->
  marked cfg conf n lab len j comp ->
  (v = true /\ label_found n lab (pc conf !!! j) = 2
   \/ v = false /\ cfg_is_set cfg PAIR_COUNT_FILE = true) ->
  marked cfg conf n lab len (S j) (<[j := v]> comp).
Proof.
  intros Hj [Hlen Hk] Hv. split; [now rewrite length_insert |].
  intros k Hlt. destruct (decide (k = j)) as [-> | Hne].
  - rewrite list_lookup_insert_eq by lia.
    destruct Hv as [[-> ?] | [-> ?]]; auto.
  - rewrite list_lookup_insert_ne by auto. apply Hk. lia.
Qed.

Lemma verify_PAIR_COUNT_FILE_inr cfg conf n lab ov npc s comp pco s1 :
  verify_PAIR_COUNT_FILE access cfg conf n lab ov npc s
    = inr ((comp, pco), s1) ->
  marked cfg conf n lab npc npc comp
  /\ pco = (if cfg_is_set cfg PAIR_COUNT_FILE then pcout conf else []).
Proof.
  unfold verify_PAIR_COUNT_FILE. cbn zeta.
  destruct (cfg_is_set cfg PAIR_COUNT_FILE) eqn:Eset.
  - intros (_ & t1 & _ & H)%bind_inr.
    apply bind_inr in H as (_ & t2 & _ & H).
    apply bind_inr in H as (comp' & t3 & Hloop & H).
    injection H as <- <- <-. split; [| reflexivity].
    apply (for_iter_inv (marked cfg conf n lab npc)) in Hloop.
    + now rewrite Nat.sub_0_r in Hloop.
    + split; [apply length_replicate | intros k Hk; lia].
    + intros j b t b' t' Hj Hb Hstep.
      apply pair_file_step_inr in Hstep
        as (e & _ & [(_ & -> & Hl) | (_ & ->)]);
        [| | destruct Hb as [-> _]; lia].
      * apply marked_step; [lia | exact Hb | auto].
      * apply marked_step; [lia | exact Hb | auto].
  - intros (comp' & t3 & Hloop & H)%bind_inr.
    injection H as <- <- <-. split; [| reflexivity].
    apply (for_iter_inv (marked cfg conf n lab npc)) in Hloop.
    + now rewrite Nat.sub_0_r in Hloop.
    + split; [apply length_replicate | intros k Hk; lia].
    + intros j b t b' t' Hj Hb Hstep.
      apply pair_nofile_step_inr in Hstep as (_ & -> & Hl);
        [| destruct Hb as [-> _]; lia].
      apply marked_step; [lia | exact Hb | auto].
Qed.

(** Without output files the block is quiet. *)
Lemma quiet_PAIR_COUNT_FILE_unset cfg conf n lab ov npc :
  cfg_is_set cfg PAIR_COUNT_FILE = false ->
  quiet (verify_PAIR_COUNT_FILE access cfg conf n lab ov npc).
Proof.
  intros Hset. unfold verify_PAIR_COUNT_FILE. cbn zeta. rewrite Hset.
  apply quiet_bind; [| intros; apply quiet_ret].
  apply quiet_for. intros. apply quiet_pair_nofile_step.
Qed.

(** A file to be read marks the pair and skips the label check. *)
Lemma pair_file_step_save conf n lab ov i comp s s' :
  i < length comp ->
  check_output access (pcout conf !!! i) ov FCFC_OVERWRITE_ALL s
    = (Some FCFC_ERR_SAVE, s') ->
  pair_file_step access conf n lab ov i comp s
    = inr (<[i := false]> comp, s').
Proof.
  intros Hi Hco. unfold pair_file_step, call. unfold bind at 1.
  rewrite Hco. unfold bind. cbn.
  now rewrite list_lookup_total_insert_eq by exact Hi.
Qed.

(** The loop over the output files writes the cells from [j] on only. *)
Lemma pair_file_loop_frame conf n lab ov m :
  forall j comp s comp' s',
  for_iter m j (pair_file_step access conf n lab ov) comp s
    = inr (comp', s') ->
  j + m <= length comp ->
  length comp' = length comp /\ forall k, k < j -> comp' !! k = comp !! k.
Proof.
  induction m as [| m IH]; intros j comp s comp' s'; cbn [for_iter].
  - intros [= <- <-] _. auto.
  - intros (b & t & Hstep & Hrest)%bind_inr Hlen.
    apply pair_file_step_inr in Hstep as (e & _ & Hb); [| lia].
    assert (Hb' : exists v, b = <[j := v]> comp)
      by (destruct Hb as [(_ & -> & _) | (_ & ->)]; eauto).
    destruct Hb' as [v ->].
    apply IH in Hrest as [Hl Hk]; [| rewrite length_insert; lia].
    rewrite length_insert in Hl. split; [exact Hl |].
    intros k Hlt. rewrite Hk by lia. apply list_lookup_insert_ne. lia.
Qed.

(** When the loop marks every pair as read, its outcome does not depend
    on the labels. *)
Lemma pair_file_loop_indep conf n1 l1 n2 l2 ov m :
  forall j comp s comp' s',
  for_iter m j (pair_file_step access conf n1 l1 ov) comp s
    = inr (comp', s') ->
  j + m <= length comp ->
  (forall k, j <= k < j + m -> comp' !! k = Some false) ->
  for_iter m j (pair_file_step access conf n2 l2 ov) comp s
    = inr (comp', s').
Proof.
  induction m as [| m IH]; intros j comp s comp' s'; cbn [for_iter].
  - auto.
  - intros (b & t & Hstep & Hrest)%bind_inr Hlen Hfalse.
    pose proof (pair_file_loop_frame _ _ _ _ _ _ _ _ _ _ Hrest) as Hframe.
    apply pair_file_step_inr in Hstep
      as (e & Hco & [(_ & -> & _) | (-> & ->)]); [| | lia].
    + destruct Hframe as [_ Hk]; [rewrite length_insert; lia |].
      specialize (Hk j ltac:(lia)).
      rewrite list_lookup_insert_eq in Hk by lia.
      rewrite (Hfalse j) in Hk by lia. discriminate.
    + apply bind_inr. exists (<[j := false]> comp), t. split.
      * apply pair_file_step_save; [lia | exact Hco].
      * apply IH; [exact Hrest | rewrite length_insert; lia |].
        intros k Hk. apply Hfalse. lia.
Qed.

Lemma verify_PAIR_COUNT_FILE_indep cfg conf n1 l1 n2 l2 ov npc s comp pco s1 :
  verify_PAIR_COUNT_FILE access cfg conf n1 l1 ov npc s
    = inr ((comp, pco), s1) ->
  npc <> 0 ->
  (forall k, k < npc -> comp !! k = Some false) ->
  verify_PAIR_COUNT_FILE access cfg conf n2 l2 ov npc s
    = inr ((comp, pco), s1).
Proof.
  intros Hrun Hnpc Hfalse.
  pose proof (verify_PAIR_COUNT_FILE_inr _ _ _ _ _ _ _ _ _ _ Hrun)
    as [[_ Hmark] _].
  revert Hrun. unfold verify_PAIR_COUNT_FILE. cbn zeta.
  destruct (cfg_is_set cfg PAIR_COUNT_FILE) eqn:Eset.
  - intros (u1 & t1 & H1 & H)%bind_inr.
    apply bind_inr in H as (u2 & t2 & H2 & H).
    apply bind_inr in H as (comp' & t3 & Hloop & H).
    injection H as <- <- <-.
    apply bind_inr. exists u1, t1. split; [exact H1 |].
    apply bind_inr. exists u2, t2. split; [exact H2 |].
    apply bind_inr. exists comp', t3. split; [| reflexivity].
    unfold for_ in *. rewrite Nat.sub_0_r in *.
    eapply pair_file_loop_indep; [exact Hloop | | ].
    + rewrite length_replicate. lia.
    + intros k Hk. apply Hfalse. lia.
  - intros _. exfalso. destruct (Hmark 0) as [[Ht _] | [_ Hs]]; [lia | |].
    + rewrite Hfalse in Ht by lia. discriminate.
    + discriminate.
Qed.

(** With a non-negative level the prompt is not used. *)
Lemma check_output_nonneg fname ov force inp :
  char_at fname 0 <> NUL -> (0 <= ov)%Z ->
  check_output access fname ov force inp =
    (if (access fname F_OK =? 0)%Z then
       if (ov <=? FCFC_OVERWRITE_NONE)%Z then Some FCFC_ERR_FILE
       else if (ov >=? force)%Z then
         if (access fname W_OK =? 0)%Z then None else Some FCFC_ERR_FILE
       else
         if (access fname R_OK =? 0)%Z then Some FCFC_ERR_SAVE
         else Some FCFC_ERR_FILE
     else
       match strrchr fname FCFC_PATH_SEP with
       | Some k =>
           if (access (substring 0 k fname) X_OK =? 0)%Z then None
           else Some FCFC_ERR_FILE
       | None => None
       end, inp).
Proof.
  intros Hname Hov. unfold check_output.
  destruct (char_eq (char_at fname 0) NUL) eqn:E;
    [apply char_eq_true in E; contradiction |].
  destruct (Z.ltb_spec ov 0) as [| _]; [lia |]. cbn [andb].
  repeat match goal with
         | |- context [if ?b then _ else _] => destruct b
         | |- context [match ?x with Some _ => _ | None => _ end] =>
             destruct x
         end; reflexivity.
Qed.

End pair_count_file.

(** * MULTIPOLE: the insertion sort and the removal of duplicates *)

Section multipole_sort.

Local Open Scope Z_scope.

(** The inner loop moves the elements greater than [tmp] one place to the
    right and stops at the place where [tmp] belongs. *)
Lemma shift_right_spec tmp (l1 : list Z) :
  forall hole l2,
  exists la lb hole',
    l1 = la ++ lb
    /\ Forall (fun y => tmp < y) lb
    /\ (forall la' z, la = la' ++ [z] -> z <= tmp)
    /\ shift_right tmp (length l1) (l1 ++ hole :: l2)
       = (la ++ hole' :: lb ++ l2, length la).
Proof.
  induction l1 as [| y l1 IH] using rev_ind; intros hole l2.
  - exists [], [], hole. repeat split; [constructor |].
    intros la' z Hla. now destruct la'.
  - rewrite length_app, Nat.add_comm. cbn [length Nat.add shift_right].
    rewrite <- app_assoc. cbn [app].
    rewrite list_lookup_total_middle by reflexivity.
    rewrite Z.gtb_ltb. destruct (Z.ltb_spec tmp y) as [Hlt | Hge].
    + replace (S (length l1)) with (length l1 + 1)%nat by lia.
      rewrite insert_app_r. cbn [insert list_insert].
      destruct (IH y (y :: l2)) as (la & lb & hole' & -> & Hlb & Hla & Hsh).
      exists la, (lb ++ [y]), hole'. repeat split.
      * now rewrite app_assoc.
      * apply Forall_app. split; [exact Hlb | now constructor].
      * exact Hla.
      * rewrite Hsh. now rewrite <- app_assoc.
    + exists (l1 ++ [y]), [], hole. repeat split.
      * now rewrite app_nil_r.
      * constructor.
      * intros la' z Heq. apply app_inj_tail in Heq as [_ <-]. exact Hge.
      * rewrite length_app, Nat.add_comm. cbn. now rewrite <- app_assoc.
Qed.

(** One round of the outer loop inserts [x] in the sorted prefix. *)
Lemma sort_step_spec (l1 : list Z) x l2 :
  StronglySorted Z.le l1 ->
  exists ins,
    sort_step (length l1) (l1 ++ x :: l2) = ins ++ l2
    /\ length ins = S (length l1)
    /\ ins ≡ₚ x :: l1
    /\ StronglySorted Z.le ins.
Proof.
  intros Hs. unfold sort_step.
  rewrite list_lookup_total_middle by reflexivity.
  destruct (shift_right_spec x l1 x l2)
    as (la & lb & hole' & -> & Hlb & Hla & ->).
  exists (la ++ x :: lb). repeat split.
  - replace (length la) with (length la + 0)%nat by lia.
    rewrite insert_app_r. cbn. now rewrite <- app_assoc.
  - rewrite !length_app. cbn. lia.
  - symmetry. apply Permutation_middle.
  - apply StronglySorted_app in Hs as (Hab & Hsa & Hsb).
    apply StronglySorted_app. split; [| split; [exact Hsa |]].
    + intros a b Ha Hb.
      assert (Hax : a <= x).
      { destruct la as [| z la' _] using rev_ind;
          [now apply elem_of_nil in Ha |].
        specialize (Hla la' z eq_refl).
        apply elem_of_app in Ha as [Ha | Ha%list_elem_of_singleton].
        - apply StronglySorted_app in Hsa as (Hz & _ & _).
          specialize (Hz a z Ha ltac:(now apply list_elem_of_singleton)).
          lia.
        - now subst a. }
      apply elem_of_cons in Hb as [-> | Hb]; [exact Hax | auto].
    + constructor; [exact Hsb |].
      eapply Forall_impl; [exact Hlb |]. cbn. intros; lia.
Qed.

Lemma sort_loop_spec (l2 : list Z) :
  forall l1, StronglySorted Z.le l1 ->
  loop_iter (length l2) (length l1) sort_step (l1 ++ l2) ≡ₚ l1 ++ l2
  /\ StronglySorted Z.le
       (loop_iter (length l2) (length l1) sort_step (l1 ++ l2)).
Proof.
  induction l2 as [| x l2 IH]; intros l1 Hs.
  - cbn. now rewrite app_nil_r.
  - cbn [length loop_iter].
    destruct (sort_step_spec l1 x l2 Hs) as (ins & -> & Hlen & Hperm & Hins).
    rewrite <- Hlen. destruct (IH ins Hins) as [Hp Hsorted].
    split; [| exact Hsorted]. rewrite Hp, Hperm.
    cbn. apply Permutation_middle.
Qed.

Lemma sort_poles_spec (l : list Z) :
  sort_poles (length l) l ≡ₚ l
  /\ StronglySorted Z.le (sort_poles (length l) l).
Proof.
  unfold sort_poles, loop. destruct l as [| x l].
  - cbn. split; [reflexivity | constructor].
  - cbn [length]. replace (S (length l) - 1)%nat with (length l) by lia.
    apply (sort_loop_spec l [x]). repeat constructor.
Qed.

(** The removal of duplicates keeps, in front of the array, the distinct
    values met so far; [u ++ [m]] are those values, [g] the slots already
    copied from, [rest] what is still to be read. *)
Lemma dedup_loop_spec (rest : list Z) :
  forall u m g,
  StronglySorted Z.lt (u ++ [m]) ->
  StronglySorted Z.le (m :: rest) ->
  exists u' m' g',
    loop_iter (length rest) (length u + 1 + length g) dedup_step
      (u ++ m :: g ++ rest, length u)
    = (u' ++ m' :: g', length u')
    /\ StronglySorted Z.lt (u' ++ [m'])
    /\ (forall x, x ∈ u' ++ [m'] <-> x ∈ u ++ [m] \/ x ∈ rest)
    /\ length (u' ++ m' :: g') = length (u ++ m :: g ++ rest).
Proof.
  induction rest as [| x rest IH]; intros u m g Hu Hrest.
  - exists u, m, g. cbn. rewrite app_nil_r. repeat split; auto.
    + intros [H | H]; [exact H | now apply elem_of_nil in H].
  - cbn [length loop_iter dedup_step].
    assert (Hi : (u ++ m :: g ++ x :: rest) !!! (length u + 1 + length g)%nat
                 = x).
    { replace (u ++ m :: g ++ x :: rest) with ((u ++ m :: g) ++ x :: rest)
        by now rewrite <- app_assoc.
      apply list_lookup_total_middle. rewrite length_app. cbn. lia. }
    assert (Hn : (u ++ m :: g ++ x :: rest) !!! length u = m)
      by now apply list_lookup_total_middle.
    rewrite Hi, Hn.
    apply StronglySorted_cons in Hrest as [Hmx Hsr].
    apply Forall_cons in Hmx as [Hmx Hmr].
    apply StronglySorted_cons in Hsr as [Hxr Hsr].
    destruct (Z.eqb_spec x m) as [-> | Hne]; cbn [negb].
    + destruct (IH u m (g ++ [m])) as (u' & m' & g' & Hloop & Hs' & Hin & Hl).
      * exact Hu.
      * now constructor.
      * exists u', m', g'. rewrite <- app_assoc in Hloop. cbn [app] in Hloop.
        rewrite length_app in Hloop. cbn [length] in Hloop.
        replace (S (length u + 1 + length g))
          with (length u + 1 + (length g + 1))%nat by lia.
        rewrite Hloop. repeat split; auto.
        -- intros Hx. apply Hin in Hx as [Hx | Hx]; [now left |].
           right. now right.
        -- intros [Hx | Hx]; apply Hin; [now left |].
           apply elem_of_cons in Hx as [-> | Hx]; [| now right].
           left. apply elem_of_app. right. now apply list_elem_of_singleton.
        -- rewrite Hl, !length_app. cbn. rewrite !length_app. cbn. lia.
    + assert (Hlt : m < x) by lia.
      assert (Hg : exists g'', length g'' = length g /\
                <[S (length u) := x]> (u ++ m :: g ++ x :: rest)
                = (u ++ [m]) ++ x :: g'' ++ rest).
      { replace (S (length u)) with (length u + 1)%nat by lia.
        rewrite insert_app_r. cbn [insert list_insert].
        destruct g as [| y g1].
        - exists []. split; [reflexivity |]. cbn. now rewrite <- app_assoc.
        - exists (g1 ++ [x]). split; [rewrite length_app; cbn; lia |].
          cbn. rewrite <- !app_assoc. reflexivity. }
      destruct Hg as (g'' & Hlen & ->).
      destruct (IH (u ++ [m]) x g'')
        as (u' & m' & g' & Hloop & Hs' & Hin & Hl).
      * apply StronglySorted_app. split; [| split; [exact Hu |]].
        -- intros a b Ha ->%list_elem_of_singleton.
           apply elem_of_app in Ha as [Ha | ->%list_elem_of_singleton];
             [| exact Hlt].
           apply StronglySorted_app in Hu as (Hum & _ & _).
           specialize (Hum a m Ha ltac:(now apply list_elem_of_singleton)).
           lia.
        -- repeat constructor.
      * now constructor.
      * exists u', m', g'.
        rewrite length_app in Hloop. cbn [length] in Hloop.
        replace (S (length u + 1 + length g))
          with (length u + 1 + 1 + length g'')%nat by lia.
        replace (S (length u)) with (length u + 1)%nat by lia.
        rewrite Hloop. repeat split; auto.
        -- intros Hx. apply Hin in Hx as [Hx | Hx]; [| right; now right].
           apply elem_of_app in Hx as [Hx | ->%list_elem_of_singleton];
             [now left | right; now left].
        -- intros [Hx | Hx]; apply Hin.
           ++ left. apply elem_of_app. now left.
           ++ apply elem_of_cons in Hx as [-> | Hx]; [| now right].
              left. apply elem_of_app. right.
              now apply list_elem_of_singleton.
        -- rewrite Hl, !length_app. cbn. rewrite !length_app. cbn. lia.
Qed.

Lemma dedup_poles_spec (l : list Z) :
  l <> [] -> StronglySorted Z.le l ->
  exists u g,
    dedup_poles (length l) l = (u ++ g, (length u - 1)%nat)
    /\ u <> []
    /\ StronglySorted Z.lt u
    /\ (forall x, x ∈ u <-> x ∈ l)
    /\ length (u ++ g) = length l.
Proof.
  intros Hne Hs. destruct l as [| m rest]; [contradiction |].
  unfold dedup_poles, loop. cbn [length].
  replace (S (length rest) - 1)%nat with (length rest) by lia.
  destruct (dedup_loop_spec rest [] m []) as (u' & m' & g' & Hl & Hs' & Hin & Hlen).
  - repeat constructor.
  - exact Hs.
  - cbn in Hl. rewrite Hl. exists (u' ++ [m']), g'. repeat split.
    + rewrite <- app_assoc, length_app. cbn. f_equal. lia.
    + now destruct u'.
    + exact Hs'.
    + intros Hx. apply Hin in Hx as [Hx%list_elem_of_singleton | Hx].
      * subst. now left.
      * now right.
    + intros Hx. apply Hin. apply elem_of_cons in Hx as [-> | Hx].
      * left. now apply list_elem_of_singleton.
      * now right.
    + rewrite <- app_assoc. cbn [app]. rewrite Hlen. reflexivity.
Qed.

Lemma StronglySorted_lt_NoDup (u : list Z) : StronglySorted Z.lt u -> NoDup u.
Proof.
  induction 1 as [| x u Hs IH Hx]; constructor; [| exact IH].
  intros Hin. rewrite Forall_forall in Hx. specialize (Hx x Hin). lia.
Qed.

Lemma prepare_poles_spec (l : list Z) :
  l <> [] ->
  exists u g,
    prepare_poles l = (u ++ g, length u)
    /\ u <> []
    /\ StronglySorted Z.lt u
    /\ (forall x, x ∈ u <-> x ∈ l)
    /\ length (u ++ g) = length l.
Proof.
  intros Hne. unfold prepare_poles.
  destruct (Nat.ltb_spec 1 (length l)) as [Hlen | Hlen].
  - destruct (sort_poles_spec l) as [Hperm Hs].
    assert (Hne' : sort_poles (length l) l <> []).
    { intros E. rewrite E in Hperm. apply Permutation_nil_l in Hperm.
      auto. }
    pose proof (dedup_poles_spec _ Hne' Hs) as Hd.
    rewrite (Permutation_length Hperm) in Hd.
    destruct Hd as (u & g & -> & Hu & Hsu & Hin & Hl).
    exists u, g. repeat split; auto.
    + f_equal. destruct u; [contradiction | cbn; lia].
    + intros Hx. rewrite <- Hperm. now apply Hin.
    + intros Hx. apply Hin. now rewrite Hperm.
  - destruct l as [| x [| y l]]; [contradiction | | cbn in Hlen; lia].
    exists [x], []. repeat split; auto; repeat constructor.
Qed.

(** On a strictly increasing array, testing the first and the last cell is
    testing them all. *)
Lemma range_check (u g : list Z) (lo hi : Z) :
  u <> [] -> StronglySorted Z.lt u ->
  ((u ++ g) !!! 0%nat <? lo) || ((u ++ g) !!! (length u - 1)%nat >? hi)
    = false
  <-> forall x, x ∈ u -> lo <= x <= hi.
Proof.
  intros Hne Hs.
  assert (Hlast : exists u' z, u = u' ++ [z]).
  { destruct u as [| z u' _] using rev_ind; [contradiction | eauto]. }
  destruct Hlast as (u' & z & Hz).
  assert (Hl : (u ++ g) !!! (length u - 1)%nat = z).
  { rewrite Hz, <- app_assoc. apply list_lookup_total_middle.
    rewrite length_app. cbn. lia. }
  destruct u as [| h t]; [contradiction |]. rewrite Hl.
  change (((h :: t) ++ g) !!! 0%nat) with h.
  rewrite orb_false_iff, Z.ltb_ge, Z.gtb_ltb, Z.ltb_ge.
  assert (Hmin : forall x, x ∈ h :: t -> h <= x).
  { intros x [-> | Hx]%elem_of_cons; [lia |].
    apply StronglySorted_cons in Hs as [Hh _].
    rewrite Forall_forall in Hh. specialize (Hh x Hx). lia. }
  assert (Hmax : forall x, x ∈ h :: t -> x <= z).
  { intros x Hx. rewrite Hz in Hx, Hs.
    apply elem_of_app in Hx as [Hx | ->%list_elem_of_singleton]; [| lia].
    apply StronglySorted_app in Hs as (Huz & _ & _).
    specialize (Huz x z Hx ltac:(now apply list_elem_of_singleton)). lia. }
  split.
  - intros [Hlo Hhi] x Hx. specialize (Hmin x Hx). specialize (Hmax x Hx).
    lia.
  - intros Hall. split.
    + apply (Hall h). now left.
    + apply (Hall z). rewrite Hz. apply elem_of_app. right.
      now apply list_elem_of_singleton.
Qed.

End multipole_sort.

Section multipole_block.

Context {D : define_h}.
Variable access : string -> amode -> Z.

Implicit Types (cfg : cfg_t) (conf : CONF) (s : stdin).

Lemma verify_MULTIPOLE_eq cfg conf ncf ov s :
  cfg_get_size cfg conf MULTIPOLE <> 0 ->
  verify_MULTIPOLE access cfg conf ncf ov s =
    let '(ps, np) := prepare_poles (poles conf) in
    if (ps !!! 0%nat <? 0)%Z || (ps !!! (np - 1)%nat >? FCFC_MAX_ELL)%Z
    then inl FCFC_ERR_CFG
    else match verify_output_files access cfg conf MULTIPOLE_FILE
                 (mpout conf) ncf ov s with
         | inl e => inl e
         | inr (mp, s') => inr ((np, ps, mp), s')
         end.
Proof.
  intros Hn. unfold verify_MULTIPOLE, prepare_poles. cbn zeta.
  destruct (Nat.eqb_spec (cfg_get_size cfg conf MULTIPOLE) 0) as [| _];
    [contradiction |].
  apply cfg_get_size_nonzero in Hn as [_ ->]. cbn [param_size negb].
  destruct (1 <? length (poles conf)).
  - destruct (dedup_poles _ _) as [ps num].
    unfold bind at 1. destruct (_ || _); [reflexivity |]. cbn [ret].
    unfold bind. destruct (verify_output_files _ _ _ _ _ _ _ _)
      as [e | [mp s']]; reflexivity.
  - unfold bind at 1. destruct (_ || _); [reflexivity |]. cbn [ret].
    unfold bind. destruct (verify_output_files _ _ _ _ _ _ _ _)
      as [e | [mp s']]; reflexivity.
Qed.

Lemma verify_MULTIPOLE_inr cfg conf ncf ov s np ps mp s' :
  cfg_get_size cfg conf MULTIPOLE <> 0 ->
  verify_MULTIPOLE access cfg conf ncf ov s = inr ((np, ps, mp), s') ->
  StronglySorted Z.lt (take np ps)
  /\ (forall x, x ∈ take np ps <-> x ∈ poles conf)
  /\ length (take np ps) = np
  /\ Forall in_range (poles conf).
Proof.
  intros Hn. rewrite verify_MULTIPOLE_eq by exact Hn.
  assert (Hne : poles conf <> []).
  { pose proof (cfg_get_size_nonzero _ _ _ Hn) as [_ Hsz].
    rewrite Hsz in Hn. cbn in Hn. now destruct (poles conf). }
  destruct (prepare_poles_spec _ Hne) as (u & g & -> & Hu & Hs & Hin & Hl).
  destruct (_ || _) eqn:Erange; [discriminate |].
  destruct (verify_output_files _ _ _ _ _ _ _ _) as [e | [mp' t]];
    [discriminate |].
  intros [= <- <- <- <-]. rewrite take_app_length.
  pose proof (proj1 (range_check u g 0 FCFC_MAX_ELL Hu Hs) Erange) as Hall.
  repeat split; auto.
  - apply Hin.
  - apply Hin.
  - apply Forall_forall. intros x Hx. apply Hall. now apply Hin.
Qed.

Lemma verify_MULTIPOLE_out_of_range cfg conf ncf ov s :
  cfg_get_size cfg conf MULTIPOLE <> 0 ->
  (exists x, x ∈ poles conf /\ ~ in_range x) ->
  verify_MULTIPOLE access cfg conf ncf ov s = inl FCFC_ERR_CFG.
Proof.
  intros Hn (x & Hx & Hout). rewrite verify_MULTIPOLE_eq by exact Hn.
  assert (Hne : poles conf <> []) by (intros E; rewrite E in Hx; inv Hx).
  destruct (prepare_poles_spec _ Hne) as (u & g & -> & Hu & Hs & Hin & Hl).
  destruct (_ || _) eqn:Erange; [reflexivity |].
  pose proof (proj1 (range_check u g 0 FCFC_MAX_ELL Hu Hs) Erange) as Hall.
  destruct Hout. apply Hall. now apply Hin.
Qed.

(** Under the (s, mu) scheme and with an estimator, the CF_ESTIMATOR block
    runs the MULTIPOLE block and keeps its result. *)
Lemma verify_CF_ESTIMATOR_smu cfg conf ov s nc f s' :
  cfg_get_size cfg conf CF_ESTIMATOR <> 0 ->
  verify_CF_ESTIMATOR access cfg conf FCFC_BIN_SMU ov s = inr ((nc, f), s') ->
  exists t,
    verify_MULTIPOLE access cfg conf (cfg_get_size cfg conf CF_ESTIMATOR) ov t
    = inr ((f_npole f, f_poles f, f_mpout f), s').
Proof.
  intros Hn. unfold verify_CF_ESTIMATOR. cbn zeta.
  destruct (Nat.eqb_spec (cfg_get_size cfg conf CF_ESTIMATOR) 0) as [| _];
    [contradiction |]. cbn [negb].
  intros (_ & t1 & _ & H)%bind_inr.
  apply bind_inr in H as (cfo & t2 & _ & H).
  rewrite Z.eqb_refl in H.
  apply bind_inr in H as ([[np ps] mp] & t3 & Hm & H).
  injection H as <- <- <-. exists t2. exact Hm.
Qed.

(** Without estimator files nothing but the estimators themselves is
    tested before the multipoles. *)
Lemma verify_CF_ESTIMATOR_out_of_range cfg conf ov s :
  cfg_get_size cfg conf CF_ESTIMATOR <> 0 ->
  cfg_is_set cfg CF_OUTPUT_FILE = false ->
  cfg_get_size cfg conf MULTIPOLE <> 0 ->
  (exists x, x ∈ poles conf /\ ~ in_range x) ->
  verify_CF_ESTIMATOR access cfg conf FCFC_BIN_SMU ov s = inl FCFC_ERR_CFG.
Proof.
  intros Hn Hout Hm Hx. unfold verify_CF_ESTIMATOR. cbn zeta.
  destruct (Nat.eqb_spec (cfg_get_size cfg conf CF_ESTIMATOR) 0) as [| _];
    [contradiction |]. cbn [negb].
  apply quiet_then_fail; [quiet |]. intros _ _.
  unfold verify_output_files at 1. rewrite Hout. unfold bind at 1.
  cbn [ret]. rewrite Z.eqb_refl. unfold bind at 1.
  now rewrite verify_MULTIPOLE_out_of_range.
Qed.

(** With every order in range, the MULTIPOLE block keeps the sorted
    distinct orders and goes on to the MULTIPOLE_FILE files. *)
Lemma verify_MULTIPOLE_in_range cfg conf ncf ov :
  cfg_get_size cfg conf MULTIPOLE <> 0 ->
  Forall in_range (poles conf) ->
  exists np ps,
    StronglySorted Z.lt (take np ps)
    /\ (forall x, x ∈ take np ps <-> x ∈ poles conf)
    /\ length (take np ps) = np
    /\ forall t,
         verify_MULTIPOLE access cfg conf ncf ov t =
           match verify_output_files access cfg conf MULTIPOLE_FILE
                   (mpout conf) ncf ov t with
           | inl e => inl e
           | inr (mp, t') => inr ((np, ps, mp), t')
           end.
Proof.
  intros Hn Hr.
  assert (Hne : poles conf <> []).
  { pose proof (cfg_get_size_nonzero _ _ _ Hn) as [_ Hsz].
    rewrite Hsz in Hn. cbn in Hn. now destruct (poles conf). }
  destruct (prepare_poles_spec _ Hne) as (u & g & Hprep & Hu & Hs & Hin & Hl).
  exists (length u), (u ++ g). rewrite take_app_length.
  split; [exact Hs |]. split; [exact Hin |]. split; [reflexivity |].
  intros t. rewrite verify_MULTIPOLE_eq by exact Hn. rewrite Hprep.
  rewrite (proj2 (range_check u g 0 FCFC_MAX_ELL Hu Hs)); [reflexivity |].
  intros x Hx. rewrite Forall_forall in Hr. apply Hr, Hin, Hx.
Qed.

(** A CF_ESTIMATOR block that succeeds under the (s, mu) scheme succeeds
    with any other orders that are in range, and keeps them sorted and
    distinct. *)
Lemma verify_CF_ESTIMATOR_smu_orders cfg conf ov s nc f s' l :
  cfg_get_size cfg conf CF_ESTIMATOR <> 0 ->
  cfg_get_size cfg conf MULTIPOLE <> 0 ->
  verify_CF_ESTIMATOR access cfg conf FCFC_BIN_SMU ov s = inr ((nc, f), s') ->
  l <> [] -> Forall in_range l ->
  exists np ps,
    verify_CF_ESTIMATOR access cfg (with_poles l conf) FCFC_BIN_SMU ov s
    = inr ((nc, {| f_cfout := f_cfout f; f_npole := np; f_poles := ps;
                   f_mpout := f_mpout f; f_wp := f_wp f;
                   f_wpout := f_wpout f |}), s')
    /\ StronglySorted Z.lt (take np ps)
    /\ (forall x, x ∈ take np ps <-> x ∈ l)
    /\ length (take np ps) = np.
Proof.
  intros Hcf Hmp H Hl Hr.
  assert (Hmp' : cfg_get_size cfg (with_poles l conf) MULTIPOLE <> 0).
  { pose proof (cfg_get_size_nonzero _ _ _ Hmp) as [Hset _].
    unfold cfg_get_size. rewrite Hset. cbn. now destruct l. }
  destruct (verify_MULTIPOLE_in_range cfg (with_poles l conf)
              (cfg_get_size cfg conf CF_ESTIMATOR) ov Hmp' Hr)
    as (np & ps & Hs & Hin & Hlen & Hrun).
  exists np, ps. split; [| auto].
  unfold verify_CF_ESTIMATOR in *. cbn zeta in *.
  change (cfg_get_size cfg (with_poles l conf) CF_ESTIMATOR)
    with (cfg_get_size cfg conf CF_ESTIMATOR).
  destruct (Nat.eqb_spec (cfg_get_size cfg conf CF_ESTIMATOR) 0) as [| _];
    [contradiction |]. cbn [negb] in *.
  change (cf (with_poles l conf)) with (cf conf).
  change (verify_output_files access cfg (with_poles l conf) CF_OUTPUT_FILE
            (cfout (with_poles l conf)))
    with (verify_output_files access cfg conf CF_OUTPUT_FILE (cfout conf)).
  apply bind_inr in H as (u & t1 & Hloop & H).
  apply bind_inr in H as (cfo & t2 & Hcfo & H).
  rewrite Z.eqb_refl in *.
  apply bind_inr in H as ([[np0 ps0] mp0] & t3 & Hm & H).
  injection H as <- <- <-. cbn [f_cfout f_mpout f_wp f_wpout].
  rewrite verify_MULTIPOLE_eq in Hm by exact Hmp.
  destruct (prepare_poles (poles conf)) as [ps1 np1].
  destruct (_ || _); [discriminate |].
  destruct (verify_output_files access cfg conf MULTIPOLE_FILE (mpout conf)
              (cfg_get_size cfg conf CF_ESTIMATOR) ov t2)
    as [e | [mp t]] eqn:Ef; [discriminate |].
  injection Hm as <- <- <- <-.
  unfold bind at 1. rewrite Hloop. unfold bind at 1. rewrite Hcfo.
  unfold bind at 1. rewrite Hrun.
  change (verify_output_files access cfg (with_poles l conf) MULTIPOLE_FILE
            (mpout (with_poles l conf)))
    with (verify_output_files access cfg conf MULTIPOLE_FILE (mpout conf)).
  rewrite Ef. reflexivity.
Qed.

End multipole_block.

(** * [conf_verify] as a whole *)

Section whole.

Context {D : define_h}.
Variable access : string -> amode -> Z.

Implicit Types (cfg : cfg_t) (conf : CONF) (s : stdin).

(** The computations behind a successful verification. *)
Lemma conf_verify_inr cfg conf s c s' :
  conf_verify access cfg conf s = inr (c, s') ->
  exists ninput lab bs d b npc comp pco ncf f o s1,
    verify_CATALOG_LABEL cfg conf s = inr ((ninput, lab), s)
    /\ verify_BOX_SIZE cfg conf s = inr (bs, s)
    /\ verify_DATA_STRUCT cfg conf s = inr (d, s)
    /\ verify_BINNING_SCHEME cfg conf s = inr (b, s)
    /\ verify_PAIR_COUNT cfg conf s = inr (npc, s)
    /\ verify_PAIR_COUNT_FILE access cfg conf ninput lab
         (verify_OVERWRITE cfg conf) npc s = inr ((comp, pco), s1)
    /\ verify_CF_ESTIMATOR access cfg conf b (verify_OVERWRITE cfg conf) s1
       = inr ((ncf, f), s')
    /\ verify_OUTPUT_FORMAT cfg conf s' = inr (o, s')
    /\ c = {| fconf := fconf conf; label := lab; ninput := ninput;
              has_wt := verify_WEIGHT ninput; bsize := bs;
              ovwrite := verify_OVERWRITE cfg conf; dstruct := d;
              bintype := b; pc := pc conf; npc := npc; comp_pc := comp;
              pcout := pco; cf := cf conf; ncf := ncf; cfout := f_cfout f;
              poles := f_poles f; npole := f_npole f; mpout := f_mpout f;
              wp := f_wp f; wpout := f_wpout f; ofmt := o;
              verbose := verify_VERBOSE cfg conf |}.
Proof.
  unfold conf_verify.
  intros ([ninput lab] & t1 & H1 & H)%bind_inr.
  apply bind_inr in H as (bs & t2 & H2 & H).
  apply bind_inr in H as (d & t3 & H3 & H).
  apply bind_inr in H as (b & t4 & H4 & H).
  apply bind_inr in H as (npc & t5 & H5 & H).
  apply bind_inr in H as ([comp pco] & t6 & H6 & H).
  apply bind_inr in H as ([ncf f] & t7 & H7 & H).
  apply bind_inr in H as (o & t8 & H8 & H).
  pose proof (quiet_inr _ _ _ _ (quiet_CATALOG_LABEL cfg conf) H1); subst t1.
  pose proof (quiet_inr _ _ _ _ (quiet_BOX_SIZE cfg conf) H2); subst t2.
  pose proof (quiet_inr _ _ _ _ (quiet_DATA_STRUCT cfg conf) H3); subst t3.
  pose proof (quiet_inr _ _ _ _ (quiet_BINNING_SCHEME cfg conf) H4); subst t4.
  pose proof (quiet_inr _ _ _ _ (quiet_PAIR_COUNT cfg conf) H5); subst t5.
  pose proof (quiet_inr _ _ _ _ (quiet_OUTPUT_FORMAT cfg conf) H8); subst t8.
  injection H as <- <-.
  exists ninput, lab, bs, d, b, npc, comp, pco, ncf, f, o, t6.
  repeat split; assumption.
Qed.

(** A failure of one of the first blocks is the failure of the whole, with
    the code [FCFC_ERR_CFG]. *)
Lemma conf_verify_label_fails cfg conf s :
  verify_CATALOG_LABEL cfg conf s = inl FCFC_ERR_CFG ->
  conf_verify access cfg conf s = inl FCFC_ERR_CFG.
Proof. intros H. unfold conf_verify, bind at 1. now rewrite H. Qed.

Lemma conf_verify_box_fails cfg conf s :
  verify_BOX_SIZE cfg conf s = inl FCFC_ERR_CFG ->
  conf_verify access cfg conf s = inl FCFC_ERR_CFG.
Proof.
  intros H. unfold conf_verify.
  apply quiet_then_fail; [apply quiet_CATALOG_LABEL |]. intros [n l] _.
  unfold bind at 1. now rewrite H.
Qed.

Lemma conf_verify_pair_fails cfg conf s :
  verify_PAIR_COUNT cfg conf s = inl FCFC_ERR_CFG ->
  conf_verify access cfg conf s = inl FCFC_ERR_CFG.
Proof.
  intros H. unfold conf_verify.
  apply quiet_then_fail; [apply quiet_CATALOG_LABEL |]. intros [n l] _.
  apply quiet_then_fail; [apply quiet_BOX_SIZE |]. intros bs _.
  apply quiet_then_fail; [apply quiet_DATA_STRUCT |]. intros d _.
  apply quiet_then_fail; [apply quiet_BINNING_SCHEME |]. intros b _.
  unfold bind at 1. now rewrite H.
Qed.

End whole.

(** * Properties of the verified configuration *)

Lemma upper_not_NUL c : upper c -> char_eq c NUL = false.
Proof.
  intros Hc. apply not_true_iff_false. intros ->%char_eq_true.
  unfold upper in Hc. cbn in Hc. lia.
Qed.

Lemma bad_pair_false p : bad_pair p = false <-> pair_shape p.
Proof.
  unfold bad_pair, pair_shape.
  rewrite !orb_false_iff, !not_upper_false, negb_false_iff. split.
  - intros [[H0 H1] H2]. split; [| auto].
    destruct p as [| a [| b q]]; cbn in *.
    + apply upper_not_NUL in H0. now rewrite char_eq_refl in H0.
    + apply upper_not_NUL in H1. now rewrite char_eq_refl in H1.
    + unfold char_at in H0, H1. cbn in H0, H1.
      rewrite (upper_not_NUL _ H0), (upper_not_NUL _ H1).
      destruct q as [| c q]; [reflexivity |]. unfold char_at in H2.
      cbn in H2. cbn. now rewrite H2.
  - intros (Hlen & H0 & H1). split; [auto |].
    destruct p as [| a [| b q]]; cbn in *.
    + discriminate.
    + destruct (char_eq a NUL); discriminate.
    + destruct (char_eq a NUL); [discriminate |].
      destruct (char_eq b NUL); [discriminate |].
      destruct q as [| c q]; [reflexivity |]. unfold char_at. cbn in *.
      destruct (char_eq c NUL); [reflexivity | discriminate].
Qed.

Lemma pair_eqb_letters a b : pair_eqb a b = true <-> letters a = letters b.
Proof.
  unfold pair_eqb, letters. rewrite andb_true_iff, !char_eq_true.
  split; [intros [-> ->]; reflexivity | intros [= -> ->]; auto].
Qed.

Lemma pairs_bad_false l :
  pairs_bad l = false <-> Forall pair_shape l /\ NoDup (letters <$> l).
Proof.
  unfold pairs_bad. rewrite orb_false_iff, existsb_lookup_false.
  rewrite (dup_scan_NoDup letters pair_eqb l) by apply pair_eqb_letters.
  apply and_iff_compat_r, Forall_iff. intros p. apply bad_pair_false.
Qed.

Ltac in_list :=
  repeat first [apply list_elem_of_here | apply list_elem_of_further].

Ltac notin_list :=
  let H := fresh in
  intros H;
  repeat (apply elem_of_cons in H as [H | H]; [discriminate |]);
  now apply elem_of_nil in H.

(** Decides the tests of [check_output] from the hypotheses at hand. *)
Ltac decide_policy :=
  try (rewrite check_output_nonneg by auto);
  repeat match goal with
         | |- context [(?a =? ?b)%Z] =>
             destruct (Z.eqb_spec a b); try contradiction; try lia
         | |- context [(?a <=? ?b)%Z] =>
             destruct (Z.leb_spec a b); try lia
         | |- context [(?a >=? ?b)%Z] => rewrite Z.geb_leb
         end;
  try reflexivity.

Section properties.

Context {D : define_h}.
Variable access : string -> amode -> Z.

Implicit Types (cfg : cfg_t) (conf : CONF) (s : stdin).

(** C7: duplicated catalog labels and duplicated pair identifiers are
    rejected.  If two configured labels are the same character, or two of
    the requested pair identifiers have the same two letters, [conf_verify]
    returns [FCFC_ERR_CFG]; in a configuration that passes the verification
    the labels are pairwise distinct and so are the pair identifiers (even
    their pairs of letters). *)
Theorem duplicates_rejected cfg conf s :
  (cfg_is_set cfg CATALOG_LABEL = true -> ~ NoDup (label conf) ->
     conf_verify access cfg conf s = inl FCFC_ERR_CFG)
  /\ ((exists i j, i < j < length (pc conf)
         /\ letters (pc conf !!! i) = letters (pc conf !!! j)) ->
      conf_verify access cfg conf s = inl FCFC_ERR_CFG)
  /\ (forall c s', conf_verify access cfg conf s = inr (c, s') ->
      NoDup (label c) /\ NoDup (pc c) /\ NoDup (letters <$> pc c)).
Proof.
  split; [| split].
  - intros Hset Hdup. apply conf_verify_label_fails.
    rewrite verify_CATALOG_LABEL_eq. unfold cfg_get_size.
    unfold cfg_is_set in Hset. rewrite Hset. cbn [param_size].
    destruct (label conf) as [| a l] eqn:El.
    + destruct Hdup. constructor.
    + cbn [length Nat.eqb]. destruct (labels_bad (a :: l)) eqn:Eb;
        [reflexivity |].
      apply labels_bad_false in Eb as [_ Hnd]. contradiction.
  - intros (i & j & Hij & Heq). apply conf_verify_pair_fails.
    rewrite verify_PAIR_COUNT_eq. destruct (_ =? 0); [reflexivity |].
    destruct (pairs_bad (pc conf)) eqn:Eb; [reflexivity |].
    unfold pairs_bad in Eb. apply orb_false_iff in Eb as [_ Hscan].
    rewrite dup_scan_false in Hscan. specialize (Hscan i j Hij).
    apply pair_eqb_letters in Heq. congruence.
  - intros c s' Hok.
    apply conf_verify_inr in Hok
      as (ni & lab & bs & d & b & np & comp & pco & nc & f & o & s1
          & Hlab & _ & _ & _ & Hpc & _ & _ & _ & ->).
    cbn [label pc]. split; [| split].
    + rewrite verify_CATALOG_LABEL_eq in Hlab. destruct (_ =? 0).
      * injection Hlab as <- <-. constructor.
      * destruct (labels_bad (label conf)) eqn:Eb; [discriminate |].
        injection Hlab as <- <-. now apply labels_bad_false in Eb.
    + rewrite verify_PAIR_COUNT_eq in Hpc. destruct (_ =? 0); [discriminate |].
      destruct (pairs_bad (pc conf)) eqn:Eb; [discriminate |].
      apply pairs_bad_false in Eb as [_ Hnd]. now apply NoDup_fmap_1 in Hnd.
    + rewrite verify_PAIR_COUNT_eq in Hpc. destruct (_ =? 0); [discriminate |].
      destruct (pairs_bad (pc conf)) eqn:Eb; [discriminate |].
      now apply pairs_bad_false in Eb.
Qed.

(** C4: every requested pair identifier must consist of exactly two
    uppercase letters.  An identifier with a character outside 'A'..'Z' or
    of a length other than two makes [conf_verify] return [FCFC_ERR_CFG],
    and every identifier of a configuration that passes has that shape. *)
Theorem pair_identifier_shape cfg conf s :
  ((exists p, p ∈ pc conf /\ ~ pair_shape p) ->
     conf_verify access cfg conf s = inl FCFC_ERR_CFG)
  /\ (forall c s', conf_verify access cfg conf s = inr (c, s') ->
      Forall pair_shape (pc c)).
Proof.
  split.
  - intros (p & Hin & Hbad). apply conf_verify_pair_fails.
    rewrite verify_PAIR_COUNT_eq. destruct (_ =? 0); [reflexivity |].
    destruct (pairs_bad (pc conf)) eqn:Eb; [reflexivity |].
    apply pairs_bad_false in Eb as [Hall _].
    rewrite Forall_forall in Hall. destruct Hbad. auto.
  - intros c s' Hok.
    apply conf_verify_inr in Hok
      as (ni & lab & bs & d & b & np & comp & pco & nc & f & o & s1
          & _ & _ & _ & _ & Hpc & _ & _ & _ & ->).
    cbn [pc]. rewrite verify_PAIR_COUNT_eq in Hpc.
    destruct (_ =? 0); [discriminate |].
    destruct (pairs_bad (pc conf)) eqn:Eb; [discriminate |].
    now apply pairs_bad_false in Eb.
Qed.

(** C3, as the code has it: the box is required.  A configuration without
    box side lengths makes [conf_verify] return [FCFC_ERR_CFG].  When a
    configuration passes, BOX_SIZE was set, its first three values are
    positive finite doubles, and a single value has been expanded to three
    equal side lengths. *)
Theorem box_size_required cfg conf s :
  (cfg_get_size cfg conf BOX_SIZE = 0 ->
     conf_verify access cfg conf s = inl FCFC_ERR_CFG)
  /\ (forall c s', conf_verify access cfg conf s = inr (c, s') ->
      cfg_is_set cfg BOX_SIZE = true
      /\ (forall i, i < 3 -> positive_finite (bsize c !!! i))
      /\ (forall v, bsize conf = [v] -> bsize c = [v; v; v])
      /\ (length (bsize conf) <> 1 ->
          bsize c = bsize conf /\ 3 <= length (bsize conf))).
Proof.
  split.
  - intros H0. apply conf_verify_box_fails. rewrite verify_BOX_SIZE_eq.
    cbn zeta. now rewrite H0.
  - intros c s' Hok.
    apply conf_verify_inr in Hok
      as (ni & lab & bs & d & b & np & comp & pco & nc & f & o & s1
          & _ & Hbox & _ & _ & _ & _ & _ & _ & ->).
    cbn [bsize]. rewrite verify_BOX_SIZE_eq in Hbox. cbn zeta in Hbox.
    destruct (Nat.eqb_spec (cfg_get_size cfg conf BOX_SIZE) 0) as [| Hn];
      [discriminate |].
    apply cfg_get_size_nonzero in Hn as [Hset Hsz]. rewrite Hsz in Hbox.
    cbn [param_size] in Hbox. split; [exact Hset |].
    destruct (Nat.eqb_spec (length (bsize conf)) 1) as [H1 | H1].
    + destruct (box_bad _) eqn:Eb; [discriminate |]. injection Hbox as <-.
      split; [now apply box_bad_false |]. split; [| easy].
      intros v Hv. now rewrite Hv.
    + destruct (Nat.ltb_spec (length (bsize conf)) 3) as [| H3];
        [discriminate |].
      destruct (box_bad _) eqn:Eb; [discriminate |]. injection Hbox as <-.
      split; [now apply box_bad_false |]. split; [| auto].
      intros v Hv. rewrite Hv in H1. now destruct H1.
Qed.

(** C5: a pair that is going to be counted must name existing catalogs.
    With distinct labels, the check of one identifier succeeds exactly when
    both of its letters are labels (the letter of an auto pair is counted
    for both positions) and fails with [FCFC_ERR_CFG] otherwise.  In a
    configuration that passes, every pair marked for counting has both
    letters among the labels; and when no pair count file is configured
    (every pair is counted), an identifier with a letter that is not a
    configured label makes [conf_verify] return [FCFC_ERR_CFG]. *)
Theorem counted_pairs_have_labels cfg conf s :
  (forall lab p inp, NoDup lab ->
     (check_labels (length lab) lab p inp = inr (tt, inp)
        <-> labels_exist lab p)
     /\ (~ labels_exist lab p ->
         check_labels (length lab) lab p inp = inl FCFC_ERR_CFG))
  /\ (forall c s', conf_verify access cfg conf s = inr (c, s') ->
      forall i, comp_pc c !! i = Some true ->
      i < npc c /\ labels_exist (label c) (pc c !!! i))
  /\ (cfg_is_set cfg PAIR_COUNT_FILE = false ->
      (exists p, p ∈ pc conf
         /\ ~ labels_exist (configured_labels cfg conf) p) ->
      conf_verify access cfg conf s = inl FCFC_ERR_CFG).
Proof.
  split; [| split].
  - intros lab p inp Hnd. rewrite check_labels_eq.
    pose proof (label_found_2 lab p Hnd) as H2. unfold labels_exist. split.
    + destruct (Nat.eqb_spec (label_found (length lab) lab p) 2) as [E | E].
      * split; [intros _; now apply H2 | reflexivity].
      * split; [discriminate | intros Hex; now apply H2 in Hex].
    + intros Hno.
      destruct (Nat.eqb_spec (label_found (length lab) lab p) 2) as [E | E];
        [| reflexivity].
      apply H2 in E. contradiction.
  - intros c s' Hok i Hi.
    apply conf_verify_inr in Hok
      as (ni & lab & bs & d & b & np & comp & pco & nc & f & o & s1
          & Hlab & _ & _ & _ & _ & Hpcf & _ & _ & ->).
    cbn [comp_pc npc label pc] in *.
    apply verify_CATALOG_LABEL_inr in Hlab as (_ & -> & Hnd & _).
    apply verify_PAIR_COUNT_FILE_inr in Hpcf as [[Hlen Hmark] _].
    pose proof (lookup_lt_Some _ _ _ Hi) as Hlt. rewrite Hlen in Hlt.
    split; [exact Hlt |].
    destruct (Hmark i Hlt) as [[_ H2] | [Hf _]]; [| congruence].
    now apply label_found_2 in H2.
  - intros Hset (p & Hin & Hno). unfold conf_verify.
    apply quiet_then_fail; [apply quiet_CATALOG_LABEL |]. intros [n lab] Hlab.
    apply quiet_then_fail; [apply quiet_BOX_SIZE |]. intros bs _.
    apply quiet_then_fail; [apply quiet_DATA_STRUCT |]. intros d _.
    apply quiet_then_fail; [apply quiet_BINNING_SCHEME |]. intros b _.
    apply quiet_then_fail; [apply quiet_PAIR_COUNT |]. intros npc Hpc.
    apply quiet_then_fail; [now apply quiet_PAIR_COUNT_FILE_unset |].
    intros [comp pco] Hpcf. exfalso.
    apply verify_CATALOG_LABEL_inr in Hlab as (-> & -> & Hnd & _).
    apply verify_PAIR_COUNT_FILE_inr in Hpcf as [[Hlen Hmark] _].
    rewrite verify_PAIR_COUNT_eq in Hpc. destruct (_ =? 0); [discriminate |].
    destruct (pairs_bad _); [discriminate |]. injection Hpc as <-.
    apply list_elem_of_lookup_total in Hin as (k & Hk & <-).
    destruct (Hmark k Hk) as [[_ H2] | [_ Hf]]; [| congruence].
    apply label_found_2 in H2; [| exact Hnd]. now apply Hno.
Qed.

(** C9: when CATALOG_LABEL is not set, the number of catalogs is the size
    of the (absent) label array, hence zero, and no default label is
    assigned; the label check of any pair then fails with [FCFC_ERR_CFG].
    So a configuration without labels passes only if output files are
    configured and every pair is marked as read from its file; without
    output files [conf_verify] returns [FCFC_ERR_CFG]. *)
Theorem unset_labels_count_nothing cfg conf s :
  cfg_is_set cfg CATALOG_LABEL = false ->
  verify_CATALOG_LABEL cfg conf s = inr ((0, []), s)
  /\ (forall p inp, check_labels 0 [] p inp = inl FCFC_ERR_CFG)
  /\ (forall c s', conf_verify access cfg conf s = inr (c, s') ->
      ninput c = 0 /\ label c = []
      /\ cfg_is_set cfg PAIR_COUNT_FILE = true
      /\ comp_pc c = replicate (npc c) false)
  /\ (cfg_is_set cfg PAIR_COUNT_FILE = false ->
      conf_verify access cfg conf s = inl FCFC_ERR_CFG).
Proof.
  intros Hunset.
  assert (Hstage : verify_CATALOG_LABEL cfg conf s = inr ((0, []), s)).
  { rewrite verify_CATALOG_LABEL_eq. unfold cfg_get_size.
    unfold cfg_is_set in Hunset. now rewrite Hunset. }
  split; [exact Hstage |]. split; [reflexivity |]. split.
  - intros c s' Hok.
    apply conf_verify_inr in Hok
      as (ni & lab & bs & d & b & np & comp & pco & nc & f & o & s1
          & Hlab & _ & _ & _ & Hpc & Hpcf & _ & _ & ->).
    cbn [comp_pc npc label ninput].
    rewrite Hstage in Hlab. injection Hlab as <- <-.
    apply verify_PAIR_COUNT_FILE_inr in Hpcf as [[Hlen Hmark] _].
    rewrite verify_PAIR_COUNT_eq in Hpc.
    destruct (Nat.eqb_spec (cfg_get_size cfg conf PAIR_COUNT) 0) as [| Hn];
      [discriminate |].
    pose proof (cfg_get_size_nonzero _ _ _ Hn) as [_ Hsz]. cbn in Hsz.
    destruct (pairs_bad _); [discriminate |]. injection Hpc as <-.
    assert (Hall : forall k, k < length (pc conf) ->
              comp !! k = Some false
              /\ cfg_is_set cfg PAIR_COUNT_FILE = true).
    { intros k Hk. destruct (Hmark k Hk) as [[_ H2] | Hf]; [| exact Hf].
      discriminate. }
    repeat split; try reflexivity.
    + destruct (pc conf) as [| p l] eqn:Epc.
      * cbn in Hsz. contradiction.
      * apply (Hall 0). cbn. lia.
    + apply list_eq. intros k.
      destruct (decide (k < length (pc conf))) as [Hk | Hk].
      * rewrite lookup_replicate_2 by exact Hk. now apply Hall.
      * rewrite !lookup_ge_None_2; [reflexivity | |].
        -- rewrite length_replicate. lia.
        -- lia.
  - intros Hset. unfold conf_verify. unfold bind at 1. rewrite Hstage.
    apply quiet_then_fail; [apply quiet_BOX_SIZE |]. intros bs _.
    apply quiet_then_fail; [apply quiet_DATA_STRUCT |]. intros d _.
    apply quiet_then_fail; [apply quiet_BINNING_SCHEME |]. intros b _.
    apply quiet_then_fail; [apply quiet_PAIR_COUNT |]. intros npc Hpc.
    apply quiet_then_fail; [now apply quiet_PAIR_COUNT_FILE_unset |].
    intros [comp pco] Hpcf. exfalso.
    apply verify_PAIR_COUNT_FILE_inr in Hpcf as [[Hlen Hmark] _].
    rewrite verify_PAIR_COUNT_eq in Hpc.
    destruct (Nat.eqb_spec (cfg_get_size cfg conf PAIR_COUNT) 0) as [| Hn];
      [discriminate |].
    pose proof (cfg_get_size_nonzero _ _ _ Hn) as [_ Hsz]. cbn in Hsz.
    destruct (pairs_bad _); [discriminate |]. injection Hpc as <-.
    destruct (pc conf) as [| p l] eqn:Epc.
    + cbn in Hsz. contradiction.
    + destruct (Hmark 0) as [[_ H2] | [_ Hf]]; [cbn; lia | discriminate |].
      congruence.
Qed.

(** C1, as the code has it: the multipole orders.  For a configuration
    that requests multipoles (an estimator is given, the binning scheme is
    (s, mu) and MULTIPOLE is not empty):
    - if one of the requested orders lies outside [0, FCFC_MAX_ELL], the
      MULTIPOLE block fails with [FCFC_ERR_CFG] and [conf_verify] fails; its
      code is [FCFC_ERR_CFG] when neither PAIR_COUNT_FILE nor
      CF_OUTPUT_FILE is set (their files are checked before the orders and
      may fail first, with their own code);
    - if all of them lie in the range, the MULTIPOLE block accepts them: it
      goes on to the MULTIPOLE_FILE files with the orders sorted and without
      duplicates, and succeeds when MULTIPOLE_FILE is not set;
    - after a successful verification the first [npole] cells of [poles] are
      strictly increasing, contain exactly the requested orders, [npole] is
      the number of distinct requested orders, and all of them lie in the
      range;
    - a configuration that passes the verification passes it with any
      other nonempty list of orders in the range, and the first [npole]
      cells of [poles] then hold exactly the distinct orders of that list,
      strictly increasing. *)
Theorem multipoles_sorted_in_range cfg conf s :
  cfg_get_size cfg conf CF_ESTIMATOR <> 0 ->
  cfg_get_size cfg conf MULTIPOLE <> 0 ->
  (if negb (cfg_is_set cfg BINNING_SCHEME) then DEFAULT_BINNING
   else bintype conf) = FCFC_BIN_SMU ->
  ((exists x, x ∈ poles conf /\ ~ in_range x) ->
     (forall t,
        verify_MULTIPOLE access cfg conf (cfg_get_size cfg conf CF_ESTIMATOR)
          (verify_OVERWRITE cfg conf) t = inl FCFC_ERR_CFG)
     /\ (exists e, conf_verify access cfg conf s = inl e)
     /\ (cfg_is_set cfg PAIR_COUNT_FILE = false ->
         cfg_is_set cfg CF_OUTPUT_FILE = false ->
         conf_verify access cfg conf s = inl FCFC_ERR_CFG))
  /\ (Forall in_range (poles conf) ->
      exists np ps,
        StronglySorted Z.lt (take np ps)
        /\ (forall x, x ∈ take np ps <-> x ∈ poles conf)
        /\ np = length (remove_dups (poles conf))
        /\ (forall t,
              verify_MULTIPOLE access cfg conf
                (cfg_get_size cfg conf CF_ESTIMATOR)
                (verify_OVERWRITE cfg conf) t =
              match verify_output_files access cfg conf MULTIPOLE_FILE
                      (mpout conf) (cfg_get_size cfg conf CF_ESTIMATOR)
                      (verify_OVERWRITE cfg conf) t with
              | inl e => inl e
              | inr (mp, t') => inr ((np, ps, mp), t')
              end)
        /\ (cfg_is_set cfg MULTIPOLE_FILE = false ->
            forall t,
              verify_MULTIPOLE access cfg conf
                (cfg_get_size cfg conf CF_ESTIMATOR)
                (verify_OVERWRITE cfg conf) t = inr ((np, ps, []), t)))
  /\ (forall c s', conf_verify access cfg conf s = inr (c, s') ->
      StronglySorted Z.lt (take (npole c) (poles c))
      /\ (forall x, x ∈ take (npole c) (poles c) <-> x ∈ poles conf)
      /\ length (take (npole c) (poles c)) = npole c
      /\ npole c = length (remove_dups (poles conf))
      /\ Forall in_range (poles conf))
  /\ (forall c s', conf_verify access cfg conf s = inr (c, s') ->
      forall l, l <> [] -> Forall in_range l ->
      exists c',
        conf_verify access cfg (with_poles l conf) s = inr (c', s')
        /\ StronglySorted Z.lt (take (npole c') (poles c'))
        /\ (forall x, x ∈ take (npole c') (poles c') <-> x ∈ l)
        /\ npole c' = length (remove_dups l)).
Proof.
  intros Hcf Hmp Hsmu.
  assert (Hcount : forall (np : nat) (ps l : list Z),
            StronglySorted Z.lt (take np ps) ->
            (forall x, x ∈ take np ps <-> x ∈ l) ->
            length (take np ps) = np ->
            np = length (remove_dups l)).
  { intros np ps l Hs Hin Hlen. rewrite <- Hlen at 1.
    apply Permutation_length, NoDup_Permutation.
    - now apply StronglySorted_lt_NoDup.
    - apply NoDup_remove_dups.
    - intros x. rewrite elem_of_remove_dups. apply Hin. }
  assert (Hok : forall c s', conf_verify access cfg conf s = inr (c, s') ->
      StronglySorted Z.lt (take (npole c) (poles c))
      /\ (forall x, x ∈ take (npole c) (poles c) <-> x ∈ poles conf)
      /\ length (take (npole c) (poles c)) = npole c
      /\ npole c = length (remove_dups (poles conf))
      /\ Forall in_range (poles conf)).
  { intros c s' Hc.
    apply conf_verify_inr in Hc
      as (ni & lab & bs & d & b & np & comp & pco & nc & f & o & s1
          & _ & _ & _ & Hb & _ & _ & Hest & _ & ->).
    cbn [npole poles].
    apply verify_BINNING_SCHEME_inr in Hb. rewrite Hsmu in Hb. subst b.
    apply verify_CF_ESTIMATOR_smu in Hest as [t Hm]; [| exact Hcf].
    apply verify_MULTIPOLE_inr in Hm as (Hs & Hin & Hlen & Hr);
      [| exact Hmp].
    repeat split; auto; try apply Hin. eapply Hcount; eauto. }
  split; [| split; [| split; [exact Hok |]]].
  - intros (x & Hx & Hout). split; [| split].
    + intros t. apply verify_MULTIPOLE_out_of_range; eauto.
    + destruct (conf_verify access cfg conf s) as [e | [c s']] eqn:E;
        [eauto |].
      destruct (Hok c s' eq_refl) as (_ & _ & _ & _ & Hr).
      rewrite Forall_forall in Hr. destruct Hout. auto.
    + intros Hpcf Hcfo. unfold conf_verify.
      apply quiet_then_fail; [apply quiet_CATALOG_LABEL |]. intros [n lab] _.
      apply quiet_then_fail; [apply quiet_BOX_SIZE |]. intros bs _.
      apply quiet_then_fail; [apply quiet_DATA_STRUCT |]. intros d _.
      apply quiet_then_fail; [apply quiet_BINNING_SCHEME |]. intros b Hb.
      apply quiet_then_fail; [apply quiet_PAIR_COUNT |]. intros np _.
      apply quiet_then_fail; [now apply quiet_PAIR_COUNT_FILE_unset |].
      intros [comp pco] _.
      apply verify_BINNING_SCHEME_inr in Hb. rewrite Hsmu in Hb. subst b.
      unfold bind at 1.
      rewrite verify_CF_ESTIMATOR_out_of_range; eauto.
  - intros Hr.
    destruct (verify_MULTIPOLE_in_range access cfg conf
                (cfg_get_size cfg conf CF_ESTIMATOR)
                (verify_OVERWRITE cfg conf) Hmp Hr)
      as (np & ps & Hs & Hin & Hlen & Hrun).
    exists np, ps. split; [exact Hs |]. split; [exact Hin |].
    split; [eapply Hcount; eauto |]. split; [exact Hrun |].
    intros Hset t. rewrite Hrun. unfold verify_output_files.
    now rewrite Hset.
  - intros c s' Hc l Hl Hr.
    apply conf_verify_inr in Hc
      as (ni & lab & bs & d & b & np & comp & pco & nc & f & o & s1
          & Hlab & Hbox & Hds & Hbin & Hpc & Hpcf & Hest & Hfmt & ->).
    pose proof (verify_BINNING_SCHEME_inr _ _ _ _ _ Hbin) as Hb.
    rewrite Hsmu in Hb. subst b.
    destruct (verify_CF_ESTIMATOR_smu_orders access _ _ _ _ _ _ _ l
                Hcf Hmp Hest Hl Hr)
      as (np' & ps' & Hest' & Hs & Hin & Hlen).
    exists {| fconf := fconf conf; label := lab; ninput := ni;
              has_wt := verify_WEIGHT ni; bsize := bs;
              ovwrite := verify_OVERWRITE cfg conf; dstruct := d;
              bintype := FCFC_BIN_SMU; pc := pc conf; npc := np;
              comp_pc := comp; pcout := pco; cf := cf conf; ncf := nc;
              cfout := f_cfout f; poles := ps'; npole := np';
              mpout := f_mpout f; wp := f_wp f; wpout := f_wpout f;
              ofmt := o; verbose := verify_VERBOSE cfg conf |}.
    cbn [npole poles]. split; [| split; [exact Hs |]].
    + unfold conf_verify.
      change (verify_CATALOG_LABEL cfg (with_poles l conf))
        with (verify_CATALOG_LABEL cfg conf).
      unfold bind at 1. rewrite Hlab.
      change (verify_BOX_SIZE cfg (with_poles l conf))
        with (verify_BOX_SIZE cfg conf).
      unfold bind at 1. rewrite Hbox.
      change (verify_DATA_STRUCT cfg (with_poles l conf))
        with (verify_DATA_STRUCT cfg conf).
      unfold bind at 1. rewrite Hds.
      change (verify_BINNING_SCHEME cfg (with_poles l conf))
        with (verify_BINNING_SCHEME cfg conf).
      unfold bind at 1. rewrite Hbin.
      change (verify_PAIR_COUNT cfg (with_poles l conf))
        with (verify_PAIR_COUNT cfg conf).
      unfold bind at 1. rewrite Hpc.
      change (verify_OVERWRITE cfg (with_poles l conf))
        with (verify_OVERWRITE cfg conf).
      change (verify_PAIR_COUNT_FILE access cfg (with_poles l conf))
        with (verify_PAIR_COUNT_FILE access cfg conf).
      unfold bind at 1. rewrite Hpcf.
      unfold bind at 1. rewrite Hest'.
      change (verify_OUTPUT_FORMAT cfg (with_poles l conf))
        with (verify_OUTPUT_FORMAT cfg conf).
      unfold bind at 1. rewrite Hfmt. reflexivity.
    + split; [exact Hin | eapply Hcount; eauto].
Qed.


(** C6, as the code has it.  For a configured output file and a
    non-negative overwrite level, the file is marked to be read
    ([check_output] returns [FCFC_ERR_SAVE] and [comp_pc[i]] becomes false)
    exactly when it exists, the level lies strictly between
    [FCFC_OVERWRITE_NONE] and [FCFC_OVERWRITE_ALL], and it is readable.
    The run aborts with [FCFC_ERR_FILE] when the file exists and the level
    is at most [FCFC_OVERWRITE_NONE], when it exists in the reading range
    but is not readable, when it exists at a level of at least
    [FCFC_OVERWRITE_ALL] but is not writable, and when it does not exist
    and its directory cannot be entered.  Otherwise the pair is marked for
    counting ([comp_pc[i]] becomes true, followed by the label check). *)
Theorem pair_file_policy fname ov inp :
  char_at fname 0 <> NUL -> (0 <= ov)%Z ->
  exists e,
    check_output access fname ov FCFC_OVERWRITE_ALL inp = (e, inp)
    /\ (e = Some FCFC_ERR_SAVE <->
        access fname F_OK = 0%Z
        /\ (FCFC_OVERWRITE_NONE < ov < FCFC_OVERWRITE_ALL)%Z
        /\ access fname R_OK = 0%Z)
    /\ (e = Some FCFC_ERR_FILE <->
        (access fname F_OK = 0%Z
         /\ ((ov <= FCFC_OVERWRITE_NONE)%Z
             \/ ((FCFC_OVERWRITE_NONE < ov < FCFC_OVERWRITE_ALL)%Z
                 /\ access fname R_OK <> 0%Z)
             \/ ((FCFC_OVERWRITE_NONE < ov)%Z
                 /\ (FCFC_OVERWRITE_ALL <= ov)%Z
                 /\ access fname W_OK <> 0%Z)))
        \/ (access fname F_OK <> 0%Z /\ dir_blocked access fname))
    /\ (e = None \/ e = Some FCFC_ERR_SAVE \/ e = Some FCFC_ERR_FILE)
    /\ (forall conf n lab i comp,
        i < length comp -> pcout conf !!! i = fname ->
        pair_file_step access conf n lab ov i comp inp =
          match e with
          | None =>
              if label_found n lab (pc conf !!! i) =? 2
              then inr (<[i := true]> comp, inp)
              else inl FCFC_ERR_CFG
          | Some FCFC_ERR_SAVE => inr (<[i := false]> comp, inp)
          | Some err => inl err
          end).
Proof.
  intros Hname Hov.
  pose proof (check_output_nonneg access fname ov FCFC_OVERWRITE_ALL inp
                Hname Hov) as Heq.
  eexists. split; [exact Heq |]. clear Heq.
  assert (Hstep : forall e conf n lab i comp,
    check_output access fname ov FCFC_OVERWRITE_ALL inp = (e, inp) ->
    i < length comp -> pcout conf !!! i = fname ->
    pair_file_step access conf n lab ov i comp inp =
      match e with
      | None =>
          if label_found n lab (pc conf !!! i) =? 2
          then inr (<[i := true]> comp, inp)
          else inl FCFC_ERR_CFG
      | Some FCFC_ERR_SAVE => inr (<[i := false]> comp, inp)
      | Some err => inl err
      end).
  { intros e conf n lab i comp He Hi Hf. unfold pair_file_step, call.
    unfold bind at 1. rewrite Hf, He.
    destruct e as [[] |]; try reflexivity.
    - unfold bind. cbn. now rewrite list_lookup_total_insert_eq by exact Hi.
    - unfold bind. cbn. rewrite list_lookup_total_insert_eq by exact Hi.
      rewrite check_labels_eq. now destruct (_ =? 2). }
  unfold dir_blocked.
  destruct (Z.eqb_spec (access fname F_OK) 0) as [Hex | Hex].
  - destruct (Z.leb_spec ov FCFC_OVERWRITE_NONE) as [Hle | Hgt].
    + split; [split; [discriminate | lia] |].
      split; [split; [intros _; left; auto | reflexivity] |].
      split; [auto |]. intros.
      apply (Hstep (Some FCFC_ERR_FILE)); auto. decide_policy.
    + rewrite Z.geb_leb.
      destruct (Z.leb_spec FCFC_OVERWRITE_ALL ov) as [Hall | Hall].
      * destruct (Z.eqb_spec (access fname W_OK) 0) as [Hw | Hw].
        -- split; [split; [discriminate | lia] |].
           split; [split; [discriminate |] |].
           { intros [(_ & [? | [[? _] | (_ & _ & ?)]]) | [? _]];
               try lia; contradiction. }
           split; [auto |]. intros. apply (Hstep None); auto.
           decide_policy.
        -- split; [split; [discriminate | lia] |].
           split; [split; [intros _ | reflexivity] |].
           { left. split; [exact Hex |]. right. right. auto. }
           split; [auto |]. intros.
           apply (Hstep (Some FCFC_ERR_FILE)); auto. decide_policy.
      * destruct (Z.eqb_spec (access fname R_OK) 0) as [Hr | Hr].
        -- split; [split; [auto | reflexivity] |].
           split; [split; [discriminate |] |].
           { intros [(_ & [? | [[_ ?] | (_ & ? & _)]]) | [? _]];
               try lia; contradiction. }
           split; [auto |]. intros.
           apply (Hstep (Some FCFC_ERR_SAVE)); auto. decide_policy.
        -- split; [split; [discriminate | intros (_ & _ & ?); contradiction] |].
           split; [split; [intros _ | reflexivity] |].
           { left. split; [exact Hex |]. right. left. split; [lia | auto]. }
           split; [auto |]. intros.
           apply (Hstep (Some FCFC_ERR_FILE)); auto. decide_policy.
  - destruct (strrchr fname FCFC_PATH_SEP) as [k |] eqn:Ek.
    + destruct (Z.eqb_spec (access (substring 0 k fname) X_OK) 0)
        as [Hx | Hx].
      * split; [split; [discriminate | intros [? _]; contradiction] |].
        split; [split; [discriminate |] |].
        { intros [[? _] | (_ & k' & [= <-] & ?)]; contradiction. }
        split; [auto |]. intros. apply (Hstep None); auto.
        decide_policy. rewrite Ek. decide_policy.
      * split; [split; [discriminate | intros [? _]; contradiction] |].
        split; [split; [intros _; right; eauto | reflexivity] |].
        split; [auto |]. intros.
        apply (Hstep (Some FCFC_ERR_FILE)); auto.
        decide_policy. rewrite Ek. decide_policy.
    + split; [split; [discriminate | intros [? _]; contradiction] |].
      split; [split; [discriminate |] |].
      { intros [[? _] | (_ & k' & [=] & _)]. contradiction. }
      split; [auto |]. intros. apply (Hstep None); auto.
      decide_policy. now rewrite Ek.
Qed.

(** C10: the labels of a pair are checked only when the pair is counted.
    A round of the loop whose [check_output] returns [FCFC_ERR_SAVE] sets
    [comp_pc[i]] to false and succeeds whatever the labels and the
    identifier are.  Hence, when a configuration passes with every pair
    read from its file, it passes with the same pairs for any other valid
    set of labels, in particular one that contains none of their
    letters. *)
Theorem read_pairs_skip_label_check cfg conf s :
  (forall n lab ov i comp t t',
     i < length comp ->
     check_output access (pcout conf !!! i) ov FCFC_OVERWRITE_ALL t
       = (Some FCFC_ERR_SAVE, t') ->
     pair_file_step access conf n lab ov i comp t
       = inr (<[i := false]> comp, t'))
  /\ (forall c s',
      conf_verify access cfg conf s = inr (c, s') ->
      comp_pc c = replicate (npc c) false ->
      forall lab',
      cfg_is_set cfg CATALOG_LABEL = true ->
      lab' <> [] -> Forall upper lab' -> NoDup lab' ->
      exists c',
        conf_verify access cfg (with_label lab' conf) s = inr (c', s')
        /\ label c' = lab' /\ pc c' = pc c
        /\ comp_pc c' = comp_pc c /\ pcout c' = pcout c).
Proof.
  split; [intros; now apply pair_file_step_save |].
  intros c s' Hok Hread lab' Hset Hne Hup Hnd.
  apply conf_verify_inr in Hok
    as (ni & lab & bs & d & b & np & comp & pco & nc & f & o & s1
        & Hlab & Hbox & Hds & Hbin & Hpc & Hpcf & Hest & Hfmt & ->).
  cbn [comp_pc npc] in Hread. cbn [label pc comp_pc pcout].
  assert (Hnp : np <> 0).
  { rewrite verify_PAIR_COUNT_eq in Hpc.
    destruct (Nat.eqb_spec (cfg_get_size cfg conf PAIR_COUNT) 0) as [| Hn];
      [discriminate |].
    pose proof (cfg_get_size_nonzero _ _ _ Hn) as [_ Hsz]. cbn in Hsz.
    destruct (pairs_bad _); [discriminate |]. injection Hpc as <-.
    congruence. }
  assert (Hlab' : verify_CATALOG_LABEL cfg (with_label lab' conf) s
                  = inr ((length lab', lab'), s)).
  { rewrite verify_CATALOG_LABEL_eq. unfold cfg_get_size.
    unfold cfg_is_set in Hset. rewrite Hset. cbn [param_size with_label label].
    destruct lab' as [| a l]; [contradiction |]. cbn [length Nat.eqb].
    now rewrite (proj2 (labels_bad_false (a :: l)) (conj Hup Hnd)). }
  eapply verify_PAIR_COUNT_FILE_indep
    with (n2 := length lab') (l2 := lab') in Hpcf; [| exact Hnp |].
  2: { intros k Hk. rewrite Hread. now apply lookup_replicate_2. }
  assert (Hrun : conf_verify access cfg (with_label lab' conf) s
                 = inr ({| fconf := fconf conf; label := lab';
                           ninput := length lab';
                           has_wt := verify_WEIGHT (length lab');
                           bsize := bs;
                           ovwrite := verify_OVERWRITE cfg conf;
                           dstruct := d; bintype := b; pc := pc conf;
                           npc := np; comp_pc := comp; pcout := pco;
                           cf := cf conf; ncf := nc; cfout := f_cfout f;
                           poles := f_poles f; npole := f_npole f;
                           mpout := f_mpout f; wp := f_wp f;
                           wpout := f_wpout f; ofmt := o;
                           verbose := verify_VERBOSE cfg conf |}, s')).
  { unfold conf_verify. unfold bind at 1. rewrite Hlab'.
    change (verify_BOX_SIZE cfg (with_label lab' conf))
      with (verify_BOX_SIZE cfg conf).
    unfold bind at 1. rewrite Hbox.
    change (verify_DATA_STRUCT cfg (with_label lab' conf))
      with (verify_DATA_STRUCT cfg conf).
    unfold bind at 1. rewrite Hds.
    change (verify_BINNING_SCHEME cfg (with_label lab' conf))
      with (verify_BINNING_SCHEME cfg conf).
    unfold bind at 1. rewrite Hbin.
    change (verify_PAIR_COUNT cfg (with_label lab' conf))
      with (verify_PAIR_COUNT cfg conf).
    unfold bind at 1. rewrite Hpc.
    change (verify_OVERWRITE cfg (with_label lab' conf))
      with (verify_OVERWRITE cfg conf).
    change (verify_PAIR_COUNT_FILE access cfg (with_label lab' conf))
      with (verify_PAIR_COUNT_FILE access cfg conf).
    unfold bind at 1. rewrite Hpcf.
    change (verify_CF_ESTIMATOR access cfg (with_label lab' conf))
      with (verify_CF_ESTIMATOR access cfg conf).
    unfold bind at 1. rewrite Hest.
    change (verify_OUTPUT_FORMAT cfg (with_label lab' conf))
      with (verify_OUTPUT_FORMAT cfg conf).
    unfold bind at 1. rewrite Hfmt. reflexivity. }
  eexists. split; [exact Hrun |]. cbn. auto.
Qed.

End properties.

(** * The bin invariant and its test *)







(** * The theorems at concrete configurations *)

Lemma conf_DR_accepted :
  conf_verify fs_empty cfg_DR conf_DR "" = inr (verified_DR, ""%string).
Proof. reflexivity. Qed.

Lemma conf_files_read :
  conf_verify fs_full cfg_files conf_files ""
  = inr ({| fconf := "fcfc.conf"; label := ["D"; "R"]%char; ninput := 2;
            has_wt := [true; true];
            bsize := [box1000; box1000; box1000]; ovwrite := 1;
            dstruct := 0; bintype := 1;
            pc := ["DD"; "DR"; "RR"]%string; npc := 3;
            comp_pc := [false; false; false];
            pcout := ["DD.dat"; "DR.dat"; "RR.dat"]%string;
            cf := ["(DD-2*DR+RR)/RR"]%string; ncf := 1; cfout := [];
            poles := [0; 2]%Z; npole := 2; mpout := []; wp := false;
            wpout := []; ofmt := 0; verbose := true |}, ""%string).
Proof. reflexivity. Qed.

(** The prompt: at the level -2 the answers "x" and "y" overwrite the
    file, the answer "n" keeps a pair count file (it is read), and two
    useless answers abort. *)
Example check_output_prompt :
  check_output fs_full "DD.dat" (-2) FCFC_OVERWRITE_ALL
    (String "x" (String newline (String "y" (String newline ""))))
  = (None, ""%string)
  /\ check_output fs_full "DD.dat" (-2) FCFC_OVERWRITE_ALL
       (String "n" (String newline "rest"))
     = (Some FCFC_ERR_SAVE, "rest"%string)
  /\ check_output fs_full "DD.dat" (-2) FCFC_OVERWRITE_ALL
       (String "a" (String newline (String "b" (String newline "c"))))
     = (Some FCFC_ERR_FILE, "c"%string).
Proof. repeat split. Qed.

(** The sort and the removal of duplicates on the array 2, 0, 4, 2. *)
Example sort_then_dedup :
  sort_poles 4 [2; 0; 4; 2]%Z = [0; 2; 2; 4]%Z
  /\ dedup_poles 4 [0; 2; 2; 4]%Z = ([0; 2; 4; 4]%Z, 2).
Proof. split; reflexivity. Qed.

(** C1 at the run on D and R, which asks for the orders 2, 0, 4, 2 and is
    accepted with the orders 0, 2, 4; at the same run asked for the orders
    4, 4, 1; and at a request for the orders 2 and 8. *)
Lemma multipoles_sorted_in_range_witness :
  cfg_get_size cfg_DR conf_DR CF_ESTIMATOR <> 0
  /\ cfg_get_size cfg_DR conf_DR MULTIPOLE <> 0
  /\ (if negb (cfg_is_set cfg_DR BINNING_SCHEME) then DEFAULT_BINNING
      else bintype conf_DR) = FCFC_BIN_SMU
  /\ Forall in_range (poles conf_DR)
  /\ conf_verify fs_empty cfg_DR conf_DR "" = inr (verified_DR, ""%string)
  /\ take (npole verified_DR) (poles verified_DR) = [0; 2; 4]%Z
  /\ StronglySorted Z.lt (take (npole verified_DR) (poles verified_DR))
  /\ (exists c',
        conf_verify fs_empty cfg_DR (with_poles [4; 4; 1]%Z conf_DR) ""
        = inr (c', ""%string)
        /\ (forall x, x ∈ take (npole c') (poles c') <-> x ∈ [4; 4; 1]%Z)
        /\ npole c' = 2)
  /\ (exists x, x ∈ [2; 8]%Z /\ ~ in_range x)
  /\ conf_verify fs_empty cfg_DR
       (parsed ["D"; "R"]%char [box1000] 0 ["DD"]%string [] [2; 8]%Z) ""
     = inl FCFC_ERR_CFG.
Proof.
  assert (H1 : cfg_get_size cfg_DR conf_DR CF_ESTIMATOR <> 0)
    by (cbn; discriminate).
  assert (H2 : cfg_get_size cfg_DR conf_DR MULTIPOLE <> 0)
    by (cbn; discriminate).
  assert (H3 : (if negb (cfg_is_set cfg_DR BINNING_SCHEME)
                then DEFAULT_BINNING else bintype conf_DR) = FCFC_BIN_SMU)
    by reflexivity.
  assert (H8 : exists x, x ∈ [2; 8]%Z /\ ~ in_range x).
  { exists 8%Z. split; [in_list |]. intros [_ Hhi]. now apply Hhi. }
  assert (H441 : Forall in_range [4; 4; 1]%Z).
  { repeat constructor; cbn; lia. }
  destruct (multipoles_sorted_in_range fs_empty cfg_DR conf_DR "" H1 H2 H3)
    as (_ & _ & Hacc & Hany).
  destruct (Hacc _ _ conf_DR_accepted) as (Hs & _ & _ & _ & Hr).
  destruct (Hany _ _ conf_DR_accepted [4; 4; 1]%Z ltac:(discriminate) H441)
    as (c' & Hc' & _ & Hin & Hn).
  split; [exact H1 |]. split; [exact H2 |]. split; [exact H3 |].
  split; [exact Hr |]. split; [exact conf_DR_accepted |].
  split; [reflexivity |]. split; [exact Hs |].
  split; [exists c'; split; [exact Hc' |]; split; [exact Hin | exact Hn] |].
  split; [exact H8 |].
  apply (proj1 (multipoles_sorted_in_range fs_empty cfg_DR
                  (parsed ["D"; "R"]%char [box1000] 0 ["DD"]%string []
                     [2; 8]%Z) "" ltac:(cbn; discriminate)
                  ltac:(cbn; discriminate) eq_refl) H8); reflexivity.
Defined.

(** Against C1 as the specification words it (an order out of range makes
    [conf_verify] fail with a ConfigError): the run with pair count files
    that exist, at the level that keeps every file, asks for the orders 2
    and 8 and fails with [FCFC_ERR_FILE], the code of the file check that
    comes first. *)
Lemma multipoles_config_error_counterexample :
  cfg_get_size cfg_files
    (parsed ["D"; "R"]%char [box1000] 0 ["DD"; "DR"; "RR"]%string
       ["DD.dat"; "DR.dat"; "RR.dat"]%string [2; 8]%Z) CF_ESTIMATOR <> 0
  /\ (if negb (cfg_is_set cfg_files BINNING_SCHEME) then DEFAULT_BINNING
      else bintype
             (parsed ["D"; "R"]%char [box1000] 0 ["DD"; "DR"; "RR"]%string
                ["DD.dat"; "DR.dat"; "RR.dat"]%string [2; 8]%Z))
     = FCFC_BIN_SMU
  /\ (exists x, x ∈ [2; 8]%Z /\ ~ in_range x)
  /\ conf_verify fs_full cfg_files
       (parsed ["D"; "R"]%char [box1000] 0 ["DD"; "DR"; "RR"]%string
          ["DD.dat"; "DR.dat"; "RR.dat"]%string [2; 8]%Z) ""
     = inl FCFC_ERR_FILE
  /\ conf_verify fs_full cfg_files
       (parsed ["D"; "R"]%char [box1000] 0 ["DD"; "DR"; "RR"]%string
          ["DD.dat"; "DR.dat"; "RR.dat"]%string [2; 8]%Z) ""
     <> inl FCFC_ERR_CFG.
Proof.
  split; [cbn; discriminate |]. split; [reflexivity |]. split.
  - exists 8%Z. split; [in_list |]. intros [_ Hhi]. now apply Hhi.
  - split; [reflexivity | discriminate].
Qed.

(** C3 at the run on D and R when no box is given. *)
Lemma box_size_required_witness :
  cfg_get_size cfg_nobox conf_DR BOX_SIZE = 0
  /\ conf_verify fs_empty cfg_nobox conf_DR "" = inl FCFC_ERR_CFG
  /\ bsize conf_DR = [box1000]
  /\ positive_finite box1000.
Proof.
  pose proof (box_size_required fs_empty cfg_nobox conf_DR "") as [Hno _].
  pose proof (box_size_required fs_empty cfg_DR conf_DR "") as [_ Hyes].
  specialize (Hyes _ _ conf_DR_accepted) as (_ & Hpos & _ & _).
  split; [reflexivity |]. split; [apply Hno; reflexivity |].
  split; [reflexivity |]. apply (Hpos 0). repeat constructor.
Defined.

(** Against C3 as the specification words it (the box is optional):
    without a box the run on D and R is rejected, although it is accepted
    with one. *)
Lemma box_optional_counterexample :
  cfg_is_set cfg_nobox BOX_SIZE = false
  /\ conf_verify fs_empty cfg_nobox conf_DR "" = inl FCFC_ERR_CFG
  /\ exists c, conf_verify fs_empty cfg_DR conf_DR "" = inr (c, ""%string).
Proof.
  split; [reflexivity |]. split; [reflexivity |].
  eexists. exact conf_DR_accepted.
Qed.

(** C4 at a request with the identifier "D1". *)
Lemma pair_identifier_shape_witness :
  (exists p, p ∈ ["DD"; "D1"]%string /\ ~ pair_shape p)
  /\ conf_verify fs_empty cfg_DR
       (parsed ["D"; "R"]%char [box1000] 0 ["DD"; "D1"]%string [] []) ""
     = inl FCFC_ERR_CFG
  /\ Forall pair_shape ["DD"; "DR"; "RR"]%string.
Proof.
  assert (H : exists p, p ∈ ["DD"; "D1"]%string /\ ~ pair_shape p).
  { exists "D1"%string. split; [in_list |].
    intros (_ & _ & [Hlo _]). now apply Hlo. }
  split; [exact H |]. split.
  - apply (proj1 (pair_identifier_shape fs_empty cfg_DR _ "")). exact H.
  - apply (proj2 (pair_identifier_shape fs_empty cfg_DR conf_DR "")
             _ _ conf_DR_accepted).
Defined.

(** C5 at a request for the pair "DX" when the catalogs are D and R. *)
Lemma counted_pairs_have_labels_witness :
  cfg_is_set cfg_DR PAIR_COUNT_FILE = false
  /\ ~ labels_exist ["D"; "R"]%char "DX"
  /\ conf_verify fs_empty cfg_DR
       (parsed ["D"; "R"]%char [box1000] 0 ["DD"; "DX"]%string [] []) ""
     = inl FCFC_ERR_CFG
  /\ check_labels 2 ["D"; "R"]%char "DX" "" = inl FCFC_ERR_CFG
  /\ labels_exist ["D"; "R"]%char "DR".
Proof.
  assert (Hno : ~ labels_exist ["D"; "R"]%char "DX").
  { intros [_ Hx]. cbn in Hx.
    repeat (apply elem_of_cons in Hx as [Hx | Hx]; [discriminate |]).
    now apply elem_of_nil in Hx. }
  assert (Hnd : NoDup ["D"; "R"]%char).
  { repeat constructor; notin_list. }
  pose proof (counted_pairs_have_labels fs_empty cfg_DR
    (parsed ["D"; "R"]%char [box1000] 0 ["DD"; "DX"]%string [] []) "")
    as (Hone & _ & Hall).
  split; [reflexivity |]. split; [exact Hno |].
  split; [| split].
  - apply Hall; [reflexivity |]. exists "DX"%string. split; [in_list |].
    exact Hno.
  - apply (proj2 (Hone ["D"; "R"]%char "DX"%string ""%string Hnd) Hno).
  - apply (proj1 (proj2 (counted_pairs_have_labels fs_empty cfg_DR conf_DR
                           "")) _ _ conf_DR_accepted 1 eq_refl).
Defined.

(** C6 at an existing readable file and the level that keeps pair counts:
    the pair is read. *)
Lemma pair_file_policy_witness :
  char_at "DD.dat" 0 <> NUL /\ (0 <= 1)%Z
  /\ check_output fs_full "DD.dat" 1 FCFC_OVERWRITE_ALL ""
     = (Some FCFC_ERR_SAVE, ""%string).
Proof.
  assert (H1 : char_at "DD.dat" 0 <> NUL) by discriminate.
  assert (H2 : (0 <= 1)%Z) by discriminate.
  split; [exact H1 |]. split; [exact H2 |].
  destruct (pair_file_policy fs_full "DD.dat" 1 "" H1 H2)
    as (e & Heq & Hsave & _).
  rewrite Heq. f_equal. apply Hsave. repeat split.
Defined.

(** Against C6 as the specification words it (whatever is neither read
    nor refused for its level is counted): the pair count file exists, the
    level is the one that overwrites everything (neither the reading range
    nor the level that aborts), and yet the pair is not marked for counting:
    the file is not writable and the run aborts with a file error. *)
Lemma pair_file_policy_counterexample :
  char_at "DD.dat" 0 <> NUL /\ (0 <= 2)%Z
  /\ fs_readonly "DD.dat" F_OK = 0%Z
  /\ ~ (2 < FCFC_OVERWRITE_ALL)%Z
  /\ ~ (2 <= FCFC_OVERWRITE_NONE)%Z
  /\ check_output fs_readonly "DD.dat" 2 FCFC_OVERWRITE_ALL ""
     = (Some FCFC_ERR_FILE, ""%string)
  /\ conf_verify fs_readonly cfg_files
       (parsed ["D"; "R"]%char [box1000] 2 ["DD"]%string ["DD.dat"]%string
          [0]%Z) ""
     = inl FCFC_ERR_FILE.
Proof.
  split; [discriminate |]. split; [discriminate |].
  split; [reflexivity |]. split; [cbn; lia |]. split; [cbn; lia |].
  split; reflexivity.
Qed.

(** C7 at a repeated label and at a repeated pair. *)
Lemma duplicates_rejected_witness :
  cfg_is_set cfg_DR CATALOG_LABEL = true
  /\ ~ NoDup ["D"; "D"]%char
  /\ conf_verify fs_empty cfg_DR (with_label ["D"; "D"]%char conf_DR) ""
     = inl FCFC_ERR_CFG
  /\ conf_verify fs_empty cfg_DR
       (parsed ["D"; "R"]%char [box1000] 0 ["DR"; "DD"; "DR"]%string [] [])
       ""
     = inl FCFC_ERR_CFG
  /\ NoDup ["D"; "R"]%char
  /\ NoDup ["DD"; "DR"; "RR"]%string.
Proof.
  assert (Hdup : ~ NoDup ["D"; "D"]%char).
  { intros [Hin _]%NoDup_cons. apply Hin. in_list. }
  pose proof (proj2 (proj2 (duplicates_rejected fs_empty cfg_DR conf_DR ""))
                _ _ conf_DR_accepted) as (Hlab & Hpc & _).
  split; [reflexivity |]. split; [exact Hdup |].
  split; [| split; [| split; [exact Hlab | exact Hpc]]].
  - apply (proj1 (duplicates_rejected fs_empty cfg_DR
                    (with_label ["D"; "D"]%char conf_DR) ""));
      [reflexivity | exact Hdup].
  - apply (proj1 (proj2 (duplicates_rejected fs_empty cfg_DR _ ""))).
    exists 0, 2. split; [cbn; lia | reflexivity].
Defined.


(** C9 at the run on D and R when CATALOG_LABEL is not set. *)
Lemma unset_labels_count_nothing_witness :
  cfg_is_set cfg_nolabel CATALOG_LABEL = false
  /\ cfg_is_set cfg_nolabel PAIR_COUNT_FILE = false
  /\ conf_verify fs_empty cfg_nolabel conf_DR "" = inl FCFC_ERR_CFG
  /\ exists c,
       conf_verify fs_full cfg_files_nolabel conf_files ""
       = inr (c, ""%string)
       /\ ninput c = 0 /\ label c = []
       /\ comp_pc c = replicate (npc c) false.
Proof.
  split; [reflexivity |]. split; [reflexivity |]. split.
  - apply (unset_labels_count_nothing fs_empty cfg_nolabel conf_DR ""
             eq_refl); reflexivity.
  - destruct (conf_verify fs_full cfg_files_nolabel conf_files "")
      as [e | [c s']] eqn:E; [discriminate |].
    assert (Hs : s' = ""%string) by (vm_compute in E; congruence).
    subst s'. exists c. split; [reflexivity |].
    destruct (proj1 (proj2 (proj2 (unset_labels_count_nothing fs_full
                cfg_files_nolabel conf_files "" eq_refl))) c _ E)
      as (Hn & Hl & _ & Hc).
    auto.
Defined.

(** C10 at the run that reads its three pair count files: it passes with
    the catalogs A and B, which none of DD, DR, RR names. *)
Lemma read_pairs_skip_label_check_witness :
  pair_file_step fs_full conf_files 2 ["A"; "B"]%char 1 0
    [true; true; true] ""
  = inr ([false; true; true], ""%string)
  /\ cfg_is_set cfg_files CATALOG_LABEL = true
  /\ NoDup ["A"; "B"]%char
  /\ Forall upper ["A"; "B"]%char
  /\ exists c,
       conf_verify fs_full cfg_files (with_label ["A"; "B"]%char conf_files)
         "" = inr (c, ""%string)
       /\ label c = ["A"; "B"]%char
       /\ pc c = ["DD"; "DR"; "RR"]%string.
Proof.
  assert (Hnd : NoDup ["A"; "B"]%char) by (repeat constructor; notin_list).
  assert (Hup : Forall upper ["A"; "B"]%char)
    by (repeat constructor; discriminate).
  split.
  { apply (proj1 (read_pairs_skip_label_check fs_full cfg_files conf_files
                    ""));
      [cbn; lia | reflexivity]. }
  split; [reflexivity |]. split; [exact Hnd |]. split; [exact Hup |].
  destruct (proj2 (read_pairs_skip_label_check fs_full cfg_files conf_files
                     "") _ _ conf_files_read eq_refl ["A"; "B"]%char
              eq_refl ltac:(discriminate) Hup Hnd)
    as (c & Hc & Hl & Hp & _).
  exists c. auto.
Defined.


(** * Further properties of [check_output] and [check_input] *)

Lemma is_yes_not_no c : is_yes c = true -> is_no c = false.
Proof.
  unfold is_yes, is_no.
  intros [->%char_eq_true | ->%char_eq_true]%orb_true_iff; reflexivity.
Qed.

(** The prompt either gets an answer, which does not depend on the level
    and the character it started with, or gets none and leaves both as
    they were, up to a character that is no answer either. *)
Lemma ask_overwrite_cases k c force inp :
  is_yes c = false -> is_no c = false ->
  (exists a inp',
     is_yes a || is_no a = true
     /\ forall c2 ov2, ask_overwrite k c2 ov2 force inp
                       = (a, (if is_no a then force - 1 else force)%Z, inp'))
  \/ (exists inp',
        forall c2 ov2, is_yes c2 = false -> is_no c2 = false ->
          exists a, ask_overwrite k c2 ov2 force inp = (a, ov2, inp')
                    /\ is_yes a = false /\ is_no a = false).
Proof.
  revert c inp. induction k as [| k IH]; intros c inp Hy Hn.
  - right. exists inp. intros c2 ov2 Hy2 Hn2. exists c2. cbn. auto.
  - destruct inp as [| a rest].
    + destruct (IH c EmptyString Hy Hn) as [(a & inp' & Ha & H) | (inp' & H)].
      * left. exists a, inp'. split; [exact Ha |]. intros. cbn. apply H.
      * right. exists inp'. intros. cbn. now apply H.
    + destruct (is_no a) eqn:Ena.
      * left. exists a, (skip_line rest).
        split; [now rewrite Ena, orb_true_r |].
        intros. cbn. now rewrite Ena.
      * destruct (is_yes a) eqn:Eya.
        -- left. exists a, (skip_line rest).
           split; [now rewrite Eya |].
           intros. cbn. now rewrite Ena, Eya.
        -- destruct (IH a (skip_line rest) Eya Ena)
             as [(b & inp' & Hb & H) | (inp' & H)].
           ++ left. exists b, inp'. split; [exact Hb |].
              intros. cbn. rewrite Ena, Eya. apply H.
           ++ right. exists inp'. intros c2 ov2 _ _. cbn.
              rewrite Ena, Eya. now apply H.
Qed.

Section check_output_facts.

Context {D : define_h}.
Variable access : string -> amode -> Z.

Lemma nonempty_name fname :
  char_at fname 0 <> NUL -> char_eq (char_at fname 0) NUL = false.
Proof.
  intros H. destruct (char_eq _ _) eqn:E; [| reflexivity].
  now apply char_eq_true in E.
Qed.

(** [check_output] on an existing file at a negative level, in terms of
    the outcome of the prompt. *)
Lemma check_output_ask fname ov force inp :
  char_at fname 0 <> NUL -> access fname F_OK = 0%Z -> (ov < 0)%Z ->
  check_output access fname ov force inp =
    let '(a, level, inp') :=
      ask_overwrite (Z.to_nat (- ov)) NUL ov force inp in
    if negb (is_yes a) && negb (is_no a) then (Some FCFC_ERR_FILE, inp')
    else (decide_existing access fname level force, inp').
Proof.
  intros Hname Hex Hov. unfold check_output, decide_existing.
  rewrite (nonempty_name _ Hname), Hex. cbn [Z.eqb].
  destruct (Z.ltb_spec ov 0) as [_ |]; [| lia]. cbn [andb].
  destruct (ask_overwrite _ _ _ _ _) as [[a level] inp'].
  repeat match goal with
         | |- context [if ?b then _ else _] => destruct b
         end; reflexivity.
Qed.

(** Every outcome of [check_output]. *)
Lemma check_output_cases fname ov force inp :
  exists e inp',
    check_output access fname ov force inp = (e, inp')
    /\ ((e = Some FCFC_ERR_CFG /\ char_at fname 0 = NUL)
        \/ (char_at fname 0 <> NUL
            /\ (e = None \/ e = Some FCFC_ERR_FILE
                \/ (e = Some FCFC_ERR_SAVE
                    /\ access fname F_OK = 0%Z /\ access fname R_OK = 0%Z
                    /\ (FCFC_OVERWRITE_NONE + 1 < force)%Z)))).
Proof.
  unfold check_output.
  destruct (char_eq (char_at fname 0) NUL) eqn:Ename.
  { apply char_eq_true in Ename. eauto 6. }
  assert (Hname : char_at fname 0 <> NUL).
  { intros H. apply char_eq_true in H. congruence. }
  destruct (Z.eqb_spec (access fname F_OK) 0) as [Hex | Hex].
  - set (r := if (ov <? 0)%Z then _ else _). destruct r as [[a level] inp'].
    destruct (_ && _); [eauto 8 |].
    destruct (Z.leb_spec level FCFC_OVERWRITE_NONE); [eauto 8 |].
    destruct (level >=? force)%Z eqn:Ege.
    + destruct (_ =? 0)%Z; eauto 8.
    + destruct (Z.eqb_spec (access fname R_OK) 0) as [Hr | Hr]; [| eauto 8].
      exists (Some FCFC_ERR_SAVE), inp'. split; [reflexivity |]. right.
      split; [exact Hname |]. right. right.
      rewrite Z.geb_leb in Ege. apply Z.leb_gt in Ege.
      repeat split; auto. lia.
  - destruct (strrchr fname FCFC_PATH_SEP) as [k |]; [| eauto 8].
    destruct (_ =? 0)%Z; eauto 8.
Qed.

(** X1: an output file that does not exist yet is accepted at every
    overwrite level, negative ones included: [check_output] does not prompt
    (the standard input is left as it was), never asks to read the file
    ([FCFC_ERR_SAVE]), and fails, with [FCFC_ERR_FILE], only when the name
    has a directory part that cannot be entered. *)
Theorem check_output_new_file fname ov force inp :
  char_at fname 0 <> NUL -> access fname F_OK <> 0%Z ->
  (dir_blocked access fname ->
     check_output access fname ov force inp = (Some FCFC_ERR_FILE, inp))
  /\ (~ dir_blocked access fname ->
      check_output access fname ov force inp = (None, inp)).
Proof.
  intros Hname Hex. unfold check_output, dir_blocked.
  rewrite (nonempty_name _ Hname).
  destruct (Z.eqb_spec (access fname F_OK) 0) as [| _]; [contradiction |].
  destruct (strrchr fname FCFC_PATH_SEP) as [k |].
  - destruct (Z.eqb_spec (access (substring 0 k fname) X_OK) 0) as [H0 | H0].
    + split; [| reflexivity]. intros (k' & [= <-] & Hk). contradiction.
    + split; [reflexivity |]. intros Hno. destruct Hno. eauto.
  - split; [| reflexivity]. intros (k' & [=] & _).
Qed.

(** X2: the answer to the overwrite prompt.  For an existing file and a
    negative level, a first line starting with y or Y decides as the level
    [force] does (the file is overwritten if it is writable), one starting
    with n or N decides as the level [force - 1] does (the file is kept, and
    read where that level allows it); the rest of the line is discarded and
    nothing more is read. *)
Theorem check_output_prompt_answer fname ov force c rest :
  char_at fname 0 <> NUL -> access fname F_OK = 0%Z -> (ov < 0)%Z ->
  (is_yes c = true ->
     check_output access fname ov force (String c rest)
     = (decide_existing access fname force force, skip_line rest))
  /\ (is_no c = true ->
      check_output access fname ov force (String c rest)
      = (decide_existing access fname (force - 1) force, skip_line rest)).
Proof.
  intros Hname Hex Hov.
  rewrite (check_output_ask _ _ _ _ Hname Hex Hov).
  destruct (Z.to_nat (- ov)) as [| k] eqn:Ek; [lia |].
  cbn [ask_overwrite]. split.
  - intros Hy. rewrite (is_yes_not_no _ Hy), Hy. cbn. now rewrite Hy.
  - intros Hn. rewrite Hn. cbn. now rewrite Hn, andb_false_r.
Qed.

(** X3: the prompt gives up.  For an existing file and a negative level
    [-n], an exhausted standard input makes [check_output] return
    [FCFC_ERR_FILE]; a line that starts with none of y, Y, n, N uses up one
    of the [n] trials: at the level [-1] it makes [check_output] return
    [FCFC_ERR_FILE], at a lower level the outcome is that of the level
    raised by one on the following lines. *)
Theorem check_output_prompt_exhausted fname ov force :
  char_at fname 0 <> NUL -> access fname F_OK = 0%Z -> (ov < 0)%Z ->
  check_output access fname ov force EmptyString
  = (Some FCFC_ERR_FILE, EmptyString)
  /\ (forall c rest, is_yes c = false -> is_no c = false ->
        check_output access fname ov force (String c rest)
        = if (ov =? -1)%Z then (Some FCFC_ERR_FILE, skip_line rest)
          else check_output access fname (ov + 1) force (skip_line rest)).
Proof.
  intros Hname Hex Hov. split.
  - rewrite (check_output_ask _ _ _ _ Hname Hex Hov).
    assert (H : forall k,
              ask_overwrite k NUL ov force EmptyString
              = (NUL, ov, EmptyString)).
    { induction k as [| k IH]; [reflexivity | exact IH]. }
    rewrite H. reflexivity.
  - intros c rest Hy Hn.
    rewrite (check_output_ask _ _ _ _ Hname Hex Hov).
    destruct (Z.eqb_spec ov (-1)) as [-> | Hne].
    + change (Z.to_nat (- -1)) with 1. cbn [ask_overwrite].
      rewrite Hn, Hy. now rewrite Hy, Hn.
    + assert (Hov' : (ov + 1 < 0)%Z) by lia.
      rewrite (check_output_ask _ _ _ _ Hname Hex Hov').
      replace (Z.to_nat (- ov)) with (S (Z.to_nat (- (ov + 1)))) by lia.
      cbn [ask_overwrite]. rewrite Hn, Hy.
      destruct (ask_overwrite_cases (Z.to_nat (- (ov + 1))) NUL force
                  (skip_line rest) eq_refl eq_refl)
        as [(a & inp' & Ha & H) | (inp' & H)].
      * now rewrite !H.
      * destruct (H c ov Hy Hn) as (a1 & -> & Hy1 & Hn1).
        destruct (H NUL (ov + 1)%Z eq_refl eq_refl) as (a2 & -> & Hy2 & Hn2).
        now rewrite Hy1, Hn1, Hy2, Hn2.
Qed.

(** X4: the codes of [check_output].  It returns [FCFC_ERR_CFG] exactly
    for an empty file name and never [FCFC_ERR_MEMORY]; when it returns
    [FCFC_ERR_SAVE] (the file is to be read, not written) the file exists
    and is readable, and [force] lies more than one level above
    [FCFC_OVERWRITE_NONE]. *)
Theorem check_output_error_codes fname ov force inp :
  ((check_output access fname ov force inp).1 = Some FCFC_ERR_CFG
   <-> char_at fname 0 = NUL)
  /\ (check_output access fname ov force inp).1 <> Some FCFC_ERR_MEMORY
  /\ ((check_output access fname ov force inp).1 = Some FCFC_ERR_SAVE ->
      access fname F_OK = 0%Z /\ access fname R_OK = 0%Z
      /\ (FCFC_OVERWRITE_NONE + 1 < force)%Z).
Proof.
  destruct (check_output_cases fname ov force inp)
    as (e & inp' & -> & [[-> Hname] | [Hname [-> | [-> | (-> & H)]]]]);
    cbn [fst].
  - repeat split; congruence.
  - repeat split; congruence.
  - repeat split; congruence.
  - split; [split; congruence |]. split; [congruence | auto].
Qed.

(** X5: a file that [check_output] hands over for reading passes
    [check_input]: whenever [check_output] returns [FCFC_ERR_SAVE] for a
    name, [check_input] returns 0 for it.  [check_input] itself returns
    [FCFC_ERR_CFG] exactly for an empty name, as [check_output] does. *)
Theorem read_files_pass_check_input fname ov force inp :
  ((check_output access fname ov force inp).1 = Some FCFC_ERR_SAVE ->
     check_input access fname = None)
  /\ (check_input access fname = Some FCFC_ERR_CFG
      <-> (check_output access fname ov force inp).1 = Some FCFC_ERR_CFG).
Proof.
  unfold check_input.
  destruct (check_output_cases fname ov force inp)
    as (e & inp' & -> & [[-> Hname] | [Hname [-> | [-> | (-> & H)]]]]);
    cbn [fst].
  - rewrite Hname. cbn. split; [discriminate | tauto].
  - rewrite (nonempty_name _ Hname). split; [discriminate |].
    destruct (negb _); split; discriminate.
  - rewrite (nonempty_name _ Hname). split; [discriminate |].
    destruct (negb _); split; discriminate.
  - rewrite (nonempty_name _ Hname). destruct H as (_ & -> & _).
    cbn. split; [reflexivity | split; discriminate].
Qed.

End check_output_facts.

(** * Further properties of [conf_verify] *)

(** ** Computations that do not look at the standard input *)

Lemma stdin_free_ret {A} (a : A) : stdin_free (ret a).
Proof. exists (inr a). reflexivity. Qed.

Lemma stdin_free_raise {A} e : stdin_free (@raise A e).
Proof. exists (inl e). reflexivity. Qed.

Lemma stdin_free_bind {A B} (m : M A) (k : A -> M B) :
  stdin_free m -> (forall a, stdin_free (k a)) -> stdin_free (bind m k).
Proof.
  intros [[e | a] Hm] Hk.
  - exists (inl e). intros s. unfold bind. now rewrite Hm.
  - destruct (Hk a) as [r Hr]. exists r. intros s. unfold bind.
    rewrite Hm. apply Hr.
Qed.

Lemma stdin_free_for_iter {A} (body : nat -> A -> M A) n i a :
  (forall j a, stdin_free (body j a)) -> stdin_free (for_iter n i body a).
Proof.
  intros Hbody. revert i a. induction n as [| n IH]; intros i a; cbn.
  - apply stdin_free_ret.
  - apply stdin_free_bind; auto.
Qed.

Lemma stdin_free_for {A} (body : nat -> A -> M A) lo hi a :
  (forall j a, stdin_free (body j a)) -> stdin_free (for_ lo hi body a).
Proof. apply stdin_free_for_iter. Qed.

Ltac stdin_free :=
  repeat first
    [ progress intros
    | apply stdin_free_ret | apply stdin_free_raise
    | apply stdin_free_bind | apply stdin_free_for
    | match goal with
      | |- stdin_free (if ?b then _ else _) => destruct b
      | |- stdin_free (match ?x with _ => _ end) => destruct x
      end ].

Lemma bind_ext {A B} (m m' : M A) (k k' : A -> M B) s :
  m s = m' s -> (forall a t, k a t = k' a t) -> bind m k s = bind m' k' s.
Proof.
  intros Hm Hk. unfold bind. rewrite Hm.
  destruct (m' s) as [e | [a t]]; [reflexivity | apply Hk].
Qed.

Lemma verify_WEIGHT_eq n : verify_WEIGHT n = replicate n true.
Proof.
  unfold verify_WEIGHT, loop. rewrite Nat.sub_0_r.
  assert (H : forall k i,
    loop_iter k i (fun i w => <[i := true]> w)
      (replicate i true ++ replicate k false) = replicate (i + k) true).
  { induction k as [| k IH]; intros i.
    - cbn. now rewrite app_nil_r, Nat.add_0_r.
    - cbn [loop_iter replicate].
      rewrite insert_app_r_alt by (rewrite length_replicate; lia).
      rewrite length_replicate, Nat.sub_diag. cbn [insert list_insert].
      replace (replicate i true ++ true :: replicate k false)
        with (replicate (S i) true ++ replicate k false)
        by (rewrite replicate_S_end, <- app_assoc; reflexivity).
      rewrite IH. f_equal. lia. }
  apply (H n 0).
Qed.

Section further_blocks.

Context {D : define_h}.
Variable access : string -> amode -> Z.

Implicit Types (cfg : cfg_t) (conf : CONF) (s : stdin).

(** *** The blocks and the standard input *)

Lemma stdin_free_check_output fname ov force :
  (0 <= ov)%Z -> stdin_free (call (check_output access fname ov force)).
Proof.
  intros Hov. destruct (char_eq (char_at fname 0) NUL) eqn:E.
  - exists (inr (Some FCFC_ERR_CFG)). intros s.
    unfold call, check_output. now rewrite E.
  - eexists (inr _). intros s. unfold call.
    rewrite check_output_nonneg; [reflexivity | | exact Hov].
    intros H. apply char_eq_true in H. congruence.
Qed.

Lemma stdin_free_CATALOG_LABEL cfg conf :
  stdin_free (verify_CATALOG_LABEL cfg conf).
Proof. unfold verify_CATALOG_LABEL, CHECK_ARRAY_LENGTH. stdin_free. Qed.

Lemma stdin_free_BOX_SIZE cfg conf : stdin_free (verify_BOX_SIZE cfg conf).
Proof.
  unfold verify_BOX_SIZE, CHECK_EXIST_ARRAY, CHECK_ARRAY_LENGTH. stdin_free.
Qed.

Lemma stdin_free_DATA_STRUCT cfg conf :
  stdin_free (verify_DATA_STRUCT cfg conf).
Proof. unfold verify_DATA_STRUCT. stdin_free. Qed.

Lemma stdin_free_BINNING_SCHEME cfg conf :
  stdin_free (verify_BINNING_SCHEME cfg conf).
Proof. unfold verify_BINNING_SCHEME. stdin_free. Qed.

Lemma stdin_free_OUTPUT_FORMAT cfg conf :
  stdin_free (verify_OUTPUT_FORMAT cfg conf).
Proof. unfold verify_OUTPUT_FORMAT. stdin_free. Qed.

Lemma stdin_free_PAIR_COUNT cfg conf : stdin_free (verify_PAIR_COUNT cfg conf).
Proof. unfold verify_PAIR_COUNT, CHECK_EXIST_ARRAY. stdin_free. Qed.

Lemma stdin_free_check_labels n lab p : stdin_free (check_labels n lab p).
Proof. unfold check_labels. stdin_free. Qed.

Lemma stdin_free_PAIR_COUNT_FILE cfg conf n lab ov npc :
  (0 <= ov)%Z \/ cfg_is_set cfg PAIR_COUNT_FILE = false ->
  stdin_free (verify_PAIR_COUNT_FILE access cfg conf n lab ov npc).
Proof.
  intros Hov. unfold verify_PAIR_COUNT_FILE. cbn zeta.
  destruct (cfg_is_set cfg PAIR_COUNT_FILE) eqn:Eset.
  - destruct Hov as [Hov | ?]; [| discriminate].
    unfold CHECK_EXIST_ARRAY, CHECK_ARRAY_LENGTH, pair_file_step, check.
    stdin_free; first [ now apply stdin_free_check_output
                      | apply stdin_free_check_labels ].
  - unfold pair_nofile_step. stdin_free. apply stdin_free_check_labels.
Qed.

Lemma stdin_free_output_files cfg conf p files ncf ov :
  (0 <= ov)%Z \/ cfg_is_set cfg p = false ->
  stdin_free (verify_output_files access cfg conf p files ncf ov).
Proof.
  intros Hov. unfold verify_output_files.
  destruct (cfg_is_set cfg p) eqn:Eset; [| apply stdin_free_ret].
  destruct Hov as [Hov | ?]; [| discriminate].
  unfold CHECK_EXIST_ARRAY, CHECK_ARRAY_LENGTH, check_outputs, check.
  stdin_free. now apply stdin_free_check_output.
Qed.

Lemma stdin_free_CF_ESTIMATOR cfg conf b ov :
  (0 <= ov)%Z \/ no_output_files cfg ->
  stdin_free (verify_CF_ESTIMATOR access cfg conf b ov).
Proof.
  intros Hov.
  assert (H : forall p, p = CF_OUTPUT_FILE \/ p = MULTIPOLE_FILE
                        \/ p = PROJECTED_FILE ->
              (0 <= ov)%Z \/ cfg_is_set cfg p = false).
  { destruct Hov as [? | (_ & H1 & H2 & H3)]; [auto |].
    intros p [-> | [-> | ->]]; auto. }
  unfold verify_CF_ESTIMATOR, verify_MULTIPOLE, verify_PROJECTED_CF.
  stdin_free; apply stdin_free_output_files; apply H; auto.
Qed.

(** *** The blocks and the file system *)

Lemma verify_PAIR_COUNT_FILE_fs (access' : string -> amode -> Z)
    cfg conf n lab ov npc :
  cfg_is_set cfg PAIR_COUNT_FILE = false ->
  verify_PAIR_COUNT_FILE access' cfg conf n lab ov npc
  = verify_PAIR_COUNT_FILE access cfg conf n lab ov npc.
Proof. intros H. unfold verify_PAIR_COUNT_FILE. now rewrite H. Qed.

Lemma verify_CF_ESTIMATOR_fs (access' : string -> amode -> Z)
    cfg conf b ov :
  no_output_files cfg ->
  verify_CF_ESTIMATOR access' cfg conf b ov
  = verify_CF_ESTIMATOR access cfg conf b ov.
Proof.
  intros (_ & H1 & H2 & H3).
  unfold verify_CF_ESTIMATOR, verify_MULTIPOLE, verify_PROJECTED_CF,
    verify_output_files.
  now rewrite H1, H2, H3.
Qed.

Lemma quiet_CF_ESTIMATOR_unset cfg conf b ov :
  no_output_files cfg -> quiet (verify_CF_ESTIMATOR access cfg conf b ov).
Proof.
  intros (_ & H1 & H2 & H3).
  unfold verify_CF_ESTIMATOR, verify_MULTIPOLE, verify_PROJECTED_CF,
    verify_output_files.
  rewrite H1, H2, H3. quiet.
Qed.

End further_blocks.

(** ** The allocations *)

Lemma codes_in_ret {A} (P : errcode -> Prop) (a : A) : codes_in P (ret a).
Proof. intros s e [=]. Qed.

Lemma codes_in_bind {A B} (P : errcode -> Prop) (m : M A) (k : A -> M B) :
  codes_in P m -> (forall a, codes_in P (k a)) -> codes_in P (bind m k).
Proof.
  intros Hm Hk s e [He | (a & s1 & _ & He)]%bind_inl.
  - eapply Hm, He.
  - eapply Hk, He.
Qed.

Lemma codes_in_weaken {A} (P Q : errcode -> Prop) (m : M A) :
  (forall e, P e -> Q e) -> codes_in P m -> codes_in Q m.
Proof. intros HPQ Hm s e He. eapply HPQ, Hm, He. Qed.

Lemma codes_in_quiet {A} (m : M A) :
  quiet m -> codes_in (fun e => e = FCFC_ERR_CFG) m.
Proof. intros Hq s e He. eapply quiet_inl; eauto. Qed.

Section allocation_facts.

Context {D : define_h}.
Variable access : string -> amode -> Z.
Variable allocated : allocation -> bool.

Implicit Types (cfg : cfg_t) (conf : CONF) (s : stdin).

Lemma codes_in_ALLOC a :
  codes_in (out_of_memory allocated) (ALLOC allocated a).
Proof.
  intros s e. unfold ALLOC. destruct (allocated a) eqn:Ea; [discriminate |].
  intros [= <-]. split; [reflexivity | eauto].
Qed.

Lemma stdin_free_ALLOC a : stdin_free (ALLOC allocated a).
Proof. unfold ALLOC. stdin_free. Qed.

(** When the allocations succeed the function is [conf_verify]. *)
Lemma conf_verify_mem_ok cfg conf s :
  (forall a, allocated a = true) ->
  conf_verify_mem access allocated cfg conf s = conf_verify access cfg conf s.
Proof.
  intros Hall.
  assert (Hlab : forall t, verify_CATALOG_LABEL_mem allocated cfg conf t
                           = verify_CATALOG_LABEL cfg conf t).
  { intros t. unfold verify_CATALOG_LABEL_mem, ALLOC. rewrite Hall.
    cbn zeta. now destruct (_ =? 0). }
  assert (Hbox : forall t, verify_BOX_SIZE_mem allocated cfg conf t
                           = verify_BOX_SIZE cfg conf t).
  { intros t. unfold verify_BOX_SIZE_mem, ALLOC. rewrite Hall. cbn zeta.
    unfold verify_BOX_SIZE, CHECK_EXIST_ARRAY.
    destruct (cfg_get_size cfg conf BOX_SIZE =? 0); [reflexivity |].
    now destruct (_ =? 1). }
  unfold conf_verify_mem, conf_verify, ALLOC. rewrite !Hall.
  apply bind_ext; [apply Hlab |]. intros [n lab] t1. cbn beta iota zeta.
  unfold bind at 1. cbn [ret].
  apply bind_ext; [apply Hbox |]. intros bs t2.
  apply bind_ext; [reflexivity |]. intros d t3.
  apply bind_ext; [reflexivity |]. intros b t4.
  apply bind_ext; [reflexivity |]. intros npc t5. reflexivity.
Qed.

(** The codes of the function, from those of the two blocks that look at
    files. *)
Lemma codes_in_conf_verify_mem (P : errcode -> Prop) cfg conf :
  P FCFC_ERR_CFG -> (forall e, out_of_memory allocated e -> P e) ->
  (forall n lab ov npc,
     codes_in P (verify_PAIR_COUNT_FILE access cfg conf n lab ov npc)) ->
  (forall b ov, codes_in P (verify_CF_ESTIMATOR access cfg conf b ov)) ->
  codes_in P (conf_verify_mem access allocated cfg conf).
Proof.
  intros Hcfg Hmem Hpcf Hest.
  assert (Hq : forall A (m : M A), quiet m -> codes_in P m).
  { intros A m Hm. eapply codes_in_weaken; [| apply codes_in_quiet, Hm].
    now intros e ->. }
  assert (Ha : forall a, codes_in P (ALLOC allocated a)).
  { intros a. eapply codes_in_weaken; [exact Hmem | apply codes_in_ALLOC]. }
  unfold conf_verify_mem.
  apply codes_in_bind.
  { unfold verify_CATALOG_LABEL_mem. cbn zeta. apply codes_in_bind.
    - destruct (_ =? 0); [apply Ha | apply codes_in_ret].
    - intros _. apply Hq, quiet_CATALOG_LABEL. }
  intros [n lab]. cbn beta iota zeta.
  apply codes_in_bind; [apply Ha |]. intros _.
  apply codes_in_bind.
  { unfold verify_BOX_SIZE_mem. cbn zeta. apply codes_in_bind.
    - apply Hq. unfold CHECK_EXIST_ARRAY. quiet.
    - intros _. apply codes_in_bind.
      + destruct (_ =? 1); [apply Ha | apply codes_in_ret].
      + intros _. apply Hq, quiet_BOX_SIZE. }
  intros bs.
  apply codes_in_bind; [apply Hq, quiet_DATA_STRUCT |]. intros d.
  apply codes_in_bind; [apply Hq, quiet_BINNING_SCHEME |]. intros b.
  apply codes_in_bind; [apply Hq, quiet_PAIR_COUNT |]. intros npc.
  apply codes_in_bind; [apply Ha |]. intros _.
  apply codes_in_bind; [apply Hpcf |]. intros [comp pco].
  cbn beta iota zeta.
  apply codes_in_bind; [apply Hest |]. intros [ncf f]. cbn beta iota zeta.
  apply codes_in_bind; [apply Hq, quiet_OUTPUT_FORMAT |]. intros o.
  apply codes_in_ret.
Qed.

Lemma stdin_free_conf_verify_mem cfg conf :
  (0 <= verify_OVERWRITE cfg conf)%Z \/ no_output_files cfg ->
  stdin_free (conf_verify_mem access allocated cfg conf).
Proof.
  intros Hov. unfold conf_verify_mem.
  apply stdin_free_bind.
  { unfold verify_CATALOG_LABEL_mem. cbn zeta. apply stdin_free_bind.
    - destruct (_ =? 0); [apply stdin_free_ALLOC | apply stdin_free_ret].
    - intros _. apply stdin_free_CATALOG_LABEL. }
  intros [n lab]. cbn beta iota zeta.
  apply stdin_free_bind; [apply stdin_free_ALLOC |]. intros _.
  apply stdin_free_bind.
  { unfold verify_BOX_SIZE_mem, CHECK_EXIST_ARRAY. cbn zeta.
    apply stdin_free_bind; [stdin_free |]. intros _.
    apply stdin_free_bind.
    - destruct (_ =? 1); [apply stdin_free_ALLOC | apply stdin_free_ret].
    - intros _. apply stdin_free_BOX_SIZE. }
  intros bs.
  apply stdin_free_bind; [apply stdin_free_DATA_STRUCT |]. intros d.
  apply stdin_free_bind; [apply stdin_free_BINNING_SCHEME |]. intros b.
  apply stdin_free_bind; [apply stdin_free_PAIR_COUNT |]. intros npc.
  apply stdin_free_bind; [apply stdin_free_ALLOC |]. intros _.
  apply stdin_free_bind.
  { apply stdin_free_PAIR_COUNT_FILE.
    destruct Hov as [? | (? & _)]; auto. }
  intros [comp pco]. cbn beta iota zeta.
  apply stdin_free_bind; [now apply stdin_free_CF_ESTIMATOR |].
  intros [ncf f]. cbn beta iota zeta.
  apply stdin_free_bind; [apply stdin_free_OUTPUT_FORMAT |]. intros o.
  apply stdin_free_ret.
Qed.

Lemma conf_verify_mem_fs (access' : string -> amode -> Z) cfg conf s :
  no_output_files cfg ->
  conf_verify_mem access' allocated cfg conf s
  = conf_verify_mem access allocated cfg conf s.
Proof.
  intros Hno. unfold conf_verify_mem.
  apply bind_ext; [reflexivity |]. intros [n lab] t1. cbn beta iota zeta.
  apply bind_ext; [reflexivity |]. intros _ t1'.
  apply bind_ext; [reflexivity |]. intros bs t2.
  apply bind_ext; [reflexivity |]. intros d t3.
  apply bind_ext; [reflexivity |]. intros b t4.
  apply bind_ext; [reflexivity |]. intros npc t5.
  apply bind_ext; [reflexivity |]. intros _ t5'.
  apply bind_ext.
  { now rewrite (verify_PAIR_COUNT_FILE_fs access access') by apply Hno. }
  intros [comp pco] t6. cbn beta iota zeta.
  apply bind_ext; [| reflexivity].
  now rewrite (verify_CF_ESTIMATOR_fs access access') by exact Hno.
Qed.

End allocation_facts.

Section further_whole.

Context {D : define_h}.
Variable access : string -> amode -> Z.

Implicit Types (cfg : cfg_t) (conf : CONF) (s : stdin).

Lemma stdin_free_conf_verify cfg conf :
  (0 <= verify_OVERWRITE cfg conf)%Z \/ no_output_files cfg ->
  stdin_free (conf_verify access cfg conf).
Proof.
  intros Hov. unfold conf_verify.
  apply stdin_free_bind; [apply stdin_free_CATALOG_LABEL |].
  intros [n lab]. cbn beta iota zeta.
  apply stdin_free_bind; [apply stdin_free_BOX_SIZE |]. intros bs.
  apply stdin_free_bind; [apply stdin_free_DATA_STRUCT |]. intros d.
  apply stdin_free_bind; [apply stdin_free_BINNING_SCHEME |]. intros b.
  apply stdin_free_bind; [apply stdin_free_PAIR_COUNT |]. intros npc.
  apply stdin_free_bind.
  { apply stdin_free_PAIR_COUNT_FILE.
    destruct Hov as [? | (? & _)]; auto. }
  intros [comp pco]. cbn beta iota zeta.
  apply stdin_free_bind; [now apply stdin_free_CF_ESTIMATOR |].
  intros [ncf f]. cbn beta iota zeta.
  apply stdin_free_bind; [apply stdin_free_OUTPUT_FORMAT |]. intros o.
  apply stdin_free_ret.
Qed.

(** X6: without output files, the verification depends on the parameters
    and on the allocations alone.  When none of PAIR_COUNT_FILE,
    CF_OUTPUT_FILE, MULTIPOLE_FILE and PROJECTED_FILE is set, [conf_verify]
    fails with no other code than [FCFC_ERR_CFG] and, when one of its
    allocations fails, [FCFC_ERR_MEMORY]; it does not read the standard
    input whatever the OVERWRITE level; and its outcome is the same on
    every file system. *)
Theorem verify_without_output_files (allocated : allocation -> bool)
    cfg conf :
  no_output_files cfg ->
  (forall s e, conf_verify_mem access allocated cfg conf s = inl e ->
     e = FCFC_ERR_CFG \/ out_of_memory allocated e)
  /\ stdin_free (conf_verify_mem access allocated cfg conf)
  /\ (forall (access' : string -> amode -> Z) s,
        conf_verify_mem access' allocated cfg conf s
        = conf_verify_mem access allocated cfg conf s).
Proof.
  intros Hno. split; [| split].
  - apply (codes_in_conf_verify_mem access allocated
             (fun e => e = FCFC_ERR_CFG \/ out_of_memory allocated e)).
    + now left.
    + intros e He. now right.
    + intros n lab ov npc.
      eapply codes_in_weaken;
        [| apply codes_in_quiet, quiet_PAIR_COUNT_FILE_unset, Hno].
      intros e ->. now left.
    + intros b ov.
      eapply codes_in_weaken;
        [| apply codes_in_quiet, quiet_CF_ESTIMATOR_unset, Hno].
      intros e ->. now left.
  - apply stdin_free_conf_verify_mem. now right.
  - intros access' s. now apply conf_verify_mem_fs.
Qed.

(** X7: the overwrite prompt is the only use of the standard input, and it
    needs a negative level.  With a non-negative OVERWRITE level (the
    configured one, or the default when it is not set) the outcome of
    [conf_verify], error code or verified configuration, is the same
    whatever the standard input holds, and the input is left unread. *)
Theorem verify_noninteractive cfg conf :
  (0 <= verify_OVERWRITE cfg conf)%Z ->
  stdin_free (conf_verify access cfg conf).
Proof. intros Hov. apply stdin_free_conf_verify. now left. Qed.

(** X8: too few pair count files.  When PAIR_COUNT_FILE is set with fewer
    files than there are pair identifiers, [conf_verify] returns
    [FCFC_ERR_CFG], whatever else the configuration holds and before any
    file is looked at. *)
Theorem too_few_pair_files cfg conf s :
  cfg_is_set cfg PAIR_COUNT_FILE = true ->
  length (pcout conf) < length (pc conf) ->
  conf_verify access cfg conf s = inl FCFC_ERR_CFG.
Proof.
  intros Hset Hlen. unfold conf_verify.
  apply quiet_then_fail; [apply quiet_CATALOG_LABEL |]. intros [n l] _.
  apply quiet_then_fail; [apply quiet_BOX_SIZE |]. intros bs _.
  apply quiet_then_fail; [apply quiet_DATA_STRUCT |]. intros d _.
  apply quiet_then_fail; [apply quiet_BINNING_SCHEME |]. intros b _.
  apply quiet_then_fail; [apply quiet_PAIR_COUNT |]. intros npc Hpc.
  rewrite verify_PAIR_COUNT_eq in Hpc.
  destruct (_ =? 0); [discriminate |].
  destruct (pairs_bad _); [discriminate |]. injection Hpc as <-.
  unfold bind at 1. unfold verify_PAIR_COUNT_FILE. rewrite Hset.
  unfold cfg_get_size. unfold cfg_is_set in Hset. rewrite Hset.
  cbn [param_size]. unfold CHECK_EXIST_ARRAY, CHECK_ARRAY_LENGTH.
  destruct (length (pcout conf) =? 0); [reflexivity |].
  unfold bind at 1. cbn [ret]. unfold bind at 1.
  destruct (Nat.ltb_spec (length (pcout conf)) (length (pc conf)));
    [reflexivity | lia].
Qed.

End further_whole.

(** ** The shape of a verified configuration *)

Lemma upper_alphabet c : upper c -> c ∈ alphabet.
Proof.
  unfold upper, char_code, alphabet. intros Hc.
  apply list_elem_of_fmap. exists (nat_of_ascii c). split.
  - symmetry. apply ascii_nat_embedding.
  - apply elem_of_seq. unfold nat_of_ascii. lia.
Qed.

Lemma NoDup_upper_length (l : list ascii) :
  NoDup l -> Forall upper l -> length l <= 26.
Proof.
  intros Hnd Hup. change 26 with (length alphabet).
  apply submseteq_length, NoDup_submseteq; [exact Hnd |].
  intros c Hc. apply upper_alphabet. rewrite Forall_forall in Hup. auto.
Qed.

Lemma NoDup_letters_length (l : list string) :
  NoDup (letters <$> l) -> Forall pair_shape l -> length l <= 676.
Proof.
  intros Hnd Hsh. rewrite <- (length_fmap letters).
  change 676 with (length (list_prod alphabet alphabet)).
  apply submseteq_length, NoDup_submseteq; [exact Hnd |].
  intros [a b] (p & Hp & Hin)%list_elem_of_fmap.
  rewrite Forall_forall in Hsh. destruct (Hsh p Hin) as (_ & Ha & Hb).
  unfold letters in Hp. injection Hp as -> ->.
  apply list_elem_of_In, in_prod; apply list_elem_of_In, upper_alphabet;
    assumption.
Qed.

Section shape.

Context {D : define_h}.
Variable access : string -> amode -> Z.

Implicit Types (cfg : cfg_t) (conf : CONF) (s : stdin).

Lemma verify_BOX_SIZE_inr cfg conf s bs s' :
  verify_BOX_SIZE cfg conf s = inr (bs, s') -> 3 <= length bs.
Proof.
  rewrite verify_BOX_SIZE_eq. cbn zeta.
  destruct (_ =? 0); [discriminate |]. destruct (_ =? 1).
  - destruct (box_bad _); [discriminate |]. intros [= <- _]. cbn. lia.
  - destruct (Nat.ltb_spec (cfg_get_size cfg conf BOX_SIZE) 3) as [| H3];
      [discriminate |].
    destruct (box_bad _); [discriminate |]. intros [= <- _].
    unfold cfg_get_size in H3. destruct (cfg BOX_SIZE); [exact H3 | lia].
Qed.

Lemma verify_PAIR_COUNT_inr cfg conf s n s' :
  verify_PAIR_COUNT cfg conf s = inr (n, s') ->
  n = length (pc conf) /\ 1 <= n /\ pairs_bad (pc conf) = false.
Proof.
  rewrite verify_PAIR_COUNT_eq.
  destruct (Nat.eqb_spec (cfg_get_size cfg conf PAIR_COUNT) 0) as [| Hn];
    [discriminate |].
  destruct (pairs_bad _) eqn:E; [discriminate |]. intros [= <- _].
  pose proof (cfg_get_size_nonzero _ _ _ Hn) as [_ Hsz].
  rewrite Hsz in Hn. cbn [param_size] in Hn.
  split; [reflexivity |]. split; [lia | reflexivity].
Qed.

Lemma verify_PAIR_COUNT_FILE_length cfg conf n lab ov npc s comp pco s1 :
  verify_PAIR_COUNT_FILE access cfg conf n lab ov npc s
    = inr ((comp, pco), s1) ->
  cfg_is_set cfg PAIR_COUNT_FILE = true -> npc <= length (pcout conf).
Proof.
  intros H Hset. unfold verify_PAIR_COUNT_FILE in H. cbn zeta in H.
  rewrite Hset in H. apply bind_inr in H as (? & t1 & _ & H).
  apply bind_inr in H as (? & t2 & Hlen & _).
  unfold CHECK_ARRAY_LENGTH, cfg_get_size in Hlen.
  unfold cfg_is_set in Hset. rewrite Hset in Hlen. cbn [param_size] in Hlen.
  destruct (Nat.ltb_spec (length (pcout conf)) npc); [discriminate | lia].
Qed.

Lemma verify_output_files_inr cfg conf p files n ov s r s' :
  verify_output_files access cfg conf p files n ov s = inr (r, s') ->
  param_size conf p = length files -> 1 <= n -> files_for n r.
Proof.
  intros H Hsz Hn. unfold verify_output_files in H.
  destruct (cfg_is_set cfg p) eqn:Hset.
  - apply bind_inr in H as (? & t1 & _ & H).
    apply bind_inr in H as (? & t2 & Hlen & H).
    apply bind_inr in H as (? & t3 & _ & H). injection H as <- _.
    unfold CHECK_ARRAY_LENGTH, cfg_get_size in Hlen.
    unfold cfg_is_set in Hset. rewrite Hset, Hsz in Hlen.
    destruct (Nat.ltb_spec (length files) n); [discriminate |].
    right. lia.
  - injection H as <- _. now left.
Qed.

(** What a successful CF_ESTIMATOR block leaves behind. *)
Lemma verify_CF_ESTIMATOR_inr cfg conf b ov s nc f s' :
  verify_CF_ESTIMATOR access cfg conf b ov s = inr ((nc, f), s') ->
  nc = cfg_get_size cfg conf CF_ESTIMATOR
  /\ (nc <> 0 ->
      nc = length (cf conf)
      /\ (forall i, i < nc -> char_at (cf conf !!! i) 0 <> NUL)
      /\ files_for nc (f_cfout f)
      /\ (b = FCFC_BIN_SMU -> f_npole f <> 0 ->
          f_npole f <= length (f_poles f) /\ files_for nc (f_mpout f))
      /\ (b = FCFC_BIN_SPI -> b <> FCFC_BIN_SMU -> f_wp f = true ->
          files_for nc (f_wpout f))).
Proof.
  unfold verify_CF_ESTIMATOR. cbn zeta.
  destruct (Nat.eqb_spec (cfg_get_size cfg conf CF_ESTIMATOR) 0) as [H0 | Hn];
    cbn [negb].
  { intros [= <- _]. split; [reflexivity | contradiction]. }
  intros (u & t1 & Hcf & H)%bind_inr.
  apply bind_inr in H as (cfo & t2 & Hcfo & H).
  pose proof (cfg_get_size_nonzero _ _ _ Hn) as [_ Hsz].
  cbn [param_size] in Hsz.
  assert (Hpos : 1 <= cfg_get_size cfg conf CF_ESTIMATOR) by lia.
  apply verify_output_files_inr in Hcfo; [| reflexivity | exact Hpos].
  assert (Hne : forall i, i < cfg_get_size cfg conf CF_ESTIMATOR ->
                  char_at (cf conf !!! i) 0 <> NUL).
  { rewrite (for_guard (fun i => char_eq (char_at (cf conf !!! i) 0) NUL))
      in Hcf by reflexivity.
    apply guard_inr in Hcf as [Hcf _]. rewrite Nat.sub_0_r in Hcf.
    intros i Hi Hnul. apply char_eq_true in Hnul.
    rewrite existsb_seq_false in Hcf. rewrite Hcf in Hnul by lia.
    discriminate. }
  destruct (Z.eqb_spec b FCFC_BIN_SMU) as [Hsmu | Hsmu].
  - apply bind_inr in H as ([[np ps] mp] & t3 & Hm & H).
    injection H as <- <- <-. cbn [f_cfout f_npole f_poles f_mpout f_wp f_wpout].
    split; [reflexivity |]. intros _.
    split; [exact Hsz |]. split; [exact Hne |]. split; [exact Hcfo |].
    split; [| contradiction]. intros _ Hnp.
    destruct (Nat.eq_dec (cfg_get_size cfg conf MULTIPOLE) 0) as [Hm0 | Hm0].
    + unfold verify_MULTIPOLE in Hm. cbn zeta in Hm. rewrite Hm0 in Hm.
      cbn in Hm. injection Hm as <- _ _ _. contradiction.
    + pose proof (verify_MULTIPOLE_inr access _ _ _ _ _ _ _ _ _ Hm0 Hm)
        as (_ & _ & Hlen & _).
      split.
      * rewrite <- Hlen at 1. rewrite length_take. lia.
      * rewrite verify_MULTIPOLE_eq in Hm by exact Hm0.
        destruct (prepare_poles _) as [ps' np'].
        destruct (_ || _); [discriminate |].
        destruct (verify_output_files _ _ _ _ _ _ _ _) as [e | [mp' t]] eqn:Ef;
          [discriminate |].
        injection Hm as <- <- <- <-.
        now apply verify_output_files_inr in Ef.
  - destruct (Z.eqb_spec b FCFC_BIN_SPI) as [Hspi | Hspi].
    + apply bind_inr in H as ([w wo] & t3 & Hw & H).
      injection H as <- <- <-.
      cbn [f_cfout f_npole f_poles f_mpout f_wp f_wpout].
      split; [reflexivity |]. intros _.
      split; [exact Hsz |]. split; [exact Hne |]. split; [exact Hcfo |].
      split; [contradiction |]. intros _ _ Hwp.
      unfold verify_PROJECTED_CF in Hw. cbn zeta in Hw.
      destruct (if negb (cfg_is_set cfg PROJECTED_CF) then _ else _).
      * apply bind_inr in Hw as (wo' & t4 & Hf & Hw).
        injection Hw as _ <- _. now apply verify_output_files_inr in Hf.
      * injection Hw as <- _ _. discriminate.
    + injection H as <- <- <-.
      cbn [f_cfout f_npole f_poles f_mpout f_wp f_wpout].
      split; [reflexivity |]. intros _.
      split; [exact Hsz |]. split; [exact Hne |]. split; [exact Hcfo |].
      split; contradiction.
Qed.

Lemma verify_DATA_STRUCT_inr cfg conf s d s' :
  verify_DATA_STRUCT cfg conf s = inr (d, s') ->
  d = FCFC_STRUCT_KDTREE \/ d = FCFC_STRUCT_BALLTREE.
Proof.
  unfold verify_DATA_STRUCT. cbn zeta.
  destruct (_ || _) eqn:E; [| discriminate]. intros [= <- _].
  apply orb_true_iff in E as [E | E]; apply Z.eqb_eq in E; auto.
Qed.

Lemma verify_BINNING_SCHEME_in cfg conf s b s' :
  verify_BINNING_SCHEME cfg conf s = inr (b, s') ->
  b = FCFC_BIN_ISO \/ b = FCFC_BIN_SMU \/ b = FCFC_BIN_SPI.
Proof.
  unfold verify_BINNING_SCHEME. cbn zeta.
  destruct (_ || _) eqn:E; [| discriminate]. intros [= <- _].
  apply orb_true_iff in E as [E | E]; [apply orb_true_iff in E as [E | E] |];
    apply Z.eqb_eq in E; auto.
Qed.

Lemma verify_OUTPUT_FORMAT_inr cfg conf s o s' :
  verify_OUTPUT_FORMAT cfg conf s = inr (o, s') ->
  o = FCFC_OFMT_BIN \/ o = FCFC_OFMT_ASCII.
Proof.
  unfold verify_OUTPUT_FORMAT. cbn zeta.
  destruct (_ || _) eqn:E; [| discriminate]. intros [= <- _].
  apply orb_true_iff in E as [E | E]; apply Z.eqb_eq in E; auto.
Qed.

(** The counters of a verified configuration are within its arrays. *)
Lemma conf_verify_bounds cfg conf s c s' :
  conf_verify access cfg conf s = inr (c, s') -> counters_in_bounds c.
Proof.
  intros Hok.
  apply conf_verify_inr in Hok
    as (ni & lab & bs & d & b & np & comp & pco & nc & f & o & s1
        & Hlab & Hbox & _ & _ & Hpc & Hpcf & Hest & _ & ->).
  apply verify_CATALOG_LABEL_inr in Hlab as (_ & Hni & _ & _).
  apply verify_BOX_SIZE_inr in Hbox.
  apply verify_PAIR_COUNT_inr in Hpc as (Hnp & Hnp1 & _).
  pose proof (verify_PAIR_COUNT_FILE_inr _ _ _ _ _ _ _ _ _ _ _ Hpcf)
    as ([Hcomp _] & Hpco).
  apply verify_CF_ESTIMATOR_inr in Hest as (_ & Hest).
  unfold counters_in_bounds.
  cbn [ninput label has_wt bsize npc pc comp_pc pcout ncf cf cfout bintype
       npole poles mpout wp wpout].
  split; [exact Hni |].
  split; [now rewrite verify_WEIGHT_eq, length_replicate |].
  split; [exact Hbox |]. split; [exact Hnp |]. split; [exact Hnp1 |].
  split; [exact Hcomp |]. split.
  - destruct (cfg_is_set cfg PAIR_COUNT_FILE) eqn:Eset; subst pco.
    + right. split; [exact Hnp1 |].
      eapply verify_PAIR_COUNT_FILE_length; eauto.
    + now left.
  - intros Hnc. destruct (Hest Hnc) as (H1 & _ & H2 & H3 & H4). auto.
Qed.

End shape.

Section further_properties.

Context {D : define_h}.
Variable access : string -> amode -> Z.

Implicit Types (cfg : cfg_t) (conf : CONF) (s : stdin).

(** Outside of the (s, mu) scheme, or without an estimator, the
    CF_ESTIMATOR block leaves the multipoles as they are, whatever they
    are. *)
Lemma verify_CF_ESTIMATOR_poles cfg conf b ov s nc f s' l :
  verify_CF_ESTIMATOR access cfg conf b ov s = inr ((nc, f), s') ->
  b <> FCFC_BIN_SMU \/ nc = 0 ->
  f_poles f = poles conf /\ f_npole f = npole conf
  /\ verify_CF_ESTIMATOR access cfg (with_poles l conf) b ov s
     = inr ((nc, {| f_cfout := f_cfout f; f_npole := f_npole f;
                    f_poles := l; f_mpout := f_mpout f; f_wp := f_wp f;
                    f_wpout := f_wpout f |}), s').
Proof.
  unfold verify_CF_ESTIMATOR. cbn zeta.
  change (cfg_get_size cfg (with_poles l conf) CF_ESTIMATOR)
    with (cfg_get_size cfg conf CF_ESTIMATOR).
  destruct (Nat.eqb_spec (cfg_get_size cfg conf CF_ESTIMATOR) 0) as [H0 | Hn];
    cbn [negb].
  { intros [= <- <- <-] _. cbn. auto. }
  intros H Hb.
  change (cf (with_poles l conf)) with (cf conf).
  change (verify_output_files access cfg (with_poles l conf) CF_OUTPUT_FILE
            (cfout (with_poles l conf)))
    with (verify_output_files access cfg conf CF_OUTPUT_FILE (cfout conf)).
  apply bind_inr in H as (u & t1 & Hcf & H).
  apply bind_inr in H as (cfo & t2 & Hcfo & H).
  unfold bind at 1. rewrite Hcf. unfold bind at 1. rewrite Hcfo.
  destruct (Z.eqb_spec b FCFC_BIN_SMU) as [Hsmu | Hsmu].
  - exfalso. destruct Hb as [Hb | Hb]; [contradiction |].
    apply bind_inr in H as ([[np ps] mp] & t3 & _ & H).
    injection H as H _ _. congruence.
  - destruct (b =? FCFC_BIN_SPI)%Z.
    + change (verify_PROJECTED_CF access cfg (with_poles l conf))
        with (verify_PROJECTED_CF access cfg conf).
      apply bind_inr in H as ([w wo] & t3 & Hw & H).
      unfold bind. rewrite Hw. injection H as <- <- <-. cbn. auto.
    + injection H as <- <- <-. cbn. auto.
Qed.

(** X9: the counters of a verified configuration are within its arrays.
    After a successful [conf_verify], [ninput] is the number of labels and
    of weight flags, the box has three side lengths, [npc] is the number of
    pair identifiers (at least one) and of [comp_pc] flags, and every list
    of output files is either absent or has a file for each pair, resp.
    for each of the [ncf] estimators; under the (s, mu) scheme [npole] cells
    of [poles] exist. *)
Theorem verified_counters_in_bounds cfg conf s c s' :
  conf_verify access cfg conf s = inr (c, s') -> counters_in_bounds c.
Proof. apply conf_verify_bounds. Qed.

(** X10: the values of a verified configuration.  After a successful
    [conf_verify] every catalog is flagged as weighted, the data structure,
    the binning scheme and the output format are among the known ones
    (also when they come from the defaults), no estimator is an empty
    string, and the configuration file name, the pair identifiers and the
    estimators are the ones that were read. *)
Theorem verified_values cfg conf s c s' :
  conf_verify access cfg conf s = inr (c, s') ->
  has_wt c = replicate (ninput c) true
  /\ (dstruct c = FCFC_STRUCT_KDTREE \/ dstruct c = FCFC_STRUCT_BALLTREE)
  /\ (bintype c = FCFC_BIN_ISO \/ bintype c = FCFC_BIN_SMU
      \/ bintype c = FCFC_BIN_SPI)
  /\ (ofmt c = FCFC_OFMT_BIN \/ ofmt c = FCFC_OFMT_ASCII)
  /\ (forall i, i < ncf c -> char_at (cf c !!! i) 0 <> NUL)
  /\ fconf c = fconf conf /\ pc c = pc conf /\ cf c = cf conf.
Proof.
  intros Hok.
  apply conf_verify_inr in Hok
    as (ni & lab & bs & d & b & np & comp & pco & nc & f & o & s1
        & _ & _ & Hds & Hbin & _ & _ & Hest & Hfmt & ->).
  cbn [has_wt ninput dstruct bintype ofmt ncf cf fconf pc].
  apply verify_DATA_STRUCT_inr in Hds.
  apply verify_BINNING_SCHEME_in in Hbin.
  apply verify_OUTPUT_FORMAT_inr in Hfmt.
  apply verify_CF_ESTIMATOR_inr in Hest as (_ & Hest).
  split; [apply verify_WEIGHT_eq |].
  split; [exact Hds |]. split; [exact Hbin |]. split; [exact Hfmt |].
  split; [| auto].
  intros i Hi. apply Hest; [lia | exact Hi].
Qed.

(** X11: the alphabet bounds the configuration.  A verified configuration
    has at most 26 catalogs and at most 676 pair counts: the labels are
    distinct uppercase letters and the pair identifiers distinct pairs of
    them. *)
Theorem at_most_26_catalogs cfg conf s c s' :
  conf_verify access cfg conf s = inr (c, s') ->
  ninput c <= 26 /\ npc c <= 676.
Proof.
  intros Hok.
  apply conf_verify_inr in Hok
    as (ni & lab & bs & d & b & np & comp & pco & nc & f & o & s1
        & Hlab & _ & _ & _ & Hpc & _ & _ & _ & ->).
  cbn [ninput npc].
  apply verify_CATALOG_LABEL_inr in Hlab as (_ & -> & Hnd & Hup).
  apply verify_PAIR_COUNT_inr in Hpc as (-> & _ & Hbad).
  apply pairs_bad_false in Hbad as [Hsh Hnd'].
  split; [now apply NoDup_upper_length | now apply NoDup_letters_length].
Qed.

(** X12: the multipoles are only looked at under the (s, mu) scheme and
    with an estimator.  When a configuration is accepted with another
    binning scheme, or without estimator, it is accepted with any other
    list of MULTIPOLE orders as well (unsorted, repeated or out of range),
    and the orders are left in the structure as they were read. *)
Theorem multipoles_ignored_without_smu cfg conf s c s' l :
  conf_verify access cfg conf s = inr (c, s') ->
  bintype c <> FCFC_BIN_SMU \/ ncf c = 0 ->
  poles c = poles conf
  /\ conf_verify access cfg (with_poles l conf) s = inr (with_poles l c, s').
Proof.
  intros Hok Hb.
  apply conf_verify_inr in Hok
    as (ni & lab & bs & d & b & np & comp & pco & nc & f & o & s1
        & Hlab & Hbox & Hds & Hbin & Hpc & Hpcf & Hest & Hfmt & ->).
  cbn [bintype ncf poles] in *.
  destruct (verify_CF_ESTIMATOR_poles _ _ _ _ _ _ _ _ l Hest Hb)
    as (Hps & Hnp & Hest').
  split; [exact Hps |].
  unfold conf_verify.
  change (verify_CATALOG_LABEL cfg (with_poles l conf))
    with (verify_CATALOG_LABEL cfg conf).
  unfold bind at 1. rewrite Hlab.
  change (verify_BOX_SIZE cfg (with_poles l conf))
    with (verify_BOX_SIZE cfg conf).
  unfold bind at 1. rewrite Hbox.
  change (verify_DATA_STRUCT cfg (with_poles l conf))
    with (verify_DATA_STRUCT cfg conf).
  unfold bind at 1. rewrite Hds.
  change (verify_BINNING_SCHEME cfg (with_poles l conf))
    with (verify_BINNING_SCHEME cfg conf).
  unfold bind at 1. rewrite Hbin.
  change (verify_PAIR_COUNT cfg (with_poles l conf))
    with (verify_PAIR_COUNT cfg conf).
  unfold bind at 1. rewrite Hpc.
  change (verify_OVERWRITE cfg (with_poles l conf))
    with (verify_OVERWRITE cfg conf).
  change (verify_PAIR_COUNT_FILE access cfg (with_poles l conf))
    with (verify_PAIR_COUNT_FILE access cfg conf).
  unfold bind at 1. rewrite Hpcf.
  unfold bind at 1. rewrite Hest'.
  change (verify_OUTPUT_FORMAT cfg (with_poles l conf))
    with (verify_OUTPUT_FORMAT cfg conf).
  unfold bind at 1. rewrite Hfmt. reflexivity.
Qed.

End further_properties.

(** X13: the insertion sort of the MULTIPOLE block, on its own.  Whatever
    the array holds, repeated or negative orders included, the sort
    returns its elements in non-decreasing order, each as often as it was
    there: the duplicates are only removed by the pass that follows. *)
Theorem insertion_sort_sorts (l : list Z) :
  sort_poles (length l) l ≡ₚ l
  /\ StronglySorted Z.le (sort_poles (length l) l)
  /\ length (sort_poles (length l) l) = length l.
Proof.
  destruct (sort_poles_spec l) as [Hp Hs].
  split; [exact Hp |]. split; [exact Hs |]. now rewrite Hp.
Qed.

(** * [conf_print] and [load_conf] *)

Lemma read_from_1_is_Some {A} (a : list A) n :
  n <= length a -> is_Some (read_from_1 a n).
Proof.
  intros Hn. unfold read_from_1. apply mapM_is_Some, Forall_forall.
  intros i Hi%elem_of_seq. cbn. apply lookup_lt_is_Some_2. lia.
Qed.

Lemma name_of_is_Some names v : (0 <= v)%Z -> is_Some (name_of names v).
Proof.
  intros Hv. unfold name_of.
  destruct (Z.ltb_spec v (Z.of_nat (length names))); [| eauto].
  destruct (Z.ltb_spec v 0); [lia |]. apply lookup_lt_is_Some_2. lia.
Qed.

Lemma print_files_is_Some key files n :
  files <> [] -> files_for n files -> is_Some (print_files key files n).
Proof.
  intros Hne [| [Hn Hlen]]; [contradiction |]. unfold print_files.
  destruct (lookup_lt_is_Some_2 files 0 ltac:(lia)) as [f0 ->].
  destruct (read_from_1_is_Some files n Hlen) as [fs ->].
  cbn. eauto.
Qed.

Lemma optional_files_is_Some key files n :
  files_for n files ->
  is_Some (if is_null files then Some [] else print_files key files n).
Proof.
  intros H. destruct files as [| f files]; [cbn; eauto |].
  now apply print_files_is_Some.
Qed.

Lemma print_pair_files_is_Some c :
  pcout c <> [] -> files_for (npc c) (pcout c) ->
  length (comp_pc c) = npc c -> is_Some (print_pair_files c).
Proof.
  intros Hne [| [Hn Hlen]] Hcomp; [contradiction |]. unfold print_pair_files.
  destruct (lookup_lt_is_Some_2 (comp_pc c) 0 ltac:(lia)) as [c0 ->].
  destruct (lookup_lt_is_Some_2 (pcout c) 0 ltac:(lia)) as [f0 ->].
  cbn [mbind option_bind].
  destruct (mapM _ _) as [rest |] eqn:Em; [cbn; eauto |]. exfalso.
  apply mapM_None, Exists_exists in Em as (i & Hi%elem_of_seq & Hnone).
  destruct (lookup_lt_is_Some_2 (comp_pc c) i ltac:(lia)) as [ci Hci].
  destruct (lookup_lt_is_Some_2 (pcout c) i ltac:(lia)) as [fi Hfi].
  rewrite Hci, Hfi in Hnone. discriminate.
Qed.

Section printing.

Context {D : define_h}.

Lemma print_estimators_is_Some c :
  table_indices -> counters_in_bounds c -> ncf c <> 0 ->
  bintype c = FCFC_BIN_ISO \/ bintype c = FCFC_BIN_SMU
  \/ bintype c = FCFC_BIN_SPI ->
  is_Some (print_estimators c).
Proof.
  intros (_ & _ & _ & _ & _ & _ & _ & Hdiff)
         (_ & _ & _ & _ & _ & _ & _ & Hcf) Hn Hb.
  destruct (Hcf Hn) as (Hlen & Hcfo & Hsmu & Hspi).
  unfold print_estimators.
  destruct (lookup_lt_is_Some_2 (cf c) 0 ltac:(lia)) as [c0 ->].
  destruct (read_from_1_is_Some (cf c) (ncf c) ltac:(lia)) as [cs ->].
  cbn [mbind option_bind].
  destruct (optional_files_is_Some "CF_OUTPUT_FILE" _ _ Hcfo) as [o1 ->].
  cbn [mbind option_bind].
  destruct (Z.eqb_spec (bintype c) FCFC_BIN_SMU) as [Es | Es].
  - destruct (Z.eqb_spec (bintype c) FCFC_BIN_SPI) as [Ep | _];
      [congruence |].
    destruct (Nat.eqb_spec (npole c) 0) as [| Hnp]; cbn [andb negb];
      [cbn; eauto |].
    destruct (Hsmu Es Hnp) as [Hps Hmp].
    destruct (lookup_lt_is_Some_2 (poles c) 0 ltac:(lia)) as [m0 ->].
    destruct (read_from_1_is_Some (poles c) (npole c) Hps) as [ms ->].
    cbn [mbind option_bind].
    destruct (optional_files_is_Some "MULTIPOLE_FILE" _ _ Hmp) as [o2 ->].
    cbn. eauto.
  - cbn [andb mbind option_bind].
    destruct (Z.eqb_spec (bintype c) FCFC_BIN_SPI) as [Ep | _];
      [| cbn; eauto].
    destruct (wp c) eqn:Ew; [| cbn; eauto].
    destruct (optional_files_is_Some "PROJECTED_FILE" _ _
                (Hspi Ep Es eq_refl)) as [o3 ->].
    cbn. eauto.
Qed.

(** The reads of [conf_print] on a configuration whose counters are within
    its arrays: all of them are, apart from that of the first label. *)
Lemma conf_print_is_Some c :
  table_indices -> counters_in_bounds c ->
  dstruct c = FCFC_STRUCT_KDTREE \/ dstruct c = FCFC_STRUCT_BALLTREE ->
  bintype c = FCFC_BIN_ISO \/ bintype c = FCFC_BIN_SMU
  \/ bintype c = FCFC_BIN_SPI ->
  ofmt c = FCFC_OFMT_BIN \/ ofmt c = FCFC_OFMT_ASCII ->
  is_Some (conf_print c) <-> ninput c <> 0.
Proof.
  intros Htab Hc Hds Hbin Hfmt.
  pose proof Htab as (Hkd & Hball & Hiso & Hsmu & Hspi & Hbinf & Hascii & _).
  pose proof Hc as (Hni & _ & Hbs & Hnp & Hnp1 & Hcomp & Hpco & _).
  unfold conf_print. split.
  - intros [out Hout] H0. rewrite Hni in H0.
    apply nil_length_inv in H0. rewrite H0 in Hout. discriminate.
  - intros H0.
    destruct (lookup_lt_is_Some_2 (label c) 0 ltac:(lia)) as [l0 ->].
    destruct (read_from_1_is_Some (label c) (ninput c) ltac:(lia))
      as [ls ->].
    destruct (lookup_lt_is_Some_2 (bsize c) 0 ltac:(lia)) as [b0 ->].
    destruct (lookup_lt_is_Some_2 (bsize c) 1 ltac:(lia)) as [b1 ->].
    destruct (lookup_lt_is_Some_2 (bsize c) 2 ltac:(lia)) as [b2 ->].
    destruct (name_of_is_Some tname (dstruct c)) as [tn ->];
      [destruct Hds as [-> | ->]; assumption |].
    destruct (name_of_is_Some bname (bintype c)) as [bn ->];
      [destruct Hbin as [-> | [-> | ->]]; assumption |].
    destruct (lookup_lt_is_Some_2 (pc c) 0 ltac:(lia)) as [p0 ->].
    destruct (read_from_1_is_Some (pc c) (npc c) ltac:(lia)) as [ps ->].
    cbn [mbind option_bind].
    assert (H1 : is_Some (if is_null (pcout c) then Some []
                          else print_pair_files c)).
    { destruct (pcout c) as [| f fs] eqn:E; [cbn; eauto |]. cbn [is_null].
      apply print_pair_files_is_Some; rewrite ?E; auto. }
    destruct H1 as [o1 ->]. cbn [mbind option_bind].
    assert (H2 : is_Some (if ncf c =? 0 then Some []
                          else print_estimators c)).
    { destruct (Nat.eqb_spec (ncf c) 0); [eauto |].
      now apply print_estimators_is_Some. }
    destruct H2 as [o2 ->]. cbn [mbind option_bind].
    destruct (name_of_is_Some sname (ofmt c)) as [sn Hsn];
      [destruct Hfmt as [-> | ->]; assumption |].
    rewrite Hsn. destruct (_ || _); cbn; eauto.
Qed.

End printing.

Section print_and_load.

Context {D : define_h}.
Variable access : string -> amode -> Z.

Implicit Types (cfg : cfg_t) (conf : CONF) (s : stdin).

(** X14: the array reads of [conf_print] on a verified configuration.
    Provided the values of the data structures, binning schemes and output
    formats are not negative and the (s, mu) and (s_perp, pi) schemes
    differ, every element [conf_print] reads lies within its array, with
    one exception: [label[0]] is read unconditionally, so the printing
    stays within the arrays exactly when there is at least one catalog
    label.  Without CATALOG_LABEL the label array of the verified
    configuration is empty and the read of [label[0]] is outside of it. *)
Theorem conf_print_reads cfg conf s c s' :
  table_indices ->
  conf_verify access cfg conf s = inr (c, s') ->
  (is_Some (conf_print c) <-> ninput c <> 0)
  /\ (cfg_is_set cfg CATALOG_LABEL = false -> conf_print c = None).
Proof.
  intros Htab Hok.
  assert (Hiff : is_Some (conf_print c) <-> ninput c <> 0).
  { pose proof (conf_verify_bounds access _ _ _ _ _ Hok) as Hb.
    apply conf_verify_inr in Hok
      as (ni & lab & bs & d & b & np & comp & pco & nc & f & o & s1
          & _ & _ & Hds & Hbin & _ & _ & _ & Hfmt & ->).
    apply conf_print_is_Some; [exact Htab | exact Hb | | |];
      cbn [dstruct bintype ofmt].
    - eapply verify_DATA_STRUCT_inr, Hds.
    - eapply verify_BINNING_SCHEME_in, Hbin.
    - eapply verify_OUTPUT_FORMAT_inr, Hfmt. }
  split; [exact Hiff |]. intros Hset.
  destruct (conf_print c) as [out |] eqn:E; [| reflexivity]. exfalso.
  apply (proj1 Hiff); [eauto |].
  apply conf_verify_inr in Hok
    as (ni & lab & bs & d & b & np & comp & pco & nc & f & o & s1
        & Hlab & _ & _ & _ & _ & _ & _ & _ & ->).
  apply verify_CATALOG_LABEL_inr in Hlab as (-> & -> & _).
  unfold configured_labels. now rewrite Hset.
Qed.


End print_and_load.

(** * The error codes of [conf_verify] *)

Lemma cfg_or_file_quiet {A} (m : M A) : quiet m -> cfg_or_file m.
Proof. intros Hq s e He. left. eapply quiet_inl; eauto. Qed.

Lemma cfg_or_file_ret {A} (a : A) : cfg_or_file (ret a).
Proof. intros s e [=]. Qed.

Lemma cfg_or_file_bind {A B} (m : M A) (k : A -> M B) :
  cfg_or_file m -> (forall a, cfg_or_file (k a)) -> cfg_or_file (bind m k).
Proof.
  intros Hm Hk s e [He | (a & s1 & _ & He)]%bind_inl.
  - eapply Hm, He.
  - eapply Hk, He.
Qed.

Lemma cfg_or_file_for_iter {A} (body : nat -> A -> M A) n i a :
  (forall j a, cfg_or_file (body j a)) -> cfg_or_file (for_iter n i body a).
Proof.
  intros Hbody. revert i a. induction n as [| n IH]; intros i a; cbn.
  - apply cfg_or_file_ret.
  - apply cfg_or_file_bind; auto.
Qed.

Section error_codes.

Context {D : define_h}.
Variable access : string -> amode -> Z.

Implicit Types (cfg : cfg_t) (conf : CONF) (s : stdin).

Lemma cfg_or_file_pair_file_step conf n lab ov i comp :
  cfg_or_file (pair_file_step access conf n lab ov i comp).
Proof.
  unfold pair_file_step. intros s e. unfold call. unfold bind at 1.
  destruct (check_output_cases access (pcout conf !!! i) ov
              FCFC_OVERWRITE_ALL s)
    as (r & inp' & -> & [[-> _] | [_ [-> | [-> | (-> & _)]]]]).
  - cbn. intros [= <-]. now left.
  - apply cfg_or_file_bind; [apply cfg_or_file_ret |]. intros comp'.
    apply cfg_or_file_bind; [| intros; apply cfg_or_file_ret].
    destruct (_ !!! _); [| apply cfg_or_file_ret].
    apply cfg_or_file_quiet, quiet_check_labels.
  - cbn. intros [= <-]. now right.
  - apply cfg_or_file_bind; [apply cfg_or_file_ret |]. intros comp'.
    apply cfg_or_file_bind; [| intros; apply cfg_or_file_ret].
    destruct (_ !!! _); [| apply cfg_or_file_ret].
    apply cfg_or_file_quiet, quiet_check_labels.
Qed.

Lemma cfg_or_file_PAIR_COUNT_FILE cfg conf n lab ov npc :
  cfg_or_file (verify_PAIR_COUNT_FILE access cfg conf n lab ov npc).
Proof.
  unfold verify_PAIR_COUNT_FILE. cbn zeta.
  destruct (cfg_is_set cfg PAIR_COUNT_FILE) eqn:Eset.
  - apply cfg_or_file_bind;
      [apply cfg_or_file_quiet; unfold CHECK_EXIST_ARRAY; quiet |].
    intros _. apply cfg_or_file_bind;
      [apply cfg_or_file_quiet; unfold CHECK_ARRAY_LENGTH; quiet |].
    intros _. apply cfg_or_file_bind; [| intros; apply cfg_or_file_ret].
    apply cfg_or_file_for_iter. intros. apply cfg_or_file_pair_file_step.
  - apply cfg_or_file_quiet.
    pose proof (quiet_PAIR_COUNT_FILE_unset access cfg conf n lab ov npc Eset)
      as H.
    unfold verify_PAIR_COUNT_FILE in H. cbn zeta in H.
    now rewrite Eset in H.
Qed.

Section cfonly.

Hypothesis cfonly_next :
  (FCFC_OVERWRITE_CFONLY <= FCFC_OVERWRITE_NONE + 1)%Z.

Lemma cfg_or_file_output_files cfg conf p files ncf ov :
  cfg_or_file (verify_output_files access cfg conf p files ncf ov).
Proof.
  unfold verify_output_files.
  destruct (cfg_is_set cfg p); [| apply cfg_or_file_ret].
  apply cfg_or_file_bind;
    [apply cfg_or_file_quiet; unfold CHECK_EXIST_ARRAY; quiet |].
  intros _. apply cfg_or_file_bind;
    [apply cfg_or_file_quiet; unfold CHECK_ARRAY_LENGTH; quiet |].
  intros _. apply cfg_or_file_bind; [| intros; apply cfg_or_file_ret].
  apply cfg_or_file_for_iter. intros i _ s e. unfold call, bind.
  destruct (check_output_cases access (files !!! i) ov
              FCFC_OVERWRITE_CFONLY s)
    as (r & inp' & -> & [[-> _] | [_ [-> | [-> | (-> & _ & _ & Hf)]]]]);
    cbn.
  - intros [= <-]. now left.
  - discriminate.
  - intros [= <-]. now right.
  - lia.
Qed.

Lemma cfg_or_file_CF_ESTIMATOR cfg conf b ov :
  cfg_or_file (verify_CF_ESTIMATOR access cfg conf b ov).
Proof.
  unfold verify_CF_ESTIMATOR. cbn zeta.
  destruct (negb _); [| apply cfg_or_file_ret].
  apply cfg_or_file_bind; [apply cfg_or_file_quiet; quiet |]. intros _.
  apply cfg_or_file_bind; [apply cfg_or_file_output_files |]. intros cfo.
  destruct (b =? FCFC_BIN_SMU)%Z; [| destruct (b =? FCFC_BIN_SPI)%Z].
  - apply cfg_or_file_bind; [| intros [[? ?] ?]; apply cfg_or_file_ret].
    unfold verify_MULTIPOLE. cbn zeta.
    destruct (negb _); [| apply cfg_or_file_ret].
    destruct (if 1 <? _ then _ else _) as [ps np].
    apply cfg_or_file_bind; [apply cfg_or_file_quiet; quiet |]. intros _.
    apply cfg_or_file_bind; [apply cfg_or_file_output_files |].
    intros; apply cfg_or_file_ret.
  - apply cfg_or_file_bind; [| intros [? ?]; apply cfg_or_file_ret].
    unfold verify_PROJECTED_CF. cbn zeta.
    destruct (if negb _ then _ else _); [| apply cfg_or_file_ret].
    apply cfg_or_file_bind; [apply cfg_or_file_output_files |].
    intros; apply cfg_or_file_ret.
  - apply cfg_or_file_ret.
Qed.

End cfonly.

(** X16: the error codes of [conf_verify].  Provided the level
    [FCFC_OVERWRITE_CFONLY] comes right after [FCFC_OVERWRITE_NONE] (so that
    no file of correlation functions is ever taken for an input), a failed
    verification returns [FCFC_ERR_CFG], [FCFC_ERR_FILE], or
    [FCFC_ERR_MEMORY] when one of its four allocations has failed: the code
    [FCFC_ERR_SAVE], by which [check_output] marks the pair count files to
    be read, does not leave [conf_verify].  When every allocation succeeds
    the function is the one the other properties are about. *)
Theorem conf_verify_error_codes (allocated : allocation -> bool)
    cfg conf s :
  (FCFC_OVERWRITE_CFONLY <= FCFC_OVERWRITE_NONE + 1)%Z ->
  (forall e, conf_verify_mem access allocated cfg conf s = inl e ->
     e = FCFC_ERR_CFG \/ e = FCFC_ERR_FILE \/ out_of_memory allocated e)
  /\ ((forall a, allocated a = true) ->
      conf_verify_mem access allocated cfg conf s
      = conf_verify access cfg conf s).
Proof.
  intros Hnext. split; [| apply conf_verify_mem_ok].
  revert s.
  apply (codes_in_conf_verify_mem access allocated
           (fun e => e = FCFC_ERR_CFG \/ e = FCFC_ERR_FILE
                     \/ out_of_memory allocated e)).
  - now left.
  - intros e He. now right; right.
  - intros n lab ov npc s e He.
    destruct (cfg_or_file_PAIR_COUNT_FILE _ _ _ _ _ _ _ _ He); auto.
  - intros b ov s e He.
    destruct (cfg_or_file_CF_ESTIMATOR Hnext _ _ _ _ _ _ He); auto.
Qed.

End error_codes.

(** * The further properties at concrete configurations *)

Lemma conf_iso_accepted :
  conf_verify fs_empty cfg_iso conf_DR "" = inr (verified_iso, ""%string).
Proof. reflexivity. Qed.

Lemma conf_files_nolabel_read :
  exists c,
    conf_verify fs_full cfg_files_nolabel conf_files "" = inr (c, ""%string)
    /\ ninput c = 0.
Proof. eexists. split; [vm_compute; reflexivity | reflexivity]. Qed.

(** X1 at a new file in the directory [out], on a file system where the
    directory can be entered and on one where it cannot, at the level -1
    and with a pending answer on the standard input. *)
Lemma check_output_new_file_witness :
  char_at "out/DD.dat" 0 <> NUL
  /\ fs_empty "out/DD.dat" F_OK <> 0%Z
  /\ check_output fs_empty "out/DD.dat" (-1) FCFC_OVERWRITE_ALL "y"
     = (None, "y"%string)
  /\ check_output fs_closed "out/DD.dat" (-1) FCFC_OVERWRITE_ALL "y"
     = (Some FCFC_ERR_FILE, "y"%string).
Proof.
  assert (H1 : char_at "out/DD.dat" 0 <> NUL) by discriminate.
  assert (H2 : fs_empty "out/DD.dat" F_OK <> 0%Z) by discriminate.
  assert (H3 : fs_closed "out/DD.dat" F_OK <> 0%Z) by discriminate.
  split; [exact H1 |]. split; [exact H2 |]. split.
  - apply (proj2 (check_output_new_file fs_empty "out/DD.dat" (-1)
                    FCFC_OVERWRITE_ALL "y" H1 H2)).
    intros (k & [= <-] & Hk). now apply Hk.
  - apply (proj1 (check_output_new_file fs_closed "out/DD.dat" (-1)
                    FCFC_OVERWRITE_ALL "y" H1 H3)).
    exists 3. split; [reflexivity | discriminate].
Defined.

(** X2 at an existing pair count file and the level -2: the answer "yes"
    overwrites it, the answer "no" has it read. *)
Lemma check_output_prompt_answer_witness :
  char_at "DD.dat" 0 <> NUL
  /\ fs_full "DD.dat" F_OK = 0%Z
  /\ (-2 < 0)%Z
  /\ check_output fs_full "DD.dat" (-2) FCFC_OVERWRITE_ALL "yes"
     = (None, ""%string)
  /\ check_output fs_full "DD.dat" (-2) FCFC_OVERWRITE_ALL "no"
     = (Some FCFC_ERR_SAVE, ""%string).
Proof.
  assert (H1 : char_at "DD.dat" 0 <> NUL) by discriminate.
  assert (H3 : (-2 < 0)%Z) by lia.
  split; [exact H1 |]. split; [reflexivity |]. split; [exact H3 |]. split.
  - exact (proj1 (check_output_prompt_answer fs_full "DD.dat" (-2)
                    FCFC_OVERWRITE_ALL "y" "es" H1 eq_refl H3) eq_refl).
  - exact (proj2 (check_output_prompt_answer fs_full "DD.dat" (-2)
                    FCFC_OVERWRITE_ALL "n" "o" H1 eq_refl H3) eq_refl).
Defined.

(** X3 at an existing file: at the level -1 an empty standard input and
    the answer "maybe" both end with [FCFC_ERR_FILE]. *)
Lemma check_output_prompt_exhausted_witness :
  char_at "DD.dat" 0 <> NUL
  /\ fs_full "DD.dat" F_OK = 0%Z
  /\ (-1 < 0)%Z
  /\ check_output fs_full "DD.dat" (-1) FCFC_OVERWRITE_ALL ""
     = (Some FCFC_ERR_FILE, ""%string)
  /\ check_output fs_full "DD.dat" (-1) FCFC_OVERWRITE_ALL "maybe"
     = (Some FCFC_ERR_FILE, ""%string).
Proof.
  assert (H1 : char_at "DD.dat" 0 <> NUL) by discriminate.
  assert (H3 : (-1 < 0)%Z) by lia.
  split; [exact H1 |]. split; [reflexivity |]. split; [exact H3 |]. split.
  - exact (proj1 (check_output_prompt_exhausted fs_full "DD.dat" (-1)
                    FCFC_OVERWRITE_ALL H1 eq_refl H3)).
  - exact (proj2 (check_output_prompt_exhausted fs_full "DD.dat" (-1)
                    FCFC_OVERWRITE_ALL H1 eq_refl H3) "m"%char "aybe"%string
             eq_refl eq_refl).
Defined.

(** X6 at the run on D and R, which names no output file: when every
    allocation succeeds it is accepted on the file system where every file
    exists as it is on the empty one, and when the allocation of the weight
    flags fails it ends with [FCFC_ERR_MEMORY]. *)
Lemma verify_without_output_files_witness :
  no_output_files cfg_DR
  /\ conf_verify_mem fs_full (fun _ => true) cfg_DR conf_DR ""
     = inr (verified_DR, ""%string)
  /\ conf_verify_mem fs_full
       (fun a => match a with alloc_has_wt => false | _ => true end)
       cfg_DR conf_DR ""
     = inl FCFC_ERR_MEMORY
  /\ (FCFC_ERR_MEMORY = FCFC_ERR_CFG
      \/ out_of_memory
           (fun a => match a with alloc_has_wt => false | _ => true end)
           FCFC_ERR_MEMORY).
Proof.
  assert (H : no_output_files cfg_DR) by (repeat split).
  assert (Hmem : conf_verify_mem fs_full
       (fun a => match a with alloc_has_wt => false | _ => true end)
       cfg_DR conf_DR "" = inl FCFC_ERR_MEMORY) by reflexivity.
  destruct (verify_without_output_files fs_empty (fun _ => true) cfg_DR
              conf_DR H) as (_ & _ & Hfs).
  destruct (verify_without_output_files fs_full
              (fun a => match a with alloc_has_wt => false | _ => true end)
              cfg_DR conf_DR H) as (Hcodes & _ & _).
  split; [exact H |]. split; [| split; [exact Hmem |]].
  - rewrite (Hfs fs_full). reflexivity.
  - exact (Hcodes _ _ Hmem).
Defined.

(** X7 at the run with pair count files, whose OVERWRITE level is 1. *)
Lemma verify_noninteractive_witness :
  (0 <= verify_OVERWRITE cfg_files conf_files)%Z
  /\ stdin_free (conf_verify fs_full cfg_files conf_files).
Proof.
  assert (H : (0 <= verify_OVERWRITE cfg_files conf_files)%Z)
    by (cbn; lia).
  split; [exact H |].
  exact (verify_noninteractive fs_full cfg_files conf_files H).
Defined.

(** X8 at a run with three pairs and one pair count file. *)
Lemma too_few_pair_files_witness :
  cfg_is_set cfg_files PAIR_COUNT_FILE = true
  /\ length (pcout conf_short) < length (pc conf_short)
  /\ conf_verify fs_full cfg_files conf_short "" = inl FCFC_ERR_CFG.
Proof.
  assert (H : length (pcout conf_short) < length (pc conf_short))
    by (cbn; lia).
  split; [reflexivity |]. split; [exact H |].
  exact (too_few_pair_files fs_full cfg_files conf_short "" eq_refl H).
Defined.

(** X9 at the run on D and R. *)
Lemma verified_counters_in_bounds_witness :
  conf_verify fs_empty cfg_DR conf_DR "" = inr (verified_DR, ""%string)
  /\ counters_in_bounds verified_DR.
Proof.
  split; [exact conf_DR_accepted |].
  exact (verified_counters_in_bounds fs_empty cfg_DR conf_DR "" _ _
           conf_DR_accepted).
Defined.

(** X10 at the run on D and R. *)
Lemma verified_values_witness :
  conf_verify fs_empty cfg_DR conf_DR "" = inr (verified_DR, ""%string)
  /\ has_wt verified_DR = [true; true]
  /\ pc verified_DR = pc conf_DR.
Proof.
  split; [exact conf_DR_accepted |].
  destruct (verified_values fs_empty cfg_DR conf_DR "" _ _ conf_DR_accepted)
    as (Hw & _ & _ & _ & _ & _ & Hpc & _).
  split; [exact Hw | exact Hpc].
Defined.

(** X11 at the run on D and R. *)
Lemma at_most_26_catalogs_witness :
  conf_verify fs_empty cfg_DR conf_DR "" = inr (verified_DR, ""%string)
  /\ ninput verified_DR <= 26 /\ npc verified_DR <= 676.
Proof.
  split; [exact conf_DR_accepted |].
  exact (at_most_26_catalogs fs_empty cfg_DR conf_DR "" _ _
           conf_DR_accepted).
Defined.

(** X12 at the run on D and R under the isotropic scheme, asked for the
    orders 7 and -1 instead. *)
Lemma multipoles_ignored_without_smu_witness :
  conf_verify fs_empty cfg_iso conf_DR "" = inr (verified_iso, ""%string)
  /\ (bintype verified_iso <> FCFC_BIN_SMU \/ ncf verified_iso = 0)
  /\ conf_verify fs_empty cfg_iso (with_poles [7; -1]%Z conf_DR) ""
     = inr (with_poles [7; -1]%Z verified_iso, ""%string).
Proof.
  assert (H : bintype verified_iso <> FCFC_BIN_SMU \/ ncf verified_iso = 0)
    by (left; discriminate).
  split; [exact conf_iso_accepted |]. split; [exact H |].
  exact (proj2 (multipoles_ignored_without_smu fs_empty cfg_iso conf_DR ""
                  _ _ [7; -1]%Z conf_iso_accepted H)).
Defined.

(** X14 at the run on D and R, which is printed within its arrays, and at
    the run that reads its pair counts without CATALOG_LABEL, where the
    first label is read outside of the empty array. *)
Lemma conf_print_reads_witness :
  table_indices
  /\ conf_verify fs_empty cfg_DR conf_DR "" = inr (verified_DR, ""%string)
  /\ is_Some (conf_print verified_DR)
  /\ exists c,
       conf_verify fs_full cfg_files_nolabel conf_files ""
       = inr (c, ""%string)
       /\ conf_print c = None.
Proof.
  assert (Ht : table_indices) by (repeat split; cbn; lia).
  split; [exact Ht |]. split; [exact conf_DR_accepted |]. split.
  - apply (proj1 (conf_print_reads fs_empty cfg_DR conf_DR "" _ _ Ht
                    conf_DR_accepted)).
    discriminate.
  - destruct conf_files_nolabel_read as (c & Hc & _). exists c.
    split; [exact Hc |].
    exact (proj2 (conf_print_reads fs_full cfg_files_nolabel conf_files ""
                    _ _ Ht Hc) eq_refl).
Defined.

(** X16 at the run with pair count files on a file system where the files
    exist and cannot be written, with the level that overwrites them. *)
Lemma conf_verify_error_codes_witness :
  (FCFC_OVERWRITE_CFONLY <= FCFC_OVERWRITE_NONE + 1)%Z
  /\ conf_verify_mem fs_readonly (fun _ => true) cfg_files
       (parsed ["D"; "R"]%char [box1000] 2 ["DD"; "DR"; "RR"]%string
          ["DD.dat"; "DR.dat"; "RR.dat"]%string [0; 2]%Z) ""
     = inl FCFC_ERR_FILE
  /\ (FCFC_ERR_FILE = FCFC_ERR_CFG \/ FCFC_ERR_FILE = FCFC_ERR_FILE
      \/ out_of_memory (fun _ => true) FCFC_ERR_FILE).
Proof.
  assert (H : (FCFC_OVERWRITE_CFONLY <= FCFC_OVERWRITE_NONE + 1)%Z)
    by (cbn; lia).
  assert (Hrun : conf_verify_mem fs_readonly (fun _ => true) cfg_files
       (parsed ["D"; "R"]%char [box1000] 2 ["DD"; "DR"; "RR"]%string
          ["DD.dat"; "DR.dat"; "RR.dat"]%string [0; 2]%Z) ""
     = inl FCFC_ERR_FILE) by reflexivity.
  split; [exact H |]. split; [exact Hrun |].
  exact (proj1 (conf_verify_error_codes fs_readonly (fun _ => true)
                  cfg_files _ _ H) _ Hrun).
Defined.
